(** * Redfin scraper: a shallow embedding of [redfin_scraper.py]

    The development follows the source file top-down: Python strings and the
    string methods the scraper calls, the text normaliser [_clean_card_stat],
    the page and document interfaces the scraper consumes (Playwright pages and
    locators, BeautifulSoup tags, the [re] pattern of the engagement counters),
    then [_parse_home_card], [_collect_home_cards], [_extract_status_badge],
    [_scrape_property_detail], [scrape] and the numbering done by [main].

    Modelling conventions.
    - A Python [str] is a list of Unicode code points ([N]).  Selector and
      attribute names, which the source only writes as literals, are Rocq
      strings.
    - [Optional[str]] is [option str]; a [dict] whose order is observable is an
      association list in insertion order.
    - A raised exception is the [Error] branch of [result], a call that
      never returns the [Hangs] branch.  A call the source wraps in
      [try]/[except] may fail in the model, and the failure is handled as the
      source handles it; of the calls it leaves unguarded, the one whose
      outcome the document decides (reading the house-info container) may
      fail, the others are taken to return.
    - A Playwright page is a function from the actions performed on it so far
      to what it currently shows, so content may appear after a scroll or a
      pause, and what is not there stays away until the next action: a read
      that waits for an element without a timeout never returns when the
      element is missing.  Logging is not modelled.
    - Case mapping and character classes are written out for Basic Latin;
      beyond it they are the tables of the class [Unicode], over which every
      property is quantified. *)

From Stdlib Require Import List NArith ZArith Bool Arith Lia String Ascii DecimalString.
Import ListNotations.

#[local] Set Warnings "-register-all".

Open Scope string_scope.
Open Scope list_scope.

(* ------------------------------------------------------------------ *)
(** * Python strings *)
(* ------------------------------------------------------------------ *)

(** A [str]: the sequence of its code points. *)
Definition str := list N.

(** The code points of an ASCII literal of the source. *)
Definition py (s : string) : str :=
  map N_of_ascii (list_ascii_of_string s).

(** [a == b] *)
Fixpoint str_eqb (a b : str) : bool :=
  match a, b with
  | [], [] => true
  | x :: a', y :: b' => (x =? y)%N && str_eqb a' b'
  | _, _ => false
  end.

(** [bool(s)] for a string: non-empty. *)
Definition truthy (s : str) : bool :=
  match s with [] => false | _ :: _ => true end.

(** [c.isspace()]: the code points CPython's [_PyUnicode_IsWhitespace]
    accepts; [str.split], [str.strip] and the pattern class [\s] all use it. *)
Definition isspace (c : N) : bool :=
  ((9 <=? c) && (c <=? 13) || (28 <=? c) && (c <=? 32)
   || (c =? 133) || (c =? 160) || (c =? 5760)
   || (8192 <=? c) && (c <=? 8202)
   || (c =? 8232) || (c =? 8233) || (c =? 8239) || (c =? 8287)
   || (c =? 12288))%N.

Definition SPACE : N := 32%N.

(** [s.lstrip()] *)
Fixpoint lstrip (s : str) : str :=
  match s with
  | [] => []
  | c :: s' => if isspace c then lstrip s' else s
  end.

(** [s.rstrip()]: a character is dropped when it is white and everything
    after it has been dropped. *)
Fixpoint rstrip (s : str) : str :=
  match s with
  | [] => []
  | c :: s' =>
      match rstrip s' with
      | [] => if isspace c then [] else [c]
      | r => c :: r
      end
  end.

(** [s.strip()] *)
Definition strip (s : str) : str := rstrip (lstrip s).

(** [s.lstrip(chars)] for a one-character [chars]. *)
Fixpoint lstrip_char (ch : N) (s : str) : str :=
  match s with
  | [] => []
  | c :: s' => if (c =? ch)%N then lstrip_char ch s' else s
  end.

(** [s.startswith(prefix)] *)
Fixpoint startswith (prefix s : str) : bool :=
  match prefix, s with
  | [], _ => true
  | _ :: _, [] => false
  | p :: prefix', c :: s' => (p =? c)%N && startswith prefix' s'
  end.

(** [needle in hay] *)
Fixpoint contains (needle hay : str) : bool :=
  startswith needle hay
  || match hay with
     | [] => false
     | _ :: hay' => contains needle hay'
     end.

(** [s.split()]: the maximal runs of non-white characters, left to right.
    [cur] holds the characters of the run being read, last one first. *)
Fixpoint split_from (cur : str) (s : str) : list str :=
  match s with
  | [] => match cur with [] => [] | _ => [rev cur] end
  | c :: s' =>
      if isspace c then
        match cur with
        | [] => split_from [] s'
        | _ => rev cur :: split_from [] s'
        end
      else split_from (c :: cur) s'
  end.

Definition split (s : str) : list str := split_from [] s.

(** [sep.join(parts)] *)
Fixpoint join (sep : str) (parts : list str) : str :=
  match parts with
  | [] => []
  | [p] => p
  | p :: rest => p ++ sep ++ join sep rest
  end.

(** [s.splitlines()]: the boundaries are the code points below, with CR LF
    counted once; no empty last line after a final boundary. *)
Definition is_linebreak (c : N) : bool :=
  ((10 <=? c) && (c <=? 13) || (28 <=? c) && (c <=? 30)
   || (c =? 133) || (c =? 8232) || (c =? 8233))%N.

Fixpoint splitlines_from (cur : str) (s : str) : list str :=
  match s with
  | [] => match cur with [] => [] | _ => [rev cur] end
  | c :: s' =>
      if is_linebreak c then
        rev cur ::
        match s' with
        | c' :: s'' =>
            if ((c =? 13) && (c' =? 10))%N
            then splitlines_from [] s''
            else splitlines_from [] s'
        | [] => []
        end
      else splitlines_from (c :: cur) s'
  end.

Definition splitlines (s : str) : list str := splitlines_from [] s.

(* ------------------------------------------------------------------ *)
(** * The text normaliser *)
(* ------------------------------------------------------------------ *)

(** [_clean_card_stat]:
<<
    if not value:
        return value
    return " ".join(value.split())
>> *)
Definition _clean_card_stat (value : option str) : option str :=
  match value with
  | None => None
  | Some [] => Some []
  | Some v => Some (join [SPACE] (split v))
  end.

(** The call on a value that is a [str]. *)
Definition clean_text (v : str) : str :=
  match v with
  | [] => []
  | _ => join [SPACE] (split v)
  end.

(** The normaliser in the words of its contract: every maximal run of white
    space becomes one space (the last character of a run emits it), then the
    ends are trimmed. *)
Fixpoint collapse_runs (s : str) : str :=
  match s with
  | [] => []
  | c :: s' =>
      if isspace c then
        match s' with
        | c' :: _ => if isspace c' then collapse_runs s' else SPACE :: collapse_runs s'
        | [] => [SPACE]
        end
      else c :: collapse_runs s'
  end.

Definition normalize_spec (s : str) : str := strip (collapse_runs s).

(* ------------------------------------------------------------------ *)
(** * Case and character classes *)
(* ------------------------------------------------------------------ *)

Definition is_ascii (c : N) : bool := (c <? 128)%N.

Definition ascii_lower (c : N) : N :=
  if ((65 <=? c) && (c <=? 90))%N then (c + 32)%N else c.

Definition ascii_isalnum (c : N) : bool :=
  ((48 <=? c) && (c <=? 57) || (65 <=? c) && (c <=? 90)
   || (97 <=? c) && (c <=? 122))%N.

(** The Unicode character database beyond Basic Latin.  The scraper's
    behaviour on ASCII text is fixed by the definitions below; what Python
    does with other code points is left to these tables, and every property
    is proved for all of them. *)
Class Unicode := {
  (** [s.lower()] of a string with a code point above 127 *)
  unicode_lower : str -> str;
  (** [c.isalnum()] of a code point above 127 *)
  unicode_isalnum : N -> bool;
  (** whether text character [c] above 127 equals the cased pattern
      literal [p] under [re.IGNORECASE] *)
  unicode_ignorecase : N -> N -> bool
}.

(** The tables that know no letter outside Basic Latin; they serve to run
    the scraper on concrete pages. *)
Definition basic_latin : Unicode := {|
  unicode_lower := fun s => map ascii_lower s;
  unicode_isalnum := fun _ => false;
  unicode_ignorecase := fun p c => (p =? c)%N
|}.

(** [s.lower()] *)
Definition lower {U : Unicode} (s : str) : str :=
  if forallb is_ascii s then map ascii_lower s else unicode_lower s.

(** [c.isalnum()] *)
Definition isalnum {U : Unicode} (c : N) : bool :=
  if is_ascii c then ascii_isalnum c else unicode_isalnum c.

(* ------------------------------------------------------------------ *)
(** * Regular expressions: the fragment [stats_pattern] uses *)
(* ------------------------------------------------------------------ *)

(** One-character matchers. *)
Inductive charset :=
| Literal (c : N)                 (** a character that has no case *)
| LiteralIgnore (c : N)           (** a letter under [re.IGNORECASE] *)
| InRanges (ranges : list (N * N)) (** [[lo-hi...]] over characters without case *)
| CategorySpace                   (** [\s] *)
| CategoryWord.                   (** [\w] *)

Definition charset_matches {U : Unicode} (cs : charset) (c : N) : bool :=
  match cs with
  | Literal p => (c =? p)%N
  | LiteralIgnore p =>
      if is_ascii c then (ascii_lower c =? ascii_lower p)%N
      else unicode_ignorecase p c
  | InRanges ranges =>
      existsb (fun r => ((fst r <=? c) && (c <=? snd r))%N) ranges
  | CategorySpace => isspace c
  | CategoryWord => isalnum c || (c =? 95)%N
  end.

(** A pattern is a sequence of items; named groups are bracketed by
    [GroupStart] and [GroupEnd]. *)
Inductive item :=
| One (cs : charset)
| OneOrMore (cs : charset)        (** [cs+], greedy *)
| GroupStart (name : string)
| GroupEnd (name : string).

Definition pattern := list item.

Definition groups := list (string * str).

Fixpoint assoc {A : Type} (name : string) (l : list (string * A)) : option A :=
  match l with
  | [] => None
  | (n, a) :: l' => if String.eqb n name then Some a else assoc name l'
  end.

(** The groups that are open take every character the match consumes;
    each holds its text so far, last character first. *)
Definition consume (c : N) (opened : groups) : groups :=
  map (fun g => (fst g, c :: snd g)) opened.

(** [cs+] followed by the continuation [k]: the longest run first, giving
    characters back one at a time. *)
Fixpoint one_or_more {U : Unicode} {R : Type} (cs : charset)
    (k : str -> groups -> option R) (s : str) (opened : groups) : option R :=
  match s with
  | [] => None
  | c :: s' =>
      if charset_matches cs c then
        match one_or_more cs k s' (consume c opened) with
        | Some r => Some r
        | None => k s' (consume c opened)
        end
      else None
  end.

(** Match [p] at the start of [s]; [closed] holds the groups matched so
    far. *)
Fixpoint match_here {U : Unicode} (p : pattern) (s : str)
    (opened : groups) (closed : groups) : option groups :=
  match p with
  | [] => Some closed
  | One cs :: p' =>
      match s with
      | c :: s' =>
          if charset_matches cs c
          then match_here p' s' (consume c opened) closed
          else None
      | [] => None
      end
  | OneOrMore cs :: p' =>
      one_or_more cs (fun s' opened' => match_here p' s' opened' closed)
        s opened
  | GroupStart name :: p' =>
      match_here p' s ((name, []) :: opened) closed
  | GroupEnd name :: p' =>
      match assoc name opened with
      | Some text => match_here p' s opened ((name, rev text) :: closed)
      | None => None
      end
  end.

(** [pattern.search(s)]: the match at the leftmost position that has one. *)
Fixpoint search {U : Unicode} (p : pattern) (s : str) : option groups :=
  match match_here p s [] [] with
  | Some m => Some m
  | None =>
      match s with
      | [] => None
      | _ :: s' => search p s'
      end
  end.

(** [m.group(name)] *)
Definition group (m : groups) (name : string) : option str := assoc name m.

(** The letters of a literal word of the pattern. *)
Definition word (w : string) : pattern :=
  map (fun c => One (LiteralIgnore c)) (py w).

Definition BULLET : N := 8226%N.

Definition digits_and_comma : charset := InRanges [(48, 57); (44, 44)]%N.

(** [stats_pattern], compiled with [re.IGNORECASE]:
<<
(?P<on_redfin>[0-9,]+\s+\w+\s+on\s+Redfin)\s•\s(?P<views>[0-9,]+\sviews)\s•\s(?P<favorites>[0-9,]+\sfavorites)
>>
    The bullet (U+2022), digits and the comma have no case. *)
Definition stats_pattern : pattern :=
  [GroupStart "on_redfin";
   OneOrMore digits_and_comma; OneOrMore CategorySpace;
   OneOrMore CategoryWord; OneOrMore CategorySpace]
  ++ word "on" ++ [OneOrMore CategorySpace] ++ word "Redfin"
  ++ [GroupEnd "on_redfin";
      One CategorySpace; One (Literal BULLET); One CategorySpace;
      GroupStart "views"; OneOrMore digits_and_comma; One CategorySpace]
  ++ word "views"
  ++ [GroupEnd "views";
      One CategorySpace; One (Literal BULLET); One CategorySpace;
      GroupStart "favorites"; OneOrMore digits_and_comma; One CategorySpace]
  ++ word "favorites"
  ++ [GroupEnd "favorites"].

(* ------------------------------------------------------------------ *)
(** * Exceptions *)
(* ------------------------------------------------------------------ *)

Inductive exn :=
| RuntimeError (message : str)
| PlaywrightError.     (** raised by Playwright: a rejected [page.evaluate],
                          a locator that resolves to nothing *)

(** How a call ends: it returns a value, it raises, or it never returns. *)
Inductive result (A : Type) :=
| Ok (a : A)
| Error (e : exn)
| Hangs.
Arguments Ok {A} a.
Arguments Error {A} e.
Arguments Hangs {A}.

(** One call after another: the second is made when the first returns. *)
Definition bind {A B : Type} (r : result A) (k : A -> result B) : result B :=
  match r with
  | Ok a => k a
  | Error e => Error e
  | Hangs => Hangs
  end.

Notation "x <- r ;; k" := (bind r (fun x => k))
  (at level 61, r at next level, right associativity).

(** The three [RuntimeError]s of the source. *)
Definition NoCardsFound : exn :=
  RuntimeError (py "No home cards loaded on the Redfin homepage.").

Definition MissingDetailLink : exn :=
  RuntimeError (py "Unable to locate detail URL for a home card.").

Definition str_of_N (n : N) : str :=
  py (DecimalString.NilEmpty.string_of_uint (N.to_uint n)).

Definition DetailPageLoadFailed (status : option N) (url : str) : exn :=
  RuntimeError
    (py "Failed to load detail page ("
     ++ match status with Some n => str_of_N n | None => py "no response" end
     ++ py "): " ++ url).

(* ------------------------------------------------------------------ *)
(** * BeautifulSoup documents *)
(* ------------------------------------------------------------------ *)

(** A parsed tag, as the scraper can observe it: the text nodes below it in
    document order, its attributes, and what each CSS selector selects
    below it, in document order. *)
Inductive Tag := mk_tag {
  strings : list str;
  attrs : string -> option str;
  select : string -> list Tag
}.

(** [tag.select_one(selector)] *)
Definition select_one (t : Tag) (selector : string) : option Tag :=
  hd_error (select t selector).

(** [tag.get_text(separator, strip=True)]: the stripped text nodes that are
    not empty, joined. *)
Definition get_text (t : Tag) (separator : str) : str :=
  join separator (filter truthy (map strip (strings t))).

(** A tag that selects nothing and has neither text nor attributes. *)
Definition empty_tag : Tag :=
  mk_tag [] (fun _ => None) (fun _ => []).

(* ------------------------------------------------------------------ *)
(** * Playwright pages *)
(* ------------------------------------------------------------------ *)

(** An element reached through a locator. *)
Inductive element := mk_element {
  inner_text : str;
  get_attribute : string -> option str;
  locator : string -> list element;   (** [el.locator(selector)], document order *)
  is_enabled : bool;
  click_ok : bool                     (** [el.click()] returns *)
}.

(** An element of the document as the status script sees it. *)
Record dom_element := {
  class_attr : option str;
  text_content : str
}.

(** What a page shows at one moment. *)
Record snapshot := {
  (** the status of the response [page.goto] returned, if any *)
  response : option N;
  (** [page.locator(selector)], document order *)
  page_locator : string -> list element;
  (** [page.inner_text("body")]; [None] when it raises *)
  body_inner_text : option str;
  (** every element of the document; [None] when [page.evaluate] raises *)
  document_elements : option (list dom_element);
  (** the [house-info] container as BeautifulSoup parses its outer HTML;
      [None] when the document has no such element *)
  house_info : option Tag
}.

Inductive action :=
| Goto (url : str)
| WaitForSelector (selector : string)
| MouseWheel (dx dy : Z)
| WaitForTimeout (ms : N)
| Click (selector : string).

(** The actions performed on a page, the latest first. *)
Definition trace := list action.

Definition page := trace -> snapshot.

(* ------------------------------------------------------------------ *)
(** * Records *)
(* ------------------------------------------------------------------ *)

Module HomeCard.
Record t := {
  title : option str;
  price : option str;
  beds : option str;
  baths : option str;
  sqft : option str;
  address : option str;
  detail_url : str;
  image_url : option str
}.
End HomeCard.

(** A [Dict[str, str]]: the entries in insertion order. *)
Definition dict := list (str * str).

(** [d[k] = v]: a key the dictionary has keeps its place. *)
Fixpoint dict_set (d : dict) (k v : str) : dict :=
  match d with
  | [] => [(k, v)]
  | (k', v') :: d' =>
      if str_eqb k' k then (k', v) :: d' else (k', v') :: dict_set d' k v
  end.

(** [d.get(k)] *)
Fixpoint dict_get (d : dict) (k : str) : option str :=
  match d with
  | [] => None
  | (k', v') :: d' => if str_eqb k' k then Some v' else dict_get d' k
  end.

Module PropertyDetails.
Record t := {
  status_badge : option str;
  price : option str;
  monthly_payment : option str;
  beds : option str;
  baths : option str;
  sqft : option str;
  address : option str;
  on_redfin : option str;
  views : option str;
  favorites : option str;
  description : option str;
  key_details : dict;
  agent_name : option str;
  agent_broker : option str;
  agent_profile_url : option str;
  listing_updated : option str;
  redfin_checked : option str;
  mls_source : option str;
  mls_id : option str
}.
End PropertyDetails.

Definition base_url : str := py "https://www.redfin.com".
Definition list_url : str := py "https://www.redfin.com/".


(* ------------------------------------------------------------------ *)
(** * The card field extractor *)
(* ------------------------------------------------------------------ *)

(** [_parse_home_card] *)
Definition _parse_home_card (card_locator : element) : result HomeCard.t :=
  let get_text := fun selector : string =>
    match locator card_locator selector with
    | [] => None
    | first :: _ => Some (strip (inner_text first))
    end in
  let get_attr := fun (selector attribute : string) =>
    match locator card_locator selector with
    | [] => None
    | first :: _ => get_attribute first attribute
    end in
  let price := get_text ".bp-Homecard__Price--value" in
  let beds := get_text ".bp-Homecard__Stats--beds" in
  let baths := get_text ".bp-Homecard__Stats--baths" in
  let sqft := get_text ".bp-Homecard__Stats--sqft" in
  let address := get_text "a.bp-Homecard__Address" in
  let title := get_attribute card_locator "title" in
  let detail_path := get_attr "a.bp-Homecard__Address" "href" in
  let image_url := get_attr ".bp-Homecard__Photo img" "src" in
  match detail_path with
  | None | Some [] => Error MissingDetailLink
  | Some detail_path =>
      let detail_url :=
        if startswith (py "http") detail_path then detail_path
        else base_url ++ detail_path in
      Ok {| HomeCard.title :=
              match title with
              | Some ((_ :: _) as title) => Some (strip title)
              | _ => address
              end;
            HomeCard.price := _clean_card_stat price;
            HomeCard.beds := _clean_card_stat beds;
            HomeCard.baths := _clean_card_stat baths;
            HomeCard.sqft := _clean_card_stat sqft;
            HomeCard.address := address;
            HomeCard.detail_url := detail_url;
            HomeCard.image_url := image_url |}
  end.

(* ------------------------------------------------------------------ *)
(** * The listing collector *)
(* ------------------------------------------------------------------ *)

Definition HOME_CARD : string := "div[data-rf-test-name='basicNode-homeCard']".

(** [locator.count()] on a page that has seen the actions [tr]. *)
Definition count (pg : page) (tr : trace) : Z :=
  Z.of_nat (List.length (page_locator (pg tr) HOME_CARD)).

(** The scroll loop:
<<
    while locator.count() < limit and attempts < 10:
        page.mouse.wheel(0, 1600)
        page.wait_for_timeout(1000)
        attempts += 1
>>
    [fuel] bounds the number of iterations; ten is enough
    ([scroll_loop_exit]). *)
Fixpoint scroll_loop (pg : page) (limit : Z) (fuel : nat)
    (attempts : Z) (tr : trace) : Z * trace :=
  match fuel with
  | O => (attempts, tr)
  | S fuel' =>
      if ((count pg tr <? limit) && (attempts <? 10))%Z then
        scroll_loop pg limit fuel' (attempts + 1)%Z
          (WaitForTimeout 1000 :: MouseWheel 0 1600 :: tr)
      else (attempts, tr)
  end.

(** The loop over [range(min(limit, available))]; [rendered] is what the
    locator resolves to, [cards] the list built so far.  An index beyond the
    rendered cards, which the loop never reaches, would make
    [card_locator.get_attribute] time out. *)
Fixpoint parse_loop (rendered : list element) (indices : list nat)
    (cards : list HomeCard.t) : result (list HomeCard.t) :=
  match indices with
  | [] => Ok cards
  | index :: rest =>
      match nth_error rendered index with
      | None => Error PlaywrightError
      | Some card_locator =>
          match _parse_home_card card_locator with
          | Error e => Error e
          | Hangs => Hangs
          | Ok card => parse_loop rendered rest (cards ++ [card])
          end
      end
  end.

(** [_collect_home_cards]: the cards or the exception, and the actions the
    page has seen when the function leaves. *)
Definition _collect_home_cards (pg : page) (limit : Z)
    : result (list HomeCard.t) * trace :=
  let tr := [WaitForSelector HOME_CARD; Goto list_url] in
  let '(attempts, tr) := scroll_loop pg limit 10 0%Z tr in
  let rendered := page_locator (pg tr) HOME_CARD in
  let available := Z.of_nat (List.length rendered) in
  if (available =? 0)%Z then (Error NoCardsFound, tr)
  else
    (parse_loop rendered (seq 0 (Z.to_nat (Z.min limit available))) [], tr).

(* ------------------------------------------------------------------ *)
(** * The status classifier *)
(* ------------------------------------------------------------------ *)

Definition preferred_keywords : list str :=
  map py ["for sale"; "pending"; "sold"; "contingent"; "active";
          "off market"; "new listing"]%string.

(** [any(keyword in lowered for keyword in preferred_keywords)] *)
Definition has_keyword (lowered : str) : bool :=
  existsb (fun keyword => contains keyword lowered) preferred_keywords.

(** White space and line terminators of ECMAScript, which [trim] removes. *)
Definition js_isspace (c : N) : bool :=
  ((9 <=? c) && (c <=? 13) || (c =? 32) || (c =? 160) || (c =? 5760)
   || (8192 <=? c) && (c <=? 8202)
   || (c =? 8232) || (c =? 8233) || (c =? 8239) || (c =? 8287)
   || (c =? 12288) || (c =? 65279))%N.

Fixpoint js_trim_start (s : str) : str :=
  match s with
  | [] => []
  | c :: s' => if js_isspace c then js_trim_start s' else s
  end.

Fixpoint js_trim_end (s : str) : str :=
  match s with
  | [] => []
  | c :: s' =>
      match js_trim_end s' with
      | [] => if js_isspace c then [] else [c]
      | r => c :: r
      end
  end.

Definition js_trim (s : str) : str := js_trim_end (js_trim_start s).

(** The selector [[class*="status" i]]: a class attribute that contains
    "status", compared without ASCII case. *)
Definition class_has_status (el : dom_element) : bool :=
  match class_attr el with
  | Some cls => contains (py "status") (map ascii_lower cls)
  | None => false
  end.

(** The script [_extract_status_badge] evaluates in the page:
<<
    Array.from(document.querySelectorAll('[class*="status" i]'))
      .map(el => el.textContent.trim()).filter(Boolean)
>> *)
Definition status_script (document : list dom_element) : list str :=
  filter truthy
    (map (fun el => js_trim (text_content el))
       (filter class_has_status document)).

(** The first loop:
<<
    for raw in candidates:
        cleaned = self._clean_card_stat(raw)
        if not cleaned: continue
        if len(cleaned) > 80: continue
        lowered = cleaned.lower()
        if any(keyword in lowered for keyword in preferred_keywords):
            return cleaned
>> *)
Fixpoint scan_candidates {U : Unicode} (candidates : list str) : option str :=
  match candidates with
  | [] => None
  | raw :: rest =>
      match _clean_card_stat (Some raw) with
      | Some ((_ :: _) as cleaned) =>
          if (80 <? List.length cleaned)%nat then scan_candidates rest
          else if has_keyword (lower cleaned) then Some cleaned
          else scan_candidates rest
      | _ => scan_candidates rest
      end
  end.

(** The second loop, over [body_text.splitlines()]. *)
Fixpoint scan_lines {U : Unicode} (lines : list str) : option str :=
  match lines with
  | [] => None
  | line :: rest =>
      match _clean_card_stat (Some line) with
      | Some ((_ :: _) as cleaned) =>
          if has_keyword (lower cleaned) then Some cleaned
          else scan_lines rest
      | _ => scan_lines rest
      end
  end.

(** [_extract_status_badge] on a page that has seen the actions [tr]. *)
Definition _extract_status_badge {U : Unicode} (pg : page) (tr : trace)
    : option str :=
  let candidates :=
    match document_elements (pg tr) with
    | Some document => status_script document
    | None => []
    end in
  match scan_candidates candidates with
  | Some cleaned => Some cleaned
  | None =>
      let body_text :=
        match body_inner_text (pg tr) with
        | Some text => text
        | None => []
        end in
      scan_lines (splitlines body_text)
  end.

(* ------------------------------------------------------------------ *)
(** * The house-info fragment *)
(* ------------------------------------------------------------------ *)

(** [description] *)
Definition description_of (house_info : Tag) : option str :=
  match select_one house_info "#marketing-remarks-scroll" with
  | Some description_node => Some (get_text description_node [SPACE])
  | None => None
  end.

(** The loop that fills [key_details]:
<<
    for row in house_info.select(".KeyDetailsTable .keyDetails-row"):
        label = row.select_one(".valueType")
        value = row.select_one(".valueText")
        if label and value:
            label_text = label.get_text(strip=True)
            if label_text.lower() == "on redfin":
                continue
            key_details[label_text] = value.get_text(" ", strip=True)
>> *)
Fixpoint key_details_loop {U : Unicode} (rows : list Tag) (key_details : dict)
    : dict :=
  match rows with
  | [] => key_details
  | row :: rest =>
      match select_one row ".valueType", select_one row ".valueText" with
      | Some label, Some value =>
          let label_text := get_text label [] in
          if str_eqb (lower label_text) (py "on redfin")
          then key_details_loop rest key_details
          else
            key_details_loop rest
              (dict_set key_details label_text (get_text value [SPACE]))
      | _, _ => key_details_loop rest key_details
      end
  end.

Definition key_details_of {U : Unicode} (house_info : Tag) : dict :=
  key_details_loop (select house_info ".KeyDetailsTable .keyDetails-row") [].

(** [agent_name], [agent_broker], [agent_profile_url] *)
Definition agent_of (house_info : Tag)
    : option str * option str * option str :=
  match
    select_one house_info "[data-rf-test-id='agentInfoItem-redfinAgentDisplay']"
  with
  | None => (None, None, None)
  | Some agent_section =>
      let name_node :=
        select_one agent_section ".agent-basic-details--heading a" in
      let broker_node :=
        select_one agent_section ".agent-basic-details--broker span" in
      let '(agent_name, agent_profile_url) :=
        match name_node with
        | Some name_node =>
            (Some (get_text name_node []),
             match attrs name_node "href" with
             | Some agent_profile_url =>
                 if truthy agent_profile_url
                    && negb (startswith (py "http") agent_profile_url)
                 then Some (base_url ++ agent_profile_url)
                 else Some agent_profile_url
             | None => None
             end)
        | None => (None, None)
        end in
      let agent_broker :=
        match broker_node with
        | Some broker_node => Some (get_text broker_node [SPACE])
        | None => None
        end in
      (agent_name, agent_broker, agent_profile_url)
  end.

(** An [Optional[str]] inside an f-string. *)
Definition format (value : option str) : str :=
  match value with
  | Some s => s
  | None => py "None"
  end.

(** [listing_updated], [redfin_checked], [mls_source], [mls_id] *)
Definition listing_of (house_info : Tag)
    : option str * option str * option str * option str :=
  match select_one house_info ".listingInfoSection" with
  | None => (None, None, None, None)
  | Some listing_info =>
      let time_node := select_one listing_info ".data-quality time" in
      let redfin_checked_node := select_one listing_info ".data-quality a" in
      let source_node :=
        select_one listing_info ".ListingSource--dataSourceName" in
      let mls_node := select_one listing_info ".ListingSource--mlsId" in
      (match time_node with
       | Some time_node =>
           Some (py "Listing updated: "
                 ++ format (_clean_card_stat (Some (get_text time_node []))))
       | None => None
       end,
       match redfin_checked_node with
       | Some redfin_checked_node =>
           Some (py "Redfin checked: "
                 ++ format (_clean_card_stat
                              (Some (get_text redfin_checked_node []))))
       | None => None
       end,
       match source_node with
       | Some source_node =>
           Some (py "Source: "
                 ++ format (_clean_card_stat (Some (get_text source_node []))))
       | None => None
       end,
       match mls_node with
       | Some mls_node =>
           Some (py "MLS ID: "
                 ++ format (_clean_card_stat
                              (Some (lstrip_char 35 (get_text mls_node [])))))
       | None => None
       end)
  end.

(* ------------------------------------------------------------------ *)
(** * The detail page *)
(* ------------------------------------------------------------------ *)

Definition PRICE : string := "[data-rf-test-id='abp-price']".
Definition SHOW_MORE : string := "button:has-text('Show more')".

(** The remarks toggle:
<<
    try:
        show_more = page.locator("button:has-text('Show more')")
        if show_more.count() and show_more.first.is_enabled():
            show_more.first.click()
            page.wait_for_timeout(250)
    except ...: pass
>> *)
Definition expand_remarks (pg : page) (tr : trace) : trace :=
  match page_locator (pg tr) SHOW_MORE with
  | [] => tr
  | first :: _ =>
      if is_enabled first then
        if click_ok first then WaitForTimeout 250 :: Click SHOW_MORE :: tr
        else tr
      else tr
  end.

(** [stat_text]:
<<
    loc = page.locator(selector)
    try:
        text_value = loc.first.inner_text(timeout=0)
    except PlaywrightTimeoutError:
        return None
    except Exception:
        return None
    return self._clean_card_stat(text_value)
>>
    No [count()] guards the read, and [timeout=0] switches the timeout off:
    [inner_text] waits for the element until it is there.  Where the
    selector finds nothing the call never returns, so neither [except]
    branch is reached; where it finds an element the normalised text of the
    first one is returned. *)
Definition stat_text (pg : page) (tr : trace) (selector : string)
    : result (option str) :=
  match page_locator (pg tr) selector with
  | [] => Hangs
  | first :: _ => Ok (_clean_card_stat (Some (inner_text first)))
  end.

(** The six primary figures, read one after the other:
<<
    price = stat_text("[data-rf-test-id='abp-price'] .statsValue.price")
    monthly = stat_text("[data-rf-test-id='abp-monthly-payment-entry-point-estimate']")
    beds = stat_text("[data-rf-test-id='abp-beds']")
    baths = stat_text("[data-rf-test-id='abp-baths']")
    sqft = stat_text("[data-rf-test-id='abp-sqFt']")
    address = stat_text("[data-rf-test-id='abp-homeinfo-homeaddress']")
>> *)
Definition primary_stats (pg : page) (tr : trace)
    : result (option str * option str * option str * option str * option str
              * option str) :=
  price <- stat_text pg tr "[data-rf-test-id='abp-price'] .statsValue.price" ;;
  monthly <- stat_text pg tr
               "[data-rf-test-id='abp-monthly-payment-entry-point-estimate']" ;;
  beds <- stat_text pg tr "[data-rf-test-id='abp-beds']" ;;
  baths <- stat_text pg tr "[data-rf-test-id='abp-baths']" ;;
  sqft <- stat_text pg tr "[data-rf-test-id='abp-sqFt']" ;;
  address <- stat_text pg tr "[data-rf-test-id='abp-homeinfo-homeaddress']" ;;
  Ok (price, monthly, beds, baths, sqft, address).

(** The engagement counters: one search, and one more after a pause on
    freshly read body text when the first finds nothing.
<<
    stats_match = stats_pattern.search(body_text)
    if not stats_match:
        try:
            page.wait_for_timeout(800)
            body_text = page.inner_text("body")
            stats_match = stats_pattern.search(body_text)
        except Exception:
            pass
>> *)
Definition search_stats {U : Unicode} (pg : page) (tr : trace) (body_text : str)
    : option groups * trace :=
  match search stats_pattern body_text with
  | Some stats_match => (Some stats_match, tr)
  | None =>
      let tr := WaitForTimeout 800 :: tr in
      match body_inner_text (pg tr) with
      | Some body_text => (search stats_pattern body_text, tr)
      | None => (None, tr)
      end
  end.

(** The actions a detail page has seen when its fields are read. *)
Definition detail_trace (pg : page) (url : str) : trace :=
  expand_remarks pg [WaitForSelector PRICE; Goto url].

(** [_scrape_property_detail]: the record, the exception, or no return at
    all, and the actions the page has seen by then.  The six figures are
    read after the status badge and before the house-info container; a read
    that does not return ends the run there. *)
Definition _scrape_property_detail {U : Unicode} (pg : page) (url : str)
    : result PropertyDetails.t * trace :=
  let tr := [Goto url] in
  match response (pg tr) with
  | None => (Error (DetailPageLoadFailed None url), tr)
  | Some status =>
      if (400 <=? status)%N
      then (Error (DetailPageLoadFailed (Some status) url), tr)
      else
        let tr := WaitForSelector PRICE :: tr in
        let body_text :=
          match body_inner_text (pg tr) with
          | Some text => text
          | None => []
          end in
        let tr := expand_remarks pg tr in
        let status_badge := _extract_status_badge pg tr in
        match primary_stats pg tr with
        | Hangs => (Hangs, tr)
        | Error e => (Error e, tr)
        | Ok (price, monthly, beds, baths, sqft, address) =>
        match house_info (pg tr) with
        | None => (Error PlaywrightError, tr)
        | Some house_info =>
            let description := description_of house_info in
            let key_details := key_details_of house_info in
            let '(agent_name, agent_broker, agent_profile_url) :=
              agent_of house_info in
            let '(stats_match, tr) := search_stats pg tr body_text in
            let '(on_redfin, views, favorites) :=
              match stats_match with
              | Some stats_match =>
                  (_clean_card_stat (group stats_match "on_redfin"),
                   _clean_card_stat (group stats_match "views"),
                   _clean_card_stat (group stats_match "favorites"))
              | None => (None, None, None)
              end in
            let '(listing_updated, redfin_checked, mls_source, mls_id) :=
              listing_of house_info in
            (Ok {| PropertyDetails.status_badge := status_badge;
                   PropertyDetails.price := price;
                   PropertyDetails.monthly_payment := monthly;
                   PropertyDetails.beds := beds;
                   PropertyDetails.baths := baths;
                   PropertyDetails.sqft := sqft;
                   PropertyDetails.address := address;
                   PropertyDetails.description := description;
                   PropertyDetails.key_details := key_details;
                   PropertyDetails.agent_name := agent_name;
                   PropertyDetails.agent_broker := agent_broker;
                   PropertyDetails.agent_profile_url := agent_profile_url;
                   PropertyDetails.on_redfin := on_redfin;
                   PropertyDetails.views := views;
                   PropertyDetails.favorites := favorites;
                   PropertyDetails.listing_updated := listing_updated;
                   PropertyDetails.redfin_checked := redfin_checked;
                   PropertyDetails.mls_source := mls_source;
                   PropertyDetails.mls_id := mls_id |},
             tr)
        end
        end
  end.

(* ------------------------------------------------------------------ *)
(** * The public entry point *)
(* ------------------------------------------------------------------ *)

(** A browser context: the pages [context.new_page()] returns, in the order
    in which they are opened. *)
Definition browser_context := nat -> page.

(** The loop of [scrape]; page [idx] is the one opened for the card
    numbered [idx]. *)
Fixpoint scrape_loop {U : Unicode} (context : browser_context)
    (home_cards : list HomeCard.t) (idx : nat)
    (results : list (HomeCard.t * PropertyDetails.t))
    : result (list (HomeCard.t * PropertyDetails.t)) :=
  match home_cards with
  | [] => Ok results
  | card :: rest =>
      match
        fst (_scrape_property_detail (context idx) (HomeCard.detail_url card))
      with
      | Error e => Error e
      | Hangs => Hangs
      | Ok detail => scrape_loop context rest (S idx) (results ++ [(card, detail)])
      end
  end.

(** [scrape] *)
Definition scrape {U : Unicode} (context : browser_context) (limit : Z)
    : result (list (HomeCard.t * PropertyDetails.t)) :=
  match fst (_collect_home_cards (context 0%nat) limit) with
  | Error e => Error e
  | Hangs => Hangs
  | Ok home_cards => scrape_loop context home_cards 1 []
  end.

(* ------------------------------------------------------------------ *)
(** * The script *)
(* ------------------------------------------------------------------ *)

(** An entry of the output: [{"id": idx, **entry}]. *)
Definition numbered_entry : Type := nat * (HomeCard.t * PropertyDetails.t).

(** The loop of [main]:
<<
    numbered = []
    for idx, entry in enumerate(data, start=1):
        numbered.append({"id": idx, **entry})
>> *)
Fixpoint number_loop (data : list (HomeCard.t * PropertyDetails.t))
    (idx : nat) (numbered : list numbered_entry) : list numbered_entry :=
  match data with
  | [] => numbered
  | entry :: rest => number_loop rest (S idx) (numbered ++ [(idx, entry)])
  end.

(** [main]: the list it writes to [redfin_results.json] and prints, or the
    exception [scrape] raised, in which case nothing is written, as nothing
    is when [scrape] does not return.  The browser context, which [scrape]
    opens, is a parameter here. *)
Definition main {U : Unicode} (context : browser_context)
    : result (list numbered_entry) :=
  match scrape context 10 with
  | Error e => Error e
  | Hangs => Hangs
  | Ok data => Ok (number_loop data 1 [])
  end.

(* ------------------------------------------------------------------ *)
(** * Vocabulary of the properties *)
(* ------------------------------------------------------------------ *)

(** The words [split] returns are non-empty and free of white space. *)
Definition is_word (w : str) : Prop :=
  w <> [] /\ forallb (fun c => negb (isspace c)) w = true.

(** The cards of a list parsed in document order, up to the first one that
    gives no record. *)
Fixpoint parse_all (cards : list element) : result (list HomeCard.t) :=
  match cards with
  | [] => Ok []
  | card_locator :: rest =>
      match _parse_home_card card_locator with
      | Error e => Error e
      | Hangs => Hangs
      | Ok card =>
          match parse_all rest with
          | Error e => Error e
          | Hangs => Hangs
          | Ok cards' => Ok (card :: cards')
          end
      end
  end.

(** The detail link of a card: the [href] of its first address anchor. *)
Definition detail_path_of (card_locator : element) : option str :=
  match locator card_locator "a.bp-Homecard__Address" with
  | [] => None
  | first :: _ => get_attribute first "href"
  end.

(** The link is absent or empty. *)
Definition no_detail_link (card_locator : element) : Prop :=
  detail_path_of card_locator = None \/ detail_path_of card_locator = Some [].

Definition is_scroll (a : action) : bool :=
  match a with
  | MouseWheel _ _ => true
  | _ => false
  end.

(** The scroll actions a page has seen. *)
Definition count_scrolls (tr : trace) : nat :=
  List.length (filter is_scroll tr).

(** What the listing page has seen before the scroll loop. *)
Definition listing_trace : trace := [WaitForSelector HOME_CARD; Goto list_url].

(** The test a normalised candidate of the first tier must pass. *)
Definition passes_candidate {U : Unicode} (cleaned : str) : bool :=
  (List.length cleaned <=? 80)%nat && has_keyword (lower cleaned).

(** The test a normalised line of the body text must pass. *)
Definition passes_line {U : Unicode} (cleaned : str) : bool :=
  has_keyword (lower cleaned).

(** The normalised texts of the elements whose class attribute contains
    "status", in document order; none when the page cannot be queried. *)
Definition status_texts (pg : page) (tr : trace) : list str :=
  match document_elements (pg tr) with
  | Some document =>
      map (fun el => clean_text (js_trim (text_content el)))
        (filter class_has_status document)
  | None => []
  end.

(** The normalised lines of the visible body text; none when it cannot be
    read. *)
Definition body_lines (pg : page) (tr : trace) : list str :=
  match body_inner_text (pg tr) with
  | Some body_text => map clean_text (splitlines body_text)
  | None => []
  end.

Definition KEY_DETAILS_ROWS : string := ".KeyDetailsTable .keyDetails-row".

(** What a row of the details table contributes to [key_details]: its label
    and value texts, when it has both nodes and the label is not "on redfin"
    in any case. *)
Definition row_entry {U : Unicode} (row : Tag) : option (str * str) :=
  match select_one row ".valueType", select_one row ".valueText" with
  | Some label, Some value =>
      if str_eqb (lower (get_text label [])) (py "on redfin") then None
      else Some (get_text label [], get_text value [SPACE])
  | _, _ => None
  end.

Fixpoint row_entries {U : Unicode} (rows : list Tag) : list (str * str) :=
  match rows with
  | [] => []
  | row :: rest =>
      match row_entry row with
      | Some entry => entry :: row_entries rest
      | None => row_entries rest
      end
  end.

(** [mem k l]: [k in l] *)
Definition mem (k : str) (l : list str) : bool := existsb (str_eqb k) l.

(** The strings of [l] in order, each at its first occurrence only, and
    none that [seen] already has. *)
Fixpoint first_occurrences_from (seen l : list str) : list str :=
  match l with
  | [] => []
  | k :: l' =>
      if mem k seen then first_occurrences_from seen l'
      else k :: first_occurrences_from (seen ++ [k]) l'
  end.

Definition first_occurrences (l : list str) : list str :=
  first_occurrences_from [] l.

(** The value of the last entry of [entries] whose key is [k]. *)
Fixpoint last_value (entries : list (str * str)) (k : str) : option str :=
  match entries with
  | [] => None
  | (k', v) :: entries' =>
      match last_value entries' k with
      | Some v' => Some v'
      | None => if str_eqb k' k then Some v else None
      end
  end.

Definition DESCRIPTION : string := "#marketing-remarks-scroll".
Definition AGENT : string :=
  "[data-rf-test-id='agentInfoItem-redfinAgentDisplay']".
Definition AGENT_NAME : string := ".agent-basic-details--heading a".
Definition AGENT_BROKER : string := ".agent-basic-details--broker span".
Definition LISTING_INFO : string := ".listingInfoSection".

(** The body text [_scrape_property_detail] reads first; empty when the
    read raises. *)
Definition first_body (pg : page) (url : str) : str :=
  match body_inner_text (pg [WaitForSelector PRICE; Goto url]) with
  | Some text => text
  | None => []
  end.

Definition is_retry_pause (a : action) : bool :=
  match a with
  | WaitForTimeout 800 => true
  | _ => false
  end.

(** The pauses of the engagement retry a page has seen. *)
Definition count_retries (tr : trace) : nat :=
  List.length (filter is_retry_pause tr).

(** The engagement line of the contract's example. *)
Definition engagement_example : str :=
  py "1,234 people on Redfin " ++ [BULLET] ++ py " 567 views "
  ++ [BULLET] ++ py " 89 favorites".

(** The three engagement fields of [d] are the normalised groups of the
    match [m], and none of them is absent. *)
Definition populated_from (d : PropertyDetails.t) (m : groups) : Prop :=
  PropertyDetails.on_redfin d = _clean_card_stat (group m "on_redfin")
  /\ PropertyDetails.views d = _clean_card_stat (group m "views")
  /\ PropertyDetails.favorites d = _clean_card_stat (group m "favorites")
  /\ PropertyDetails.on_redfin d <> None
  /\ PropertyDetails.views d <> None
  /\ PropertyDetails.favorites d <> None.

(** The three engagement fields of [d] are absent. *)
Definition all_absent (d : PropertyDetails.t) : Prop :=
  PropertyDetails.on_redfin d = None
  /\ PropertyDetails.views d = None
  /\ PropertyDetails.favorites d = None.

(** The body text the retry reads, if the read succeeds. *)
Definition retry_body (pg : page) (url : str) : option str :=
  body_inner_text (pg (WaitForTimeout 800 :: detail_trace pg url)).

(** A character that is not white space. *)
Definition nonspace (c : N) : bool := negb (isspace c).

(** Every white character of [s] is one ASCII space with a character that
    is not white right behind it. *)
Fixpoint spaced (s : str) : bool :=
  match s with
  | [] => true
  | c :: s' =>
      if isspace c then
        (c =? SPACE)%N
        && match s' with
           | [] => false
           | c' :: _ => nonspace c'
           end
        && spaced s'
      else spaced s'
  end.

(** A normal form of the normaliser: words separated by single spaces,
    nothing white at either end. *)
Definition is_normal (s : str) : bool :=
  match s with
  | [] => true
  | c :: s' => nonspace c && spaced s'
  end.

(** The normalised inner text of the first element [selector] finds in a
    card, if there is one. *)
Definition card_stat (card_locator : element) (selector : string) : option str :=
  match locator card_locator selector with
  | [] => None
  | first :: _ => Some (clean_text (inner_text first))
  end.

(** What the listing page has seen after [k] rounds of the scroll loop:
    each round is a wheel event followed by a pause of a second. *)
Fixpoint scrolled (k : nat) : trace :=
  match k with
  | O => listing_trace
  | S k' => WaitForTimeout 1000 :: MouseWheel 0 1600 :: scrolled k'
  end.

Definition is_click (a : action) : bool :=
  match a with
  | Click _ => true
  | _ => false
  end.

Definition is_goto (a : action) : bool :=
  match a with
  | Goto _ => true
  | _ => false
  end.

(** One field of the listing-info block: its label followed by the
    normalised text, when the node is there. *)
Definition labelled (label : string) (text : option str) : option str :=
  match text with
  | Some t => Some (py label ++ clean_text t)
  | None => None
  end.

(** The text of the node [selector] finds below [t], if any. *)
Definition node_text (t : Tag) (selector : string) : option str :=
  match select_one t selector with
  | Some node => Some (get_text node [])
  | None => None
  end.

(** [a] occurs in [t] as a run of consecutive characters. *)
Definition infix (a t : str) : Prop :=
  exists pre post, t = pre ++ a ++ post.

(** While the text [t] is matched, [s] is what is left of it and every
    open group holds the characters consumed since it was opened. *)
Definition opened_at (t s : str) (opened : groups) : Prop :=
  (exists pre, t = pre ++ s)
  /\ forall name text,
       In (name, text) opened -> exists pre, t = pre ++ rev text ++ s.

(** The detail pages of the cards scraped in order, page [idx] for the
    first card, up to the first page that gives no record. *)
Fixpoint detail_all {U : Unicode} (context : browser_context)
    (home_cards : list HomeCard.t) (idx : nat)
    : result (list (HomeCard.t * PropertyDetails.t)) :=
  match home_cards with
  | [] => Ok []
  | card :: rest =>
      match
        fst (_scrape_property_detail (context idx) (HomeCard.detail_url card))
      with
      | Error e => Error e
      | Hangs => Hangs
      | Ok detail =>
          match detail_all context rest (S idx) with
          | Error e => Error e
          | Hangs => Hangs
          | Ok results => Ok ((card, detail) :: results)
          end
      end
  end.

(** The selectors of the six primary figures, in the order in which they
    are read. *)
Definition STAT_SELECTORS : list string :=
  ["[data-rf-test-id='abp-price'] .statsValue.price";
   "[data-rf-test-id='abp-monthly-payment-entry-point-estimate']";
   "[data-rf-test-id='abp-beds']";
   "[data-rf-test-id='abp-baths']";
   "[data-rf-test-id='abp-sqFt']";
   "[data-rf-test-id='abp-homeinfo-homeaddress']"].

(** The page shows an element for each primary figure. *)
Definition figures_shown (pg : page) (tr : trace) : bool :=
  forallb
    (fun selector =>
       match page_locator (pg tr) selector with
       | [] => false
       | _ :: _ => true
       end)
    STAT_SELECTORS.

(** The normalised inner text of the first element [selector] finds on the
    page, if there is one. *)
Definition figure (pg : page) (tr : trace) (selector : string) : option str :=
  match page_locator (pg tr) selector with
  | [] => None
  | first :: _ => Some (clean_text (inner_text first))
  end.

(** The node [inner] finds inside the block [outer] finds, when both are
    there. *)
Definition nested_node (h : Tag) (outer inner : string) : option Tag :=
  match select_one h outer with
  | Some block => select_one block inner
  | None => None
  end.

(** The text of a node, if the node is there, its text nodes joined by
    [separator]. *)
Definition text_of (node : option Tag) (separator : str) : option str :=
  match node with
  | Some node => Some (get_text node separator)
  | None => None
  end.

(** The first element of [l] that satisfies [P]. *)
Definition first_where {A : Type} (P : A -> Prop) (l : list A) (x : A) : Prop :=
  exists before after,
    l = before ++ x :: after /\ P x /\ forall y, In y before -> ~ P y.

(** The keywords of a status text. *)
Definition STATUS_KEYWORDS : list str :=
  [py "for sale"; py "pending"; py "sold"; py "contingent"; py "active";
   py "off market"; py "new listing"].

(** The lower-cased text contains one of the keywords. *)
Definition names_status {U : Unicode} (text : str) : Prop :=
  exists keyword, In keyword STATUS_KEYWORDS /\ infix keyword (lower text).

(** The class attribute contains "status", in any ASCII case. *)
Definition status_classed (el : dom_element) : Prop :=
  exists cls run,
    class_attr el = Some cls /\ infix run cls
    /\ map ascii_lower run = py "status".

(** The text of a candidate: its text content, trimmed by the script and
    normalised. *)
Definition candidate_text (el : dom_element) : str :=
  clean_text (js_trim (text_content el)).

(** An element the first tier accepts. *)
Definition status_candidate {U : Unicode} (el : dom_element) : Prop :=
  status_classed el
  /\ (List.length (candidate_text el) <= 80)%nat
  /\ names_status (candidate_text el).

(** A line the second tier accepts. *)
Definition status_line {U : Unicode} (line : str) : Prop :=
  names_status (clean_text line).

(** The elements of the document; none when the page cannot be queried. *)
Definition document_of (pg : page) (tr : trace) : list dom_element :=
  match document_elements (pg tr) with
  | Some document => document
  | None => []
  end.

(** The visible body text; empty when it cannot be read. *)
Definition body_of (pg : page) (tr : trace) : str :=
  match body_inner_text (pg tr) with
  | Some body_text => body_text
  | None => []
  end.

(** The characters at which a text is broken into lines. *)
Definition LINE_BOUNDARIES : list N :=
  [10; 11; 12; 13; 28; 29; 30; 133; 8232; 8233]%N.

(** A line holds no boundary character. *)
Definition unbroken (line : str) : Prop :=
  forall c, In c line -> ~ In c LINE_BOUNDARIES.

(** [boundary] ends a line in front of [rest]: a carriage return together
    with the line feed behind it, or one boundary character that is not a
    carriage return in front of a line feed. *)
Definition ends_line (boundary rest : str) : Prop :=
  boundary = [13; 10]%N
  \/ exists c,
       boundary = [c] /\ In c LINE_BOUNDARIES
       /\ (c = 13%N -> hd_error rest <> Some 10%N).

(** The lines of a text: the pieces between its line boundaries, in order;
    an empty text has no line, and a boundary at the end of the text opens
    no further line. *)
Inductive lines_of : str -> list str -> Prop :=
| lines_of_empty : lines_of [] []
| lines_of_last (line : str) :
    line <> [] -> unbroken line -> lines_of line [line]
| lines_of_more (line boundary rest : str) (lines : list str) :
    unbroken line -> ends_line boundary rest -> lines_of rest lines ->
    lines_of (line ++ boundary ++ rest) (line :: lines).

(** A letter of Basic Latin. *)
Definition is_alpha (c : N) : bool :=
  ((65 <=? c) && (c <=? 90) || (97 <=? c) && (c <=? 122))%N.

(** What may follow the first letter of a URL scheme (RFC 3986, 3.1). *)
Definition is_scheme_char (c : N) : bool :=
  (is_alpha c || (48 <=? c) && (c <=? 57)
   || (c =? 43) || (c =? 45) || (c =? 46))%N.

(** [s] goes on with scheme characters up to a colon. *)
Fixpoint scheme_ends (s : str) : bool :=
  match s with
  | [] => false
  | c :: s' => (c =? 58)%N || is_scheme_char c && scheme_ends s'
  end.

(** An absolute URL begins with a scheme and a colon. *)
Definition absolute_url (u : str) : bool :=
  match u with
  | [] => false
  | c :: s => is_alpha c && scheme_ends s
  end.

(** A URL of the site: the origin and, behind it, a path that begins with
    a slash.  What a reference resolved against the origin gives is of that
    kind. *)
Definition on_site (u : str) : bool := startswith (base_url ++ py "/") u.

(* ------------------------------------------------------------------ *)
(** * Sample pages *)
(* ------------------------------------------------------------------ *)

(** A card that carries nothing but an address anchor with the link [href]
    and the text [text]. *)
Definition address_only_card (text href : str) : element :=
  let anchor :=
    mk_element text
      (fun a => if String.eqb a "href" then Some href else None)
      (fun _ => []) true true in
  mk_element text (fun _ => None)
    (fun selector =>
       if String.eqb selector "a.bp-Homecard__Address" then [anchor] else [])
    true true.

(** A card with no address anchor at all. *)
Definition bare_card : element :=
  mk_element [] (fun _ => None) (fun _ => []) true true.

(** What a page shows when nothing has rendered. *)
Definition blank : snapshot := {|
  response := Some 200%N;
  page_locator := fun _ => [];
  body_inner_text := Some [];
  document_elements := Some [];
  house_info := None
|}.

(** A listing page that shows the home cards [cards] from the start. *)
Definition listing_page (cards : list element) : page :=
  fun _ =>
    {| response := Some 200%N;
       page_locator :=
         fun selector => if String.eqb selector HOME_CARD then cards else [];
       body_inner_text := Some [];
       document_elements := Some [];
       house_info := None |}.

(** A listing page that never renders a card. *)
Definition empty_listing : page := fun _ => blank.

(** The card numbered [i]: an address anchor and nothing else. *)
Definition numbered_card (i : nat) : element :=
  address_only_card (py "Lot " ++ str_of_N (N.of_nat i))
    (py "/home/" ++ str_of_N (N.of_nat i)).

(** The record [_parse_home_card] builds from [numbered_card i]. *)
Definition numbered_record (i : nat) : HomeCard.t :=
  {| HomeCard.title := Some (py "Lot " ++ str_of_N (N.of_nat i));
     HomeCard.price := None;
     HomeCard.beds := None;
     HomeCard.baths := None;
     HomeCard.sqft := None;
     HomeCard.address := Some (py "Lot " ++ str_of_N (N.of_nat i));
     HomeCard.detail_url :=
       py "https://www.redfin.com/home/" ++ str_of_N (N.of_nat i);
     HomeCard.image_url := None |}.

(** A browser whose every page is [pg]. *)
Definition single_page (pg : page) : browser_context := fun _ => pg.

(** A tag with one text node. *)
Definition text_tag (text : str) : Tag :=
  mk_tag [text] (fun _ => None) (fun _ => []).

(** An anchor with one text node and the given [href]. *)
Definition link_tag (text href : str) : Tag :=
  mk_tag [text]
    (fun a => if String.eqb a "href" then Some href else None)
    (fun _ => []).

(** A house-info fragment that holds an agent block with a name anchor and
    nothing else. *)
Definition agent_fragment (name href : str) : Tag :=
  mk_tag [name] (fun _ => None)
    (fun selector =>
       if String.eqb selector AGENT then
         [mk_tag [name] (fun _ => None)
            (fun selector' =>
               if String.eqb selector' AGENT_NAME then [link_tag name href]
               else [])]
       else []).

(** A row of the details table with the given label and value. *)
Definition details_row (label value : str) : Tag :=
  mk_tag [label; value] (fun _ => None)
    (fun selector =>
       if String.eqb selector ".valueType" then [text_tag label]
       else if String.eqb selector ".valueText" then [text_tag value]
       else []).

(** A house-info fragment that holds the given rows of the details table
    and nothing else. *)
Definition table_fragment (rows : list Tag) : Tag :=
  mk_tag [] (fun _ => None)
    (fun selector => if String.eqb selector KEY_DETAILS_ROWS then rows else []).

(** A leaf element with the given inner text. *)
Definition text_element (text : str) : element :=
  mk_element text (fun _ => None) (fun _ => []) true true.

(** One element for each primary figure, and nothing else. *)
Definition shown_figures (selector : string) : list element :=
  if existsb (String.eqb selector) STAT_SELECTORS
  then [text_element (py "1")] else [].

(** A detail page that answers with status 200, shows an element for each
    primary figure, [body] as its text and [fragment] as its house-info
    container, and never changes. *)
Definition detail_page (body : str) (fragment : Tag) : page :=
  fun _ =>
    {| response := Some 200%N;
       page_locator := shown_figures;
       body_inner_text := Some body;
       document_elements := Some [];
       house_info := Some fragment |}.

Definition sample_url : str := py "https://www.redfin.com/home/1".

(** A details table in which "Year Built" comes twice, an "on redfin" row
    stands in between, and the last row has neither label nor value. *)
Definition sample_table : Tag :=
  table_fragment
    [details_row (py "Year Built") (py "1990");
     details_row (py "ON Redfin") (py "3 days");
     details_row (py "Lot Size") (py "0.25 acres");
     details_row (py "Year Built") (py "1991");
     empty_tag].

(** A body text that holds two engagement lines, the example's last. *)
Definition two_engagement_lines : str :=
  py "7 people on Redfin " ++ [BULLET] ++ py " 1 views " ++ [BULLET]
  ++ py " 2 favorites" ++ [10%N] ++ engagement_example.

(** A detail page whose body text holds the example line between other
    words. *)
Definition engagement_page : page :=
  detail_page (py "Home " ++ engagement_example ++ py " more") empty_tag.

(** A page whose document has one element of class [statusLabel] with the
    text [label], among others, and whose body text is [body]. *)
Definition status_page (label body : str) : page :=
  fun _ =>
    {| response := Some 200%N;
       page_locator := fun _ => [];
       body_inner_text := Some body;
       document_elements :=
         Some [ {| class_attr := None; text_content := body |};
                {| class_attr := Some (py "price"); text_content := py "$1" |};
                {| class_attr := Some (py "home statusLabel");
                   text_content := label |} ];
       house_info := None |}.

(** A page with the given elements in its document and the given body
    text. *)
Definition badge_page (document : list dom_element) (body : str) : page :=
  fun _ =>
    {| response := Some 200%N;
       page_locator := shown_figures;
       body_inner_text := Some body;
       document_elements := Some document;
       house_info := Some empty_tag |}.

(** A document with five elements: one without class, one of another
    class, one of class "status" with a text of 87 characters that names a
    status, one whose class holds "Status" and whose text reads "PENDING
    sale" once normalised, and a later one that names a status too. *)
Definition sample_badges : list dom_element :=
  [ {| class_attr := None; text_content := py "Sold" |};
    {| class_attr := Some (py "price"); text_content := py "For sale" |};
    {| class_attr := Some (py "status");
       text_content := py "Active " ++ repeat 120%N 80 |};
    {| class_attr := Some (py "home StatusLabel");
       text_content := [SPACE; 10%N] ++ py "PENDING " ++ [9%N] ++ py " sale " |};
    {| class_attr := Some (py "status"); text_content := py "Sold" |} ].

(** A body text of three lines, the first ended by a carriage return and a
    line feed; the second and the third name a status. *)
Definition sample_body : str :=
  py "12 Elm St" ++ [13; 10]%N ++ py "This home is Off Market" ++ [10%N]
  ++ py "Sold nearby".

(** A house-info fragment with a description block, a details table of
    one full row and one row without nodes, and an agent block that has the
    name link but no broker; it has no listing-info block. *)
Definition partial_fragment : Tag :=
  mk_tag [] (fun _ => None)
    (fun selector =>
       if String.eqb selector DESCRIPTION then
         [text_tag ([SPACE] ++ py "Bright corner lot." ++ [10%N])]
       else if String.eqb selector KEY_DETAILS_ROWS then
         [details_row (py "Year Built") (py "1990"); empty_tag]
       else if String.eqb selector AGENT then
         [mk_tag [] (fun _ => None)
            (fun selector' =>
               if String.eqb selector' AGENT_NAME
               then [link_tag (py "Jane Doe") (py "/agent/jane")] else [])]
       else []).

(** A house-info fragment that holds a listing-info block with an MLS id
    node and nothing else. *)
Definition mls_fragment (mls : str) : Tag :=
  mk_tag [mls] (fun _ => None)
    (fun selector =>
       if String.eqb selector LISTING_INFO then
         [mk_tag [mls] (fun _ => None)
            (fun selector' =>
               if String.eqb selector' ".ListingSource--mlsId"
               then [text_tag mls] else [])]
       else []).

(** A card with a title attribute, an address anchor and a price. *)
Definition titled_card (title_attr text href price : str) : element :=
  mk_element text
    (fun a => if String.eqb a "title" then Some title_attr else None)
    (fun selector =>
       if String.eqb selector "a.bp-Homecard__Address" then
         [mk_element text
            (fun a => if String.eqb a "href" then Some href else None)
            (fun _ => []) true true]
       else if String.eqb selector ".bp-Homecard__Price--value" then
         [text_element price]
       else [])
    true true.

(** A listing page that renders one more numbered card with every scroll,
    none at the start. *)
Definition lazy_listing : page :=
  fun tr =>
    {| response := Some 200%N;
       page_locator :=
         fun selector =>
           if String.eqb selector HOME_CARD
           then map numbered_card (seq 0 (count_scrolls tr))
           else [];
       body_inner_text := Some [];
       document_elements := Some [];
       house_info := None |}.

(** A detail page that answers with the given status, or not at all, and
    shows nothing. *)
Definition failing_page (status : option N) : page :=
  fun _ =>
    {| response := status;
       page_locator := fun _ => [];
       body_inner_text := Some [];
       document_elements := Some [];
       house_info := Some empty_tag |}.

(** A detail page with the given price, an element for each other primary
    figure, and the given elements of the document. *)
Definition priced_page (price : str) (document : list dom_element) : page :=
  fun _ =>
    {| response := Some 200%N;
       page_locator :=
         fun selector =>
           if String.eqb selector
                "[data-rf-test-id='abp-price'] .statsValue.price"
           then [text_element price] else shown_figures selector;
       body_inner_text := Some [];
       document_elements := Some document;
       house_info := Some empty_tag |}.

(** A detail page like [detail_page [] empty_tag], but for the figure
    [missing], which has no element. *)
Definition page_without_figure (missing : string) : page :=
  fun _ =>
    {| response := Some 200%N;
       page_locator :=
         fun selector =>
           if String.eqb selector missing then [] else shown_figures selector;
       body_inner_text := Some [];
       document_elements := Some [];
       house_info := Some empty_tag |}.

(** The engagement line with middle dots (U+00B7) for bullets. *)
Definition middle_dot_line : str :=
  py "1,234 people on Redfin " ++ [183%N] ++ py " 567 views " ++ [183%N]
  ++ py " 89 favorites".

(** A browser whose first page lists two numbered cards and whose detail
    pages are the given ones, the second for every page after the first. *)
Definition two_card_browser (first second : page) : browser_context :=
  fun n =>
    match n with
    | O => listing_page [numbered_card 0; numbered_card 1]
    | S O => first
    | _ => second
    end.

(** A house-info fragment that holds a description block with the given
    text nodes and nothing else. *)
Definition description_fragment (texts : list str) : Tag :=
  mk_tag texts (fun _ => None)
    (fun selector =>
       if String.eqb selector DESCRIPTION
       then [mk_tag texts (fun _ => None) (fun _ => [])] else []).

(* ================================================================== *)
(** * Properties *)
(* ================================================================== *)

(* ------------------------------------------------------------------ *)
(** ** Strings and the normaliser *)
(* ------------------------------------------------------------------ *)

Lemma join_cons (sep p : str) (rest : list str) :
  join sep (p :: rest) =
  p ++ match rest with [] => [] | _ :: _ => sep ++ join sep rest end.
Proof.
  destruct rest; simpl; [now rewrite app_nil_r | reflexivity].
Qed.

Lemma lstrip_head (s : str) :
  lstrip s = [] \/ exists c t, lstrip s = c :: t /\ isspace c = false.
Proof.
  induction s as [|c s IH]; simpl; [now left|].
  destruct (isspace c) eqn:E; [exact IH|].
  right. now exists c, s.
Qed.

Lemma lstrip_idem (s : str) : lstrip (lstrip s) = lstrip s.
Proof.
  destruct (lstrip_head s) as [->|(c & t & -> & E)]; simpl; [reflexivity|].
  now rewrite E.
Qed.

Lemma collapse_runs_space (c : N) (s : str) :
  isspace c = true ->
  collapse_runs (c :: s) = SPACE :: collapse_runs (lstrip s).
Proof.
  revert c. induction s as [|c' s IH]; intros c Hc.
  - simpl. now rewrite Hc.
  - change (collapse_runs (c :: c' :: s))
      with (if isspace c
            then if isspace c' then collapse_runs (c' :: s)
                 else SPACE :: collapse_runs (c' :: s)
            else c :: collapse_runs (c' :: s)).
    rewrite Hc. simpl lstrip.
    destruct (isspace c') eqn:E; [now apply IH | reflexivity].
Qed.

Lemma collapse_runs_char (c : N) (s : str) :
  isspace c = false -> collapse_runs (c :: s) = c :: collapse_runs s.
Proof. intros E. simpl. now rewrite E. Qed.

Lemma lstrip_collapse_runs (s : str) :
  lstrip (collapse_runs s) = collapse_runs (lstrip s).
Proof.
  assert (fixed : forall t, lstrip (collapse_runs (lstrip t)) = collapse_runs (lstrip t)).
  { intros t. destruct (lstrip_head t) as [->|(c & u & -> & E)]; [reflexivity|].
    rewrite (collapse_runs_char _ _ E). simpl. now rewrite E. }
  destruct s as [|c s]; [reflexivity|].
  destruct (isspace c) eqn:E.
  - rewrite (collapse_runs_space _ _ E). simpl. rewrite E.
    change (isspace SPACE) with true. cbv iota. apply fixed.
  - rewrite (collapse_runs_char _ _ E). simpl. rewrite E.
    now rewrite (collapse_runs_char _ _ E).
Qed.

Lemma rstrip_char (c : N) (s : str) :
  isspace c = false -> rstrip (c :: s) = c :: rstrip s.
Proof. intros E. simpl. rewrite E. now destruct (rstrip s). Qed.

Lemma split_from_words (s cur : str) :
  forallb (fun c => negb (isspace c)) cur = true ->
  Forall is_word (split_from cur s).
Proof.
  assert (word_rev : forall cur, cur <> [] ->
            forallb (fun c => negb (isspace c)) cur = true -> is_word (rev cur)).
  { intros k Hk Hf. split.
    - intros E. apply Hk. rewrite <- (rev_involutive k), E. reflexivity.
    - rewrite forallb_forall in *. intros x Hx. apply Hf. now apply in_rev. }
  revert cur. induction s as [|c s IH]; intros cur Hcur; simpl.
  - destruct cur; constructor; [|constructor]. now apply word_rev.
  - destruct (isspace c) eqn:E.
    + destruct cur.
      * now apply IH.
      * constructor; [now apply word_rev | now apply IH].
    + apply IH. simpl. now rewrite E.
Qed.

Lemma join_words_nonempty (ws : list str) :
  Forall is_word ws -> ws <> [] -> join [SPACE] ws <> [].
Proof.
  intros H Hne. destruct ws as [|w ws]; [contradiction|].
  rewrite join_cons. inversion H as [|? ? [Hw _] _]; subst.
  destruct w; [contradiction | discriminate].
Qed.

(** What [split] and [join] compute, in terms of the contract's pieces. *)
Lemma join_split_from (s : str) :
  (forall cur, cur <> [] ->
     forallb (fun c => negb (isspace c)) cur = true ->
     join [SPACE] (split_from cur s) = rev cur ++ rstrip (collapse_runs s))
  /\ join [SPACE] (split_from [] s) = rstrip (collapse_runs (lstrip s)).
Proof.
  induction s as [|c s [IH1 IH2]].
  - split; [|reflexivity]. intros cur Hcur _. simpl.
    destruct cur; [contradiction|]. now rewrite app_nil_r.
  - assert (H1 : forall cur, cur <> [] ->
              forallb (fun c => negb (isspace c)) cur = true ->
              join [SPACE] (split_from cur (c :: s))
              = rev cur ++ rstrip (collapse_runs (c :: s))).
    { intros cur Hcur Hf. simpl split_from. destruct (isspace c) eqn:E.
      - destruct cur as [|k cur]; [contradiction|].
        rewrite join_cons, (collapse_runs_space _ _ E). f_equal.
        pose proof (split_from_words s [] eq_refl) as Hw.
        simpl rstrip. rewrite <- IH2.
        destruct (split_from [] s) as [|w ws] eqn:Es; [reflexivity|].
        change (isspace SPACE) with true.
        destruct (join [SPACE] (w :: ws)) eqn:Ej; [|reflexivity].
        exfalso. revert Ej. apply join_words_nonempty; [exact Hw | discriminate].
      - rewrite IH1; [| discriminate | simpl; now rewrite E].
        rewrite (collapse_runs_char _ _ E), (rstrip_char _ _ E).
        simpl rev. now rewrite <- app_assoc. }
    split; [exact H1|].
    simpl split_from. simpl lstrip. destruct (isspace c) eqn:E; [exact IH2|].
    rewrite IH1; [| discriminate | simpl; now rewrite E].
    now rewrite (collapse_runs_char _ _ E), (rstrip_char _ _ E).
Qed.

Lemma clean_text_split (v : str) : clean_text v = join [SPACE] (split v).
Proof. now destruct v. Qed.

Lemma clean_text_spec (v : str) : clean_text v = normalize_spec v.
Proof.
  rewrite clean_text_split. unfold split, normalize_spec, strip.
  rewrite lstrip_collapse_runs. apply join_split_from.
Qed.

Lemma split_from_word (w rest cur : str) :
  forallb (fun c => negb (isspace c)) w = true ->
  split_from cur (w ++ rest) = split_from (rev w ++ cur) rest.
Proof.
  revert cur. induction w as [|c w IH]; intros cur Hw; [reflexivity|].
  simpl in Hw. apply andb_true_iff in Hw as [Hc Hw].
  simpl. destruct (isspace c); [discriminate|].
  rewrite IH by exact Hw. now rewrite <- app_assoc.
Qed.

Lemma split_from_space (cur s : str) :
  split_from cur (SPACE :: s) =
  match cur with
  | [] => split_from [] s
  | _ :: _ => rev cur :: split_from [] s
  end.
Proof. reflexivity. Qed.

Lemma split_join (ws : list str) :
  Forall is_word ws -> split (join [SPACE] ws) = ws.
Proof.
  unfold split. induction 1 as [|w ws [Hne Hw] Hws IH]; [reflexivity|].
  rewrite join_cons, (split_from_word _ _ _ Hw), app_nil_r.
  assert (Hr : rev w <> []).
  { intros E. apply Hne. rewrite <- (rev_involutive w), E. reflexivity. }
  destruct ws as [|w' ws].
  - simpl. destruct (rev w) eqn:Er; [contradiction|].
    rewrite <- Er, rev_involutive. reflexivity.
  - change ([SPACE] ++ join [SPACE] (w' :: ws))
      with (SPACE :: join [SPACE] (w' :: ws)).
    rewrite split_from_space, IH.
    destruct (rev w) eqn:Er; [contradiction|].
    rewrite <- Er, rev_involutive. reflexivity.
Qed.

Lemma clean_text_idempotent (v : str) : clean_text (clean_text v) = clean_text v.
Proof.
  rewrite !clean_text_split. f_equal. apply split_join.
  apply split_from_words. reflexivity.
Qed.

Lemma clean_card_stat_Some (v : str) :
  _clean_card_stat (Some v) = Some (clean_text v).
Proof. now destruct v. Qed.

(** C2 -- the text normaliser [_clean_card_stat] replaces every maximal run
    of white space (newlines and tabs included) by one ASCII space and trims
    both ends, so that "  a\n\tb  " becomes "a b"; an absent input is
    returned unchanged; and normalising twice equals normalising once. *)
Theorem C2_clean_card_stat_normalizes :
  (forall v, _clean_card_stat (Some v) = Some (normalize_spec v))
  /\ _clean_card_stat (Some ([SPACE; SPACE] ++ py "a" ++ [10; 9] ++ py "b" ++ [SPACE; SPACE])%N)
     = Some (py "a b")
  /\ _clean_card_stat None = None
  /\ (forall value,
        _clean_card_stat (_clean_card_stat value) = _clean_card_stat value).
Proof.
  split; [|split; [|split]].
  - intros v. now rewrite clean_card_stat_Some, clean_text_spec.
  - reflexivity.
  - reflexivity.
  - intros [v|]; [|reflexivity].
    now rewrite !clean_card_stat_Some, clean_text_idempotent.
Qed.

(* ------------------------------------------------------------------ *)
(** ** The card field extractor *)
(* ------------------------------------------------------------------ *)

Lemma parse_home_card_no_link (card_locator : element) :
  no_detail_link card_locator ->
  _parse_home_card card_locator = Error MissingDetailLink.
Proof.
  unfold no_detail_link, detail_path_of, _parse_home_card.
  intros [H|H]; rewrite H; reflexivity.
Qed.

Lemma parse_home_card_error (card_locator : element) (e : exn) :
  _parse_home_card card_locator = Error e ->
  e = MissingDetailLink /\ no_detail_link card_locator.
Proof.
  unfold no_detail_link, detail_path_of, _parse_home_card.
  destruct (locator card_locator "a.bp-Homecard__Address") as [|first rest].
  - intros H. inversion H. auto.
  - destruct (get_attribute first "href") as [[|c path]|]; intros H;
      inversion H; auto.
Qed.

(** C6 -- a card that has an address element and a detail link, no [title]
    attribute and none of the other elements yields a record whose title is
    the address text, whose address and detail URL are set, and whose price,
    beds, baths, square feet and image URL are absent. *)
Theorem C6_address_and_link_only
    (card_locator anchor : element) (others : list element) (href : str) :
  locator card_locator "a.bp-Homecard__Address" = anchor :: others ->
  get_attribute anchor "href" = Some href ->
  href <> [] ->
  get_attribute card_locator "title" = None ->
  locator card_locator ".bp-Homecard__Price--value" = [] ->
  locator card_locator ".bp-Homecard__Stats--beds" = [] ->
  locator card_locator ".bp-Homecard__Stats--baths" = [] ->
  locator card_locator ".bp-Homecard__Stats--sqft" = [] ->
  locator card_locator ".bp-Homecard__Photo img" = [] ->
  _parse_home_card card_locator =
  Ok {| HomeCard.title := Some (strip (inner_text anchor));
        HomeCard.price := None;
        HomeCard.beds := None;
        HomeCard.baths := None;
        HomeCard.sqft := None;
        HomeCard.address := Some (strip (inner_text anchor));
        HomeCard.detail_url :=
          if startswith (py "http") href then href else base_url ++ href;
        HomeCard.image_url := None |}.
Proof.
  intros Haddr Hhref Hne Htitle Hprice Hbeds Hbaths Hsqft Himg.
  unfold _parse_home_card.
  rewrite Haddr, Hhref, Htitle, Hprice, Hbeds, Hbaths, Hsqft, Himg.
  destruct href as [|c href]; [contradiction | reflexivity].
Qed.

Lemma C6_address_and_link_only_witness :
  _parse_home_card
    (address_only_card (py " 12 Elm St, Austin, TX ") (py "/TX/Austin/12-Elm-St/home/1"))
  = Ok {| HomeCard.title := Some (py "12 Elm St, Austin, TX");
          HomeCard.price := None;
          HomeCard.beds := None;
          HomeCard.baths := None;
          HomeCard.sqft := None;
          HomeCard.address := Some (py "12 Elm St, Austin, TX");
          HomeCard.detail_url :=
            py "https://www.redfin.com/TX/Austin/12-Elm-St/home/1";
          HomeCard.image_url := None |}.
Proof.
  exact (C6_address_and_link_only
           (address_only_card (py " 12 Elm St, Austin, TX ")
              (py "/TX/Austin/12-Elm-St/home/1"))
           (mk_element (py " 12 Elm St, Austin, TX ")
              (fun a => if String.eqb a "href"
                        then Some (py "/TX/Austin/12-Elm-St/home/1") else None)
              (fun _ => []) true true)
           [] (py "/TX/Austin/12-Elm-St/home/1")
           eq_refl eq_refl
           ltac:(discriminate) eq_refl eq_refl eq_refl eq_refl eq_refl eq_refl).
Defined.

Lemma C5_witness_card : no_detail_link bare_card.
Proof. left. reflexivity. Qed.

(* ------------------------------------------------------------------ *)
(** ** The listing collector *)
(* ------------------------------------------------------------------ *)

Lemma nth_error_skipn {A : Type} (l : list A) (n : nat) (x : A) :
  nth_error l n = Some x -> skipn n l = x :: skipn (S n) l.
Proof.
  revert l. induction n as [|n IH]; intros [|y l] H; try discriminate.
  - inversion H. reflexivity.
  - simpl in H. apply IH in H. exact H.
Qed.

(** The index loop parses the rendered cards one after the other. *)
Lemma parse_loop_seq (rendered : list element) (n a : nat)
    (cards : list HomeCard.t) :
  (a + n <= List.length rendered)%nat ->
  parse_loop rendered (seq a n) cards =
  match parse_all (firstn n (skipn a rendered)) with
  | Ok cards' => Ok (cards ++ cards')
  | Error e => Error e
  | Hangs => Hangs
  end.
Proof.
  revert a cards. induction n as [|n IH]; intros a cards Hlen.
  - simpl. now rewrite app_nil_r.
  - destruct (nth_error rendered a) as [x|] eqn:Hx.
    2:{ apply nth_error_None in Hx. lia. }
    cbn [seq parse_loop]. rewrite Hx, (nth_error_skipn _ _ _ Hx).
    cbn [firstn parse_all].
    destruct (_parse_home_card x) as [card|e|]; [|reflexivity ..].
    rewrite IH by lia.
    destruct (parse_all (firstn n (skipn (S a) rendered))); [|reflexivity ..].
    now rewrite <- app_assoc.
Qed.

(** Parsing a card always ends: with a record or with an exception. *)
Lemma parse_home_card_returns (card_locator : element) :
  _parse_home_card card_locator <> Hangs.
Proof.
  unfold _parse_home_card.
  destruct (locator card_locator "a.bp-Homecard__Address") as [|first rest];
    [discriminate|].
  destruct (get_attribute first "href") as [[|c path]|]; discriminate.
Qed.

Lemma parse_all_returns (cards : list element) : parse_all cards <> Hangs.
Proof.
  induction cards as [|c cards IH]; simpl; [discriminate|].
  pose proof (parse_home_card_returns c) as Hc.
  destruct (_parse_home_card c); [|discriminate | contradiction].
  destruct (parse_all cards); [discriminate ..| contradiction].
Qed.

Lemma parse_all_error (cards : list element) (e : exn) :
  parse_all cards = Error e -> e = MissingDetailLink.
Proof.
  induction cards as [|c cards IH]; simpl; [discriminate|].
  destruct (_parse_home_card c) as [card|e'|] eqn:Hc; [| |discriminate].
  - destruct (parse_all cards); [discriminate| |discriminate].
    intros H. inversion H. subst. now apply IH.
  - intros H. inversion H. subst. now apply parse_home_card_error in Hc.
Qed.

Lemma parse_all_In (cards : list element) (card_locator : element) :
  In card_locator cards -> no_detail_link card_locator ->
  parse_all cards = Error MissingDetailLink.
Proof.
  intros Hin Hno. induction cards as [|c cards IH]; [contradiction|].
  simpl. destruct (_parse_home_card c) as [card|e|] eqn:Hc.
  - destruct Hin as [->|Hin].
    + rewrite (parse_home_card_no_link _ Hno) in Hc. discriminate.
    + now rewrite (IH Hin).
  - apply parse_home_card_error in Hc as [-> _]. reflexivity.
  - now apply parse_home_card_returns in Hc.
Qed.

(** A successful parse pairs the cards and the records one to one, in
    order. *)
Lemma parse_all_Ok (cards : list element) (records : list HomeCard.t) :
  parse_all cards = Ok records ->
  Forall2 (fun card_locator card => _parse_home_card card_locator = Ok card)
    cards records.
Proof.
  revert records. induction cards as [|c cards IH]; intros records; simpl.
  - intros H. inversion H. constructor.
  - destruct (_parse_home_card c) as [card|e|] eqn:Hc; [|discriminate ..].
    destruct (parse_all cards) as [records'|e|]; [|discriminate ..].
    intros H. inversion H. constructor; [exact Hc | now apply IH].
Qed.

Lemma parse_all_nonempty (cards : list element) :
  cards <> [] -> parse_all cards <> Ok [].
Proof.
  destruct cards as [|c cards]; [contradiction|]. intros _. simpl.
  destruct (_parse_home_card c); [|discriminate ..].
  destruct (parse_all cards); discriminate.
Qed.

(** Ten units of fuel run the scroll loop to its exit: when it stops, the
    loop condition is false, and each attempt scrolled once. *)
Lemma scroll_loop_exit (pg : page) (limit : Z) (fuel : nat)
    (attempts : Z) (tr : trace) :
  (0 <= attempts <= 10)%Z -> (10 - attempts <= Z.of_nat fuel)%Z ->
  let r := scroll_loop pg limit fuel attempts tr in
  ((count pg (snd r) <? limit) && (fst r <? 10))%Z = false
  /\ (attempts <= fst r <= 10)%Z
  /\ Z.of_nat (count_scrolls (snd r))
     = (Z.of_nat (count_scrolls tr) + (fst r - attempts))%Z.
Proof.
  revert attempts tr. induction fuel as [|fuel IH]; intros attempts tr Ha Hf;
    cbv zeta.
  - assert (attempts = 10%Z) as -> by lia. cbn [scroll_loop fst snd].
    rewrite andb_false_r. split; [reflexivity | lia].
  - cbn [scroll_loop].
    destruct ((count pg tr <? limit) && (attempts <? 10))%Z eqn:Hc.
    + apply andb_true_iff in Hc as [_ Hlt]. apply Z.ltb_lt in Hlt.
      specialize (IH (attempts + 1)%Z
                    (WaitForTimeout 1000 :: MouseWheel 0 1600 :: tr)).
      cbv zeta in IH.
      destruct IH as (H1 & H2 & H3); [lia | lia |].
      split; [exact H1|]. split; [lia|].
      rewrite H3. unfold count_scrolls. cbn [filter is_scroll List.length].
      lia.
    + cbn [fst snd]. split; [exact Hc | lia].
Qed.

Lemma collect_home_cards_unfold (pg : page) (limit : Z) :
  let tr := snd (scroll_loop pg limit 10 0%Z listing_trace) in
  let rendered := page_locator (pg tr) HOME_CARD in
  _collect_home_cards pg limit =
  (match rendered with
   | [] => Error NoCardsFound
   | _ :: _ =>
       parse_all
         (firstn (Z.to_nat (Z.min limit (Z.of_nat (List.length rendered))))
            rendered)
   end, tr).
Proof.
  unfold _collect_home_cards. fold listing_trace.
  destruct (scroll_loop pg limit 10 0%Z listing_trace) as [attempts tr].
  simpl. destruct (page_locator (pg tr) HOME_CARD) as [|c rendered] eqn:Hr.
  - reflexivity.
  - replace (Z.of_nat (List.length (c :: rendered)) =? 0)%Z with false
      by (symmetry; apply Z.eqb_neq; simpl; lia).
    f_equal. rewrite parse_loop_seq by lia. simpl skipn.
    now destruct (parse_all _).
Qed.

Lemma collect_home_cards_trace (pg : page) (limit : Z) :
  snd (_collect_home_cards pg limit)
  = snd (scroll_loop pg limit 10 0%Z listing_trace).
Proof.
  pose proof (collect_home_cards_unfold pg limit) as H. cbv zeta in H.
  now rewrite H.
Qed.

Lemma scroll_loop_enough (pg : page) (limit : Z) (fuel : nat) (tr : trace) :
  (limit <= count pg tr)%Z ->
  scroll_loop pg limit (S fuel) 0%Z tr = (0%Z, tr).
Proof.
  intros H. cbn [scroll_loop].
  replace (count pg tr <? limit)%Z with false
    by (symmetry; apply Z.ltb_ge; exact H).
  reflexivity.
Qed.

(** C3 -- for a positive limit the collector parses exactly the first
    [min(limit, available)] rendered cards, in document order, nothing
    reordered and nothing dropped: the records it returns pair with those
    cards one to one.  When at least [limit] cards are rendered before the
    loop, it scrolls not once and returns the first [limit] cards. *)
Theorem C3_collector_takes_first_cards (pg : page) (limit : Z) :
  (0 < limit)%Z ->
  let tr := snd (_collect_home_cards pg limit) in
  let rendered := page_locator (pg tr) HOME_CARD in
  let available := Z.of_nat (List.length rendered) in
  (rendered <> [] ->
   fst (_collect_home_cards pg limit)
   = parse_all (firstn (Z.to_nat (Z.min limit available)) rendered))
  /\ (forall cards,
        fst (_collect_home_cards pg limit) = Ok cards ->
        Forall2
          (fun card_locator card => _parse_home_card card_locator = Ok card)
          (firstn (Z.to_nat (Z.min limit available)) rendered) cards)
  /\ ((limit <= count pg listing_trace)%Z ->
      tr = listing_trace
      /\ count_scrolls tr = 0%nat
      /\ fst (_collect_home_cards pg limit)
         = parse_all
             (firstn (Z.to_nat limit) (page_locator (pg listing_trace) HOME_CARD))).
Proof.
  intros Hpos. cbv zeta.
  pose proof (collect_home_cards_unfold pg limit) as H. cbv zeta in H.
  rewrite H. cbn [fst snd]. split; [|split].
  - destruct (page_locator _ HOME_CARD); [contradiction | reflexivity].
  - intros cards.
    destruct (page_locator _ HOME_CARD); [discriminate | apply parse_all_Ok].
  - intros Hen. rewrite (scroll_loop_enough pg limit 9 listing_trace Hen).
    cbn [snd]. split; [reflexivity|]. split; [reflexivity|].
    unfold count in Hen.
    destruct (page_locator (pg listing_trace) HOME_CARD) as [|c r] eqn:Hr.
    + simpl in Hen. lia.
    + f_equal. f_equal. lia.
Qed.

Lemma C3_collector_takes_first_cards_witness :
  _collect_home_cards (listing_page (map numbered_card (seq 0 25))) 10
  = (Ok (map numbered_record (seq 0 10)), listing_trace).
Proof.
  destruct (C3_collector_takes_first_cards
              (listing_page (map numbered_card (seq 0 25))) 10 eq_refl)
    as (_ & _ & H).
  destruct (H ltac:(vm_compute; discriminate)) as (Htr & _ & Hres).
  rewrite (surjective_pairing (_collect_home_cards _ _)), Htr, Hres.
  vm_compute. reflexivity.
Defined.

(** C4 -- when the page shows no card after the wait and the scroll loop
    (ten scrolls, for a positive limit), the collector raises the
    no-cards-found error and [scrape] ends with it; for a positive limit the
    collector never returns an empty list. *)
Theorem C4_no_cards_is_fatal {U : Unicode} (context : browser_context)
    (limit : Z) :
  let pg := context 0%nat in
  let tr := snd (_collect_home_cards pg limit) in
  (page_locator (pg tr) HOME_CARD = [] ->
   fst (_collect_home_cards pg limit) = Error NoCardsFound
   /\ scrape context limit = Error NoCardsFound
   /\ ((0 < limit)%Z -> count_scrolls tr = 10%nat))
  /\ ((0 < limit)%Z -> fst (_collect_home_cards pg limit) <> Ok []).
Proof.
  cbv zeta. unfold scrape.
  pose proof (collect_home_cards_unfold (context 0%nat) limit) as H.
  cbv zeta in H. rewrite H. cbn [fst snd].
  set (r := scroll_loop (context 0%nat) limit 10 0%Z listing_trace) in *.
  pose proof (scroll_loop_exit (context 0%nat) limit 10 0%Z listing_trace
                ltac:(lia) ltac:(simpl; lia)) as Hexit.
  cbv zeta in Hexit. fold r in Hexit. destruct Hexit as (Hc & Ha & Hs).
  split.
  - intros Hnil. rewrite Hnil. split; [reflexivity|]. split; [reflexivity|].
    intros Hpos. unfold count in Hc. rewrite Hnil in Hc.
    replace (Z.of_nat (List.length (@nil element)) <? limit)%Z with true in Hc
      by (symmetry; apply Z.ltb_lt; simpl; lia).
    apply Z.ltb_ge in Hc. change (count_scrolls listing_trace) with 0%nat in Hs.
    lia.
  - intros Hpos.
    destruct (page_locator (context 0%nat (snd r)) HOME_CARD) as [|c rendered];
      [discriminate|].
    apply parse_all_nonempty.
    destruct (Z.to_nat (Z.min limit (Z.of_nat (List.length (c :: rendered)))))
      eqn:Hn; [|discriminate].
    simpl in Hn. lia.
Qed.

Lemma C4_no_cards_is_fatal_witness :
  _collect_home_cards empty_listing 10
  = (Error NoCardsFound, snd (_collect_home_cards empty_listing 10))
  /\ @scrape basic_latin (single_page empty_listing) 10 = Error NoCardsFound
  /\ count_scrolls (snd (_collect_home_cards empty_listing 10)) = 10%nat.
Proof.
  destruct (@C4_no_cards_is_fatal basic_latin (single_page empty_listing) 10)
    as [H _].
  destruct (H eq_refl) as (H1 & H2 & H3).
  split; [|split; [exact H2 | exact (H3 eq_refl)]].
  rewrite (surjective_pairing (_collect_home_cards _ _)).
  change (single_page empty_listing 0%nat) with empty_listing in H1.
  rewrite H1. reflexivity.
Defined.

(** C5 -- a card whose detail link is absent or empty makes the card field
    extractor raise the missing-link error; the collector does not catch it:
    when such a card is among those it parses, the collector raises that
    error and so does [scrape]. *)
Theorem C5_missing_detail_link_propagates {U : Unicode}
    (context : browser_context) (limit : Z) :
  (forall card_locator,
      no_detail_link card_locator ->
      _parse_home_card card_locator = Error MissingDetailLink)
  /\ (let pg := context 0%nat in
      let tr := snd (_collect_home_cards pg limit) in
      forall index card_locator,
        nth_error (page_locator (pg tr) HOME_CARD) index = Some card_locator ->
        (Z.of_nat index < limit)%Z ->
        no_detail_link card_locator ->
        fst (_collect_home_cards pg limit) = Error MissingDetailLink
        /\ scrape context limit = Error MissingDetailLink).
Proof.
  split; [exact parse_home_card_no_link|].
  cbv zeta. intros index card_locator Hnth Hlt Hno.
  assert (Hc : fst (_collect_home_cards (context 0%nat) limit)
               = Error MissingDetailLink).
  { pose proof (collect_home_cards_unfold (context 0%nat) limit) as H.
    cbv zeta in H. rewrite H in Hnth |- *. cbn [fst snd] in *.
    remember (page_locator (context 0%nat
                (snd (scroll_loop (context 0%nat) limit 10 0%Z listing_trace)))
                HOME_CARD) as rendered eqn:Hr.
    assert (Hlen : (index < List.length rendered)%nat)
      by (apply nth_error_Some; congruence).
    assert (Hm : parse_all
                   (firstn (Z.to_nat (Z.min limit (Z.of_nat (List.length rendered))))
                      rendered) = Error MissingDetailLink).
    { apply parse_all_In with (card_locator := card_locator); [|exact Hno].
      rewrite <- (firstn_skipn
                    (Z.to_nat (Z.min limit (Z.of_nat (List.length rendered))))
                    rendered) in Hnth.
      rewrite nth_error_app1 in Hnth; [now apply nth_error_In in Hnth|].
      rewrite length_firstn. lia. }
    destruct rendered; [simpl in Hlen; lia | exact Hm]. }
  split; [exact Hc|]. unfold scrape. now rewrite Hc.
Qed.

Lemma C5_missing_detail_link_propagates_witness :
  _parse_home_card bare_card = Error MissingDetailLink
  /\ fst (_collect_home_cards
            (listing_page [numbered_card 0; bare_card; numbered_card 2]) 10)
     = Error MissingDetailLink
  /\ @scrape basic_latin
       (single_page (listing_page [numbered_card 0; bare_card; numbered_card 2]))
       10
     = Error MissingDetailLink.
Proof.
  destruct (@C5_missing_detail_link_propagates basic_latin
              (single_page
                 (listing_page [numbered_card 0; bare_card; numbered_card 2]))
              10) as [H1 H2].
  split; [exact (H1 bare_card C5_witness_card)|].
  exact (H2 1%nat bare_card eq_refl eq_refl C5_witness_card).
Defined.

(* ------------------------------------------------------------------ *)
(** ** The status classifier *)
(* ------------------------------------------------------------------ *)

Section StatusScan.

Context {U : Unicode}.

Lemma scan_candidates_find (candidates : list str) :
  scan_candidates candidates
  = find passes_candidate (map clean_text candidates).
Proof.
  induction candidates as [|raw rest IH]; [reflexivity|].
  cbn [scan_candidates map find]. rewrite clean_card_stat_Some, IH.
  destruct (clean_text raw) as [|c cleaned]; [reflexivity|].
  change (passes_candidate (c :: cleaned))
    with ((List.length (c :: cleaned) <=? 80)%nat
          && has_keyword (lower (c :: cleaned))).
  destruct (Nat.ltb_spec 80 (List.length (c :: cleaned))) as [Hl|Hl].
  - replace (List.length (c :: cleaned) <=? 80)%nat with false
      by (symmetry; apply Nat.leb_gt; exact Hl).
    reflexivity.
  - replace (List.length (c :: cleaned) <=? 80)%nat with true
      by (symmetry; apply Nat.leb_le; exact Hl).
    reflexivity.
Qed.

Lemma scan_lines_find (lines : list str) :
  scan_lines lines = find passes_line (map clean_text lines).
Proof.
  induction lines as [|line rest IH]; [reflexivity|].
  cbn [scan_lines map find]. rewrite clean_card_stat_Some, IH.
  destruct (clean_text line) as [|c cleaned]; reflexivity.
Qed.

(** Empty candidates, which the script filters out, pass no test. *)
Lemma find_candidate_truthy (texts : list str) :
  find passes_candidate (map clean_text (filter truthy texts))
  = find passes_candidate (map clean_text texts).
Proof.
  induction texts as [|t texts IH]; [reflexivity|].
  destruct t as [|c t]; [exact IH|].
  cbn [filter truthy map find]. now rewrite IH.
Qed.

End StatusScan.

(** The classifier as two searches: the first normalised candidate that
    passes, else the first normalised line that passes. *)
Lemma extract_status_badge_find {U : Unicode} (pg : page) (tr : trace) :
  _extract_status_badge pg tr
  = match find passes_candidate (status_texts pg tr) with
    | Some cleaned => Some cleaned
    | None => find passes_line (body_lines pg tr)
    end.
Proof.
  unfold _extract_status_badge, status_texts, body_lines, status_script.
  rewrite scan_candidates_find, scan_lines_find.
  destruct (document_elements (pg tr)) as [document|].
  - rewrite find_candidate_truthy, map_map.
    destruct (find passes_candidate _); [reflexivity|].
    now destruct (body_inner_text (pg tr)).
  - cbn [map find]. now destruct (body_inner_text (pg tr)).
Qed.

(** *** Substrings *)

Lemma startswith_prefix (p s : str) :
  startswith p s = true <-> exists post, s = p ++ post.
Proof.
  revert s. induction p as [|x p IH]; intros s.
  - split; [intros _; now exists s | reflexivity].
  - destruct s as [|c s]; cbn [startswith].
    + split; [discriminate | intros [post H]; discriminate H].
    + rewrite andb_true_iff, N.eqb_eq, IH. split.
      * intros [-> [post ->]]. now exists post.
      * intros [post H]. injection H as -> ->. split; [reflexivity|].
        now exists post.
Qed.

Lemma contains_cons (needle : str) (c : N) (hay : str) :
  contains needle (c :: hay)
  = startswith needle (c :: hay) || contains needle hay.
Proof. reflexivity. Qed.

Lemma contains_infix (needle hay : str) :
  contains needle hay = true <-> infix needle hay.
Proof.
  split.
  - induction hay as [|c hay IH].
    + cbn [contains]. rewrite orb_false_r. intros H.
      apply startswith_prefix in H as [post H]. now exists [], post.
    + rewrite contains_cons. intros H. apply orb_true_iff in H as [H|H].
      * apply startswith_prefix in H as [post H]. now exists [], post.
      * destruct (IH H) as (pre & post & ->). now exists (c :: pre), post.
  - intros (pre & post & ->). induction pre as [|c pre IH].
    + assert (H : startswith needle (needle ++ post) = true)
        by (apply startswith_prefix; now exists post).
      cbn [app]. destruct (needle ++ post) as [|c rest].
      * cbn [contains]. now rewrite H.
      * rewrite contains_cons. now rewrite H.
    + cbn [app]. rewrite contains_cons, IH. apply orb_true_r.
Qed.

(** *** The tests of the classifier, read as properties *)

Lemma has_keyword_names_status {U : Unicode} (text : str) :
  has_keyword (lower text) = true <-> names_status text.
Proof.
  unfold has_keyword, names_status.
  change preferred_keywords with STATUS_KEYWORDS.
  rewrite existsb_exists. split.
  - intros (keyword & Hin & Hc). exists keyword.
    split; [exact Hin | now apply contains_infix].
  - intros (keyword & Hin & Hc). exists keyword.
    split; [exact Hin | now apply contains_infix].
Qed.

Lemma class_has_status_classed (el : dom_element) :
  class_has_status el = true <-> status_classed el.
Proof.
  unfold class_has_status, status_classed. split.
  - destruct (class_attr el) as [cls|]; [|discriminate].
    intros H. apply contains_infix in H as (pre' & post' & H).
    apply map_eq_app in H as (pre & rest & -> & _ & H).
    apply map_eq_app in H as (run & post & -> & Hrun & _).
    exists (pre ++ run ++ post), run.
    split; [reflexivity|]. split; [now exists pre, post | exact Hrun].
  - intros (cls & run & -> & (pre & post & ->) & Hrun).
    apply contains_infix. exists (map ascii_lower pre), (map ascii_lower post).
    now rewrite !map_app, Hrun.
Qed.

Lemma status_candidate_passes {U : Unicode} (el : dom_element) :
  class_has_status el && passes_candidate (candidate_text el) = true
  <-> status_candidate el.
Proof.
  unfold passes_candidate, status_candidate.
  rewrite !andb_true_iff, class_has_status_classed, Nat.leb_le,
    has_keyword_names_status.
  reflexivity.
Qed.

Lemma status_line_passes {U : Unicode} (line : str) :
  passes_line (clean_text line) = true <-> status_line line.
Proof. apply has_keyword_names_status. Qed.

(** *** First matches *)

Lemma first_where_find {A : Type} (p : A -> bool) (P : A -> Prop)
    (l : list A) (x : A) :
  (forall y, p y = true <-> P y) ->
  first_where P l x -> find p l = Some x.
Proof.
  intros Hp (before & after & -> & Hx & Hbefore).
  induction before as [|y before IH]; cbn [app find].
  - now rewrite (proj2 (Hp x) Hx).
  - destruct (p y) eqn:Ey.
    + exfalso. apply (Hbefore y); [now left | now apply Hp].
    + apply IH. intros z Hz. apply Hbefore. now right.
Qed.

Lemma nowhere_find {A : Type} (p : A -> bool) (P : A -> Prop) (l : list A) :
  (forall y, p y = true <-> P y) ->
  (forall y, In y l -> ~ P y) -> find p l = None.
Proof.
  intros Hp Hnone. induction l as [|y l IH]; [reflexivity|].
  cbn [find]. destruct (p y) eqn:Ey.
  - exfalso. apply (Hnone y); [now left | now apply Hp].
  - apply IH. intros z Hz. apply Hnone. now right.
Qed.

Lemma find_map_filter {A B : Type} (f : A -> B) (q : A -> bool)
    (p : B -> bool) (l : list A) :
  find p (map f (filter q l))
  = option_map f (find (fun x => q x && p (f x)) l).
Proof.
  induction l as [|x l IH]; [reflexivity|].
  cbn [filter find]. destruct (q x); cbn [map find andb]; [|exact IH].
  destruct (p (f x)); [reflexivity | exact IH].
Qed.

(** *** Lines *)

Lemma is_linebreak_boundary (c : N) :
  is_linebreak c = true <-> In c LINE_BOUNDARIES.
Proof.
  unfold is_linebreak, LINE_BOUNDARIES. cbn [In].
  rewrite !orb_true_iff, !andb_true_iff, !N.leb_le, !N.eqb_eq. lia.
Qed.

Lemma unbroken_forallb (line : str) :
  forallb (fun c => negb (is_linebreak c)) line = true <-> unbroken line.
Proof.
  unfold unbroken. rewrite forallb_forall. split.
  - intros H c Hc Hb. specialize (H c Hc).
    apply is_linebreak_boundary in Hb. now rewrite Hb in H.
  - intros H c Hc. apply negb_true_iff.
    destruct (is_linebreak c) eqn:E; [|reflexivity].
    exfalso. apply (H c Hc). now apply is_linebreak_boundary.
Qed.

Lemma splitlines_from_unbroken (line s cur : str) :
  unbroken line ->
  splitlines_from cur (line ++ s) = splitlines_from (rev line ++ cur) s.
Proof.
  revert cur. induction line as [|c line IH]; intros cur Hl; [reflexivity|].
  assert (Hc : is_linebreak c = false).
  { destruct (is_linebreak c) eqn:E; [|reflexivity].
    exfalso. apply (Hl c); [now left | now apply is_linebreak_boundary]. }
  cbn [app splitlines_from]. rewrite Hc, IH.
  - cbn [rev]. now rewrite <- app_assoc.
  - intros x Hx. apply Hl. now right.
Qed.

(** [splitlines] returns the lines of the text, and a text has no other
    lines. *)
Lemma lines_of_splitlines (s : str) (lines : list str) :
  lines_of s lines -> splitlines s = lines.
Proof.
  unfold splitlines. induction 1 as [|line Hne Hl|line boundary rest lines Hl Hb _ IH].
  - reflexivity.
  - pose proof (splitlines_from_unbroken line [] [] Hl) as H.
    rewrite !app_nil_r in H. rewrite H. cbn [splitlines_from].
    destruct (rev line) as [|c r] eqn:E.
    + apply (f_equal (@rev N)) in E. rewrite rev_involutive in E.
      contradiction.
    + now rewrite <- E, rev_involutive.
  - rewrite splitlines_from_unbroken by exact Hl. rewrite app_nil_r.
    destruct Hb as [-> | (c & -> & Hc & Hcr)].
    + cbn [app splitlines_from]. change (is_linebreak 13) with true.
      cbn [N.eqb Pos.eqb andb]. now rewrite rev_involutive, IH.
    + apply is_linebreak_boundary in Hc.
      cbn [app splitlines_from]. rewrite Hc, rev_involutive. f_equal.
      destruct rest as [|c' rest]; [now rewrite <- IH|].
      destruct ((c =? 13) && (c' =? 10))%N eqn:E; [|exact IH].
      apply andb_true_iff in E as [E1 E2].
      apply N.eqb_eq in E1, E2. subst c'. now destruct (Hcr E1).
Qed.

(** Every text has its lines. *)
Lemma splitlines_from_lines (n : nat) (s cur : str) :
  (List.length s <= n)%nat ->
  unbroken (rev cur) ->
  lines_of (rev cur ++ s) (splitlines_from cur s).
Proof.
  revert s cur. induction n as [|n IH]; intros s cur Hn Hcur.
  - destruct s as [|c s]; [|simpl in Hn; lia].
    rewrite app_nil_r. cbn [splitlines_from].
    destruct cur as [|x cur]; [constructor|].
    constructor; [|exact Hcur].
    cbn [rev]. now destruct (rev cur).
  - destruct s as [|c s].
    + apply (IH [] cur); [simpl; lia | exact Hcur].
    + cbn [splitlines_from]. destruct (is_linebreak c) eqn:Ec.
      * apply is_linebreak_boundary in Ec.
        destruct s as [|c' s].
        -- change (rev cur ++ [c]) with (rev cur ++ [c] ++ []).
           constructor; [exact Hcur | | constructor].
           right. exists c. repeat split; [exact Ec|]. discriminate.
        -- destruct ((c =? 13) && (c' =? 10))%N eqn:E.
           ++ apply andb_true_iff in E as [E1 E2].
              apply N.eqb_eq in E1, E2. subst c c'.
              change (rev cur ++ 13%N :: 10%N :: s)
                with (rev cur ++ [13; 10]%N ++ s).
              constructor; [exact Hcur | now left |].
              apply (IH s []); [simpl in Hn; lia | intros x []].
           ++ change (rev cur ++ c :: c' :: s)
                with (rev cur ++ [c] ++ c' :: s).
              constructor; [exact Hcur | |].
              ** right. exists c. repeat split; [exact Ec|].
                 intros -> H. injection H as ->. discriminate E.
              ** apply (IH (c' :: s) []); [simpl in Hn |- *; lia | intros x []].
      * replace (rev cur ++ c :: s) with (rev (c :: cur) ++ s)
          by (cbn [rev]; now rewrite <- app_assoc).
        apply IH; [simpl in Hn; lia|].
        intros x Hx. cbn [rev] in Hx. apply in_app_or in Hx as [Hx|[<-|[]]].
        -- now apply Hcur.
        -- intros Hb. apply is_linebreak_boundary in Hb. congruence.
Qed.

Lemma lines_of_exists (s : str) : lines_of s (splitlines s).
Proof.
  exact (splitlines_from_lines (List.length s) s [] (le_n _) (fun x H => match H with end)).
Qed.

(** C7 -- the status classifier returns the normalised text of the first
    element, among those whose class attribute contains "status" in any
    ASCII case, whose normalised text has at most 80 characters and, once
    lower-cased, contains one of the seven keywords; when no element is of
    that kind, the first line of the body text that, normalised and
    lower-cased, contains a keyword, in its normalised form; and [None], not
    an exception, when there is no such line either. *)
Theorem C7_status_badge_first_match {U : Unicode} (pg : page) (tr : trace)
    (lines : list str) :
  lines_of (body_of pg tr) lines ->
  let document := document_of pg tr in
  (forall el,
      first_where status_candidate document el ->
      _extract_status_badge pg tr = Some (candidate_text el))
  /\ ((forall el, In el document -> ~ status_candidate el) ->
      (forall line,
          first_where status_line lines line ->
          _extract_status_badge pg tr = Some (clean_text line))
      /\ ((forall line, In line lines -> ~ status_line line) ->
          _extract_status_badge pg tr = None)).
Proof.
  intros Hlines. cbv zeta. apply lines_of_splitlines in Hlines.
  rewrite extract_status_badge_find.
  assert (Hc : find passes_candidate (status_texts pg tr)
               = option_map candidate_text
                   (find (fun el => class_has_status el
                                    && passes_candidate (candidate_text el))
                      (document_of pg tr))).
  { unfold status_texts, document_of.
    destruct (document_elements (pg tr)) as [document|]; [|reflexivity].
    apply (find_map_filter candidate_text). }
  assert (Hl : find passes_line (body_lines pg tr)
               = option_map clean_text
                   (find (fun line => passes_line (clean_text line)) lines)).
  { unfold body_lines. unfold body_of in Hlines.
    destruct (body_inner_text (pg tr)) as [body_text|].
    - rewrite Hlines. rewrite <- (filter_true lines) at 1.
      apply (find_map_filter clean_text (fun _ => true)).
    - now subst lines. }
  rewrite Hc, Hl. split.
  - intros el Hel.
    now rewrite (first_where_find _ _ _ _ status_candidate_passes Hel).
  - intros Hnone.
    rewrite (nowhere_find _ _ _ status_candidate_passes Hnone).
    cbn [option_map]. split.
    + intros line Hline.
      now rewrite (first_where_find _ _ _ _ status_line_passes Hline).
    + intros Hno.
      now rewrite (nowhere_find _ _ _ status_line_passes Hno).
Qed.

Lemma C7_status_badge_first_match_witness :
  @_extract_status_badge basic_latin (badge_page sample_badges []) []
  = Some (py "PENDING sale")
  /\ @_extract_status_badge basic_latin (badge_page [] sample_body) []
     = Some (py "This home is Off Market").
Proof.
  split.
  - apply (proj1 (@C7_status_badge_first_match basic_latin
                    (badge_page sample_badges []) [] [] lines_of_empty)
             {| class_attr := Some (py "home StatusLabel");
                text_content := [SPACE; 10%N] ++ py "PENDING " ++ [9%N]
                                ++ py " sale " |}).
    exists (firstn 3 sample_badges), (skipn 4 sample_badges).
    split; [reflexivity|]. split.
    + now apply (@status_candidate_passes basic_latin).
    + intros el Hel Hc. apply (@status_candidate_passes basic_latin) in Hc.
      destruct Hel as [<-|[<-|[<-|[]]]]; discriminate Hc.
  - assert (Hlines :
              lines_of (body_of (badge_page [] sample_body) [])
                [py "12 Elm St"; py "This home is Off Market";
                 py "Sold nearby"]).
    { apply (lines_of_more (py "12 Elm St") [13; 10]%N
               (py "This home is Off Market" ++ [10%N] ++ py "Sold nearby"));
        [now apply unbroken_forallb | now left |].
      apply (lines_of_more (py "This home is Off Market") [10%N]
               (py "Sold nearby"));
        [now apply unbroken_forallb | |].
      - right. exists 10%N. repeat split; [cbn; tauto | discriminate].
      - apply lines_of_last; [discriminate | now apply unbroken_forallb]. }
    destruct (@C7_status_badge_first_match basic_latin
                (badge_page [] sample_body) [] _ Hlines) as [_ H].
    apply (proj1 (H (fun el Hel => match Hel with end))
             (py "This home is Off Market")).
    exists [py "12 Elm St"], [py "Sold nearby"].
    split; [reflexivity|]. split.
    + now apply (@status_line_passes basic_latin).
    + intros line Hline Hc. apply (@status_line_passes basic_latin) in Hc.
      destruct Hline as [<-|[]]. discriminate Hc.
Defined.

(* ------------------------------------------------------------------ *)
(** ** Dictionaries and the details table *)
(* ------------------------------------------------------------------ *)

Lemma str_eqb_eq (a b : str) : str_eqb a b = true <-> a = b.
Proof.
  revert b. induction a as [|x a IH]; intros [|y b]; simpl;
    try (split; [discriminate | discriminate]); [tauto|].
  rewrite andb_true_iff, N.eqb_eq, IH. split.
  - intros [-> ->]. reflexivity.
  - intros H. inversion H. auto.
Qed.

Lemma str_eqb_refl (a : str) : str_eqb a a = true.
Proof. now apply str_eqb_eq. Qed.

Lemma str_eqb_neq (a b : str) : str_eqb a b = false <-> a <> b.
Proof.
  rewrite <- str_eqb_eq. destruct (str_eqb a b); split; congruence.
Qed.

Lemma mem_In (k : str) (l : list str) : mem k l = true <-> In k l.
Proof.
  unfold mem. rewrite existsb_exists. split.
  - intros (x & Hx & E). apply str_eqb_eq in E. now subst.
  - intros H. exists k. split; [exact H | apply str_eqb_refl].
Qed.

Lemma mem_app (k : str) (l1 l2 : list str) :
  mem k (l1 ++ l2) = mem k l1 || mem k l2.
Proof. unfold mem. apply existsb_app. Qed.

Lemma dict_set_keys (d : dict) (k v : str) :
  map fst (dict_set d k v)
  = if mem k (map fst d) then map fst d else map fst d ++ [k].
Proof.
  induction d as [|[k' v'] d IH]; [reflexivity|].
  cbn [dict_set map fst mem existsb].
  destruct (str_eqb k' k) eqn:E.
  - apply str_eqb_eq in E as ->. now rewrite str_eqb_refl.
  - replace (str_eqb k k') with false.
    2:{ symmetry. apply str_eqb_neq. apply str_eqb_neq in E. congruence. }
    cbn [map fst orb]. rewrite IH. fold (mem k (map fst d)).
    now destruct (mem k (map fst d)).
Qed.

Lemma dict_get_set (d : dict) (k v k0 : str) :
  dict_get (dict_set d k v) k0
  = if str_eqb k k0 then Some v else dict_get d k0.
Proof.
  induction d as [|[k' v'] d IH]; [reflexivity|].
  cbn [dict_set dict_get]. destruct (str_eqb k' k) eqn:E.
  - apply str_eqb_eq in E as ->. cbn [dict_get].
    now destruct (str_eqb k k0).
  - cbn [dict_get]. rewrite IH. destruct (str_eqb k' k0) eqn:E0; [|reflexivity].
    apply str_eqb_eq in E0 as ->. now rewrite (proj2 (str_eqb_neq k k0))
      by (apply str_eqb_neq in E; congruence).
Qed.

(** The loop of the details table writes the row entries in order. *)
Lemma key_details_loop_entries {U : Unicode} (rows : list Tag) (d : dict) :
  key_details_loop rows d
  = fold_left (fun d e => dict_set d (fst e) (snd e)) (row_entries rows) d.
Proof.
  revert d. induction rows as [|row rows IH]; intros d; [reflexivity|].
  cbn [key_details_loop row_entries]. unfold row_entry.
  destruct (select_one row ".valueType") as [label|];
    [|destruct (select_one row ".valueText"); apply IH].
  destruct (select_one row ".valueText") as [value|]; [|apply IH].
  destruct (str_eqb (lower (get_text label [])) (py "on redfin"));
    [apply IH|].
  cbn [fold_left fst snd]. apply IH.
Qed.

Lemma fold_dict_set_keys (entries : list (str * str)) (d : dict) :
  map fst (fold_left (fun d e => dict_set d (fst e) (snd e)) entries d)
  = map fst d ++ first_occurrences_from (map fst d) (map fst entries).
Proof.
  revert d. induction entries as [|[k v] entries IH]; intros d.
  - simpl. now rewrite app_nil_r.
  - cbn [fold_left map fst snd first_occurrences_from].
    rewrite IH, dict_set_keys.
    destruct (mem k (map fst d)); [reflexivity|].
    now rewrite <- app_assoc.
Qed.

Lemma fold_dict_set_get (entries : list (str * str)) (d : dict) (k : str) :
  dict_get (fold_left (fun d e => dict_set d (fst e) (snd e)) entries d) k
  = match last_value entries k with
    | Some v => Some v
    | None => dict_get d k
    end.
Proof.
  revert d. induction entries as [|[k' v'] entries IH]; intros d;
    [reflexivity|].
  cbn [fold_left fst snd last_value]. rewrite IH, dict_get_set.
  destruct (last_value entries k); [reflexivity|].
  now destruct (str_eqb k' k).
Qed.

Lemma first_occurrences_from_spec (l seen : list str) :
  NoDup seen ->
  NoDup (seen ++ first_occurrences_from seen l).
Proof.
  revert seen. induction l as [|k l IH]; intros seen Hs; simpl.
  - now rewrite app_nil_r.
  - destruct (mem k seen) eqn:E; [now apply IH|].
    change (k :: first_occurrences_from (seen ++ [k]) l)
      with ([k] ++ first_occurrences_from (seen ++ [k]) l).
    rewrite app_assoc. apply IH.
    apply NoDup_app; [exact Hs | repeat constructor; intros [] |].
    intros x Hx [<-|[]]. apply mem_In in Hx. congruence.
Qed.

(* ------------------------------------------------------------------ *)
(** ** The detail page *)
(* ------------------------------------------------------------------ *)

Lemma count_retries_detail_trace (pg : page) (url : str) :
  count_retries (detail_trace pg url) = 0%nat.
Proof.
  unfold detail_trace, expand_remarks.
  destruct (page_locator _ SHOW_MORE) as [|first rest]; [reflexivity|].
  destruct (is_enabled first), (click_ok first); reflexivity.
Qed.

(** The six reads return when every figure has its element, and the first
    one that has none never returns. *)
Lemma primary_stats_cases (pg : page) (tr : trace) :
  primary_stats pg tr
  = if figures_shown pg tr
    then
      Ok (figure pg tr "[data-rf-test-id='abp-price'] .statsValue.price",
          figure pg tr
            "[data-rf-test-id='abp-monthly-payment-entry-point-estimate']",
          figure pg tr "[data-rf-test-id='abp-beds']",
          figure pg tr "[data-rf-test-id='abp-baths']",
          figure pg tr "[data-rf-test-id='abp-sqFt']",
          figure pg tr "[data-rf-test-id='abp-homeinfo-homeaddress']")
    else Hangs.
Proof.
  unfold primary_stats, figures_shown, STAT_SELECTORS, stat_text, figure.
  cbn [forallb].
  repeat
    match goal with
    | |- context [page_locator (pg tr) ?selector] =>
        destruct (page_locator (pg tr) selector); [reflexivity|]
    end.
  now rewrite !clean_card_stat_Some.
Qed.

(** The record of a page that loads, shows the six figures and has a
    house-info container: the fields of the fragment come from the four
    fragment extractors, the engagement fields from [search_stats]. *)
Lemma scrape_property_detail_ok {U : Unicode} (pg : page) (url : str)
    (status : N) (h : Tag) :
  response (pg [Goto url]) = Some status ->
  (status < 400)%N ->
  figures_shown pg (detail_trace pg url) = true ->
  house_info (pg (detail_trace pg url)) = Some h ->
  exists d,
    _scrape_property_detail pg url
    = (Ok d, snd (search_stats pg (detail_trace pg url) (first_body pg url)))
    /\ PropertyDetails.description d = description_of h
    /\ PropertyDetails.key_details d = key_details_of h
    /\ (PropertyDetails.agent_name d, PropertyDetails.agent_broker d,
        PropertyDetails.agent_profile_url d) = agent_of h
    /\ (PropertyDetails.listing_updated d, PropertyDetails.redfin_checked d,
        PropertyDetails.mls_source d, PropertyDetails.mls_id d) = listing_of h
    /\ (PropertyDetails.on_redfin d, PropertyDetails.views d,
        PropertyDetails.favorites d)
       = match fst (search_stats pg (detail_trace pg url) (first_body pg url)) with
         | Some stats_match =>
             (_clean_card_stat (group stats_match "on_redfin"),
              _clean_card_stat (group stats_match "views"),
              _clean_card_stat (group stats_match "favorites"))
         | None => (None, None, None)
         end.
Proof.
  intros Hr Hs Hf Hh. unfold _scrape_property_detail. rewrite Hr.
  replace (400 <=? status)%N with false
    by (symmetry; apply N.leb_gt; exact Hs).
  fold (first_body pg url). fold (detail_trace pg url).
  rewrite primary_stats_cases, Hf, Hh.
  destruct (agent_of h) as [[agent_name agent_broker] agent_profile_url].
  destruct (search_stats pg (detail_trace pg url) (first_body pg url))
    as [stats_match tr].
  destruct (listing_of h) as [[[listing_updated redfin_checked] mls_source] mls_id].
  destruct stats_match as [stats_match|];
    (eexists; split; [reflexivity|]; cbn; repeat split; reflexivity).
Qed.

(** A record is returned only by a page that loads, shows the six figures
    and has the container. *)
Lemma scrape_property_detail_inv {U : Unicode} (pg : page) (url : str)
    (d : PropertyDetails.t) (tr : trace) :
  _scrape_property_detail pg url = (Ok d, tr) ->
  exists status h,
    response (pg [Goto url]) = Some status
    /\ (status < 400)%N
    /\ figures_shown pg (detail_trace pg url) = true
    /\ house_info (pg (detail_trace pg url)) = Some h.
Proof.
  unfold _scrape_property_detail.
  destruct (response (pg [Goto url])) as [status|]; [|discriminate].
  destruct (N.leb_spec 400 status) as [Hs|Hs]; [discriminate|].
  fold (first_body pg url). fold (detail_trace pg url).
  rewrite primary_stats_cases.
  destruct (figures_shown pg (detail_trace pg url)); [|discriminate].
  destruct (house_info (pg (detail_trace pg url))) as [h|]; [|discriminate].
  intros _. now exists status, h.
Qed.

(** The two lemmas together: what a returned record holds. *)
Lemma scrape_property_detail_fields {U : Unicode} (pg : page) (url : str)
    (d : PropertyDetails.t) (tr : trace) :
  _scrape_property_detail pg url = (Ok d, tr) ->
  exists h,
    house_info (pg (detail_trace pg url)) = Some h
    /\ tr = snd (search_stats pg (detail_trace pg url) (first_body pg url))
    /\ PropertyDetails.key_details d = key_details_of h
    /\ (PropertyDetails.agent_name d, PropertyDetails.agent_broker d,
        PropertyDetails.agent_profile_url d) = agent_of h
    /\ (PropertyDetails.on_redfin d, PropertyDetails.views d,
        PropertyDetails.favorites d)
       = match fst (search_stats pg (detail_trace pg url) (first_body pg url)) with
         | Some stats_match =>
             (_clean_card_stat (group stats_match "on_redfin"),
              _clean_card_stat (group stats_match "views"),
              _clean_card_stat (group stats_match "favorites"))
         | None => (None, None, None)
         end.
Proof.
  intros Hd.
  destruct (scrape_property_detail_inv _ _ _ _ Hd)
    as (status & h & Hr & Hs & Hf & Hh).
  destruct (scrape_property_detail_ok pg url status h Hr Hs Hf Hh)
    as (d' & Hd' & _ & Hk & Ha & _ & He).
  rewrite Hd in Hd'. injection Hd' as <- ->.
  exists h. repeat split; assumption.
Qed.

(** A row without its label node or its value node leaves the dictionary
    as it is. *)
Lemma key_details_loop_skip {U : Unicode} (rows1 rows2 : list Tag) (row : Tag)
    (d : dict) :
  select_one row ".valueType" = None \/ select_one row ".valueText" = None ->
  key_details_loop (rows1 ++ row :: rows2) d
  = key_details_loop (rows1 ++ rows2) d.
Proof.
  intros Hmiss. rewrite !key_details_loop_entries. f_equal.
  induction rows1 as [|r rows1 IH].
  - cbn [app row_entries]. unfold row_entry.
    destruct Hmiss as [-> | ->]; [|destruct (select_one row ".valueType")];
      reflexivity.
  - cbn [app row_entries]. now rewrite IH.
Qed.

(** C10 -- in [key_details] every label occurs once; a label that several
    rows of the details table carry (the "on redfin" rows set aside) stands
    where its first row put it and holds the value of its last row; a row
    that lacks its label node or its value node is passed over. *)
Theorem C10_key_details_mapping {U : Unicode} (pg : page) (url : str)
    (d : PropertyDetails.t) (tr : trace) :
  _scrape_property_detail pg url = (Ok d, tr) ->
  exists h,
    house_info (pg (detail_trace pg url)) = Some h
    /\ let rows := select h KEY_DETAILS_ROWS in
       let key_details := PropertyDetails.key_details d in
       NoDup (map fst key_details)
       /\ map fst key_details = first_occurrences (map fst (row_entries rows))
       /\ (forall label,
              dict_get key_details label = last_value (row_entries rows) label)
       /\ (forall rows1 row rows2,
              rows = rows1 ++ row :: rows2 ->
              select_one row ".valueType" = None
              \/ select_one row ".valueText" = None ->
              key_details = key_details_loop (rows1 ++ rows2) []).
Proof.
  intros Hd.
  destruct (scrape_property_detail_fields _ _ _ _ Hd) as (h & Hh & _ & Hk & _).
  exists h. split; [exact Hh|]. cbv zeta. rewrite Hk.
  unfold key_details_of. fold KEY_DETAILS_ROWS.
  rewrite key_details_loop_entries.
  pose proof (fold_dict_set_keys (row_entries (select h KEY_DETAILS_ROWS)) [])
    as Hkeys. cbn [map app] in Hkeys.
  split; [|split; [exact Hkeys | split]].
  - rewrite Hkeys.
    apply (first_occurrences_from_spec _ []). constructor.
  - intros label. rewrite fold_dict_set_get.
    now destruct (last_value _ label).
  - intros rows1 row rows2 Hrows Hmiss. rewrite Hrows.
    rewrite <- key_details_loop_entries. now apply key_details_loop_skip.
Qed.

Lemma C10_key_details_mapping_witness :
  exists d,
    fst (@_scrape_property_detail basic_latin (detail_page [] sample_table)
           sample_url) = Ok d
    /\ map fst (PropertyDetails.key_details d) = [py "Year Built"; py "Lot Size"]
    /\ dict_get (PropertyDetails.key_details d) (py "Year Built")
       = Some (py "1991").
Proof.
  destruct (@_scrape_property_detail basic_latin (detail_page [] sample_table)
              sample_url) as [[d|e|] tr] eqn:E.
  - exists d. split; [reflexivity|].
    destruct (@C10_key_details_mapping basic_latin _ _ _ _ E)
      as (h & Hh & _ & Hkeys & Hget & _).
    injection Hh as <-. split.
    + rewrite Hkeys. vm_compute. reflexivity.
    + rewrite Hget. vm_compute. reflexivity.
  - vm_compute in E. discriminate E.
  - vm_compute in E. discriminate E.
Defined.

(** The site origin in front of anything makes an absolute URL. *)
Lemma absolute_with_origin (path : str) :
  absolute_url (base_url ++ path) = true.
Proof. reflexivity. Qed.

Lemma agent_of_profile_url (h : Tag) :
  (snd (agent_of h) <> None -> fst (fst (agent_of h)) <> None)
  /\ (forall u, snd (agent_of h) = Some u ->
        exists name_node href,
          nested_node h AGENT AGENT_NAME = Some name_node
          /\ attrs name_node "href" = Some href)
  /\ (forall name_node href,
        nested_node h AGENT AGENT_NAME = Some name_node ->
        attrs name_node "href" = Some href ->
        snd (agent_of h)
        = Some (if truthy href && negb (startswith (py "http") href)
                then base_url ++ href else href)).
Proof.
  unfold agent_of, nested_node. fold AGENT AGENT_NAME AGENT_BROKER.
  destruct (select_one h AGENT) as [agent_section|].
  2:{ cbn. split; [tauto|]. split; intros; congruence. }
  destruct (select_one agent_section AGENT_NAME) as [name_node|] eqn:En.
  2:{ cbn. split; [tauto|]. split; intros; congruence. }
  cbn [fst snd].
  split; [discriminate|]. split.
  - intros u Hu. destruct (attrs name_node "href") as [href|] eqn:Eh;
      [|discriminate].
    now exists name_node, href.
  - intros n href Hn Hhref. injection Hn as <-. rewrite Hhref.
    now destruct (truthy href && negb (startswith (py "http") href)).
Qed.

(** A path that begins with a slash does not begin with "http", and the
    origin in front of it gives a URL of the site. *)
Lemma slash_path (href : str) :
  startswith (py "/") href = true ->
  startswith (py "http") href = false /\ on_site (base_url ++ href) = true.
Proof.
  intros H. apply startswith_prefix in H as [post ->]. split; reflexivity.
Qed.

(** C9, as the code has it -- the agent profile URL is present only if the
    agent name is present, and exactly when the name link has an [href].
    The site origin is put in front of an [href] that is not empty and does
    not begin with "http", which gives an absolute URL, and resolves the
    [href] against the origin when it begins with a slash; an [href] that
    begins with "http" is kept as it is, absolute or not, and so is an empty
    one. *)
Theorem C9_agent_profile_url {U : Unicode} (pg : page) (url : str)
    (d : PropertyDetails.t) (tr : trace) :
  _scrape_property_detail pg url = (Ok d, tr) ->
  (PropertyDetails.agent_profile_url d <> None ->
   PropertyDetails.agent_name d <> None)
  /\ exists h,
       house_info (pg (detail_trace pg url)) = Some h
       /\ (forall u,
             PropertyDetails.agent_profile_url d = Some u ->
             exists name_node href,
               nested_node h AGENT AGENT_NAME = Some name_node
               /\ attrs name_node "href" = Some href)
       /\ forall name_node href,
            nested_node h AGENT AGENT_NAME = Some name_node ->
            attrs name_node "href" = Some href ->
            exists u,
              PropertyDetails.agent_profile_url d = Some u
              /\ (href = [] \/ startswith (py "http") href = true -> u = href)
              /\ (href <> [] -> startswith (py "http") href = false ->
                  u = base_url ++ href)
              /\ (href <> [] ->
                  (startswith (py "http") href = true ->
                   absolute_url href = true) ->
                  absolute_url u = true)
              /\ (startswith (py "/") href = true ->
                  u = base_url ++ href /\ on_site u = true).
Proof.
  intros Hd.
  destruct (scrape_property_detail_fields _ _ _ _ Hd)
    as (h & Hh & _ & _ & Ha & _).
  destruct (agent_of_profile_url h) as (P1 & P2 & P3).
  rewrite <- Ha in P1, P2, P3. cbn [fst snd] in P1, P2, P3.
  split; [exact P1|]. exists h. split; [exact Hh|]. split; [exact P2|].
  intros name_node href Hn Hhref. rewrite (P3 _ _ Hn Hhref).
  eexists. split; [reflexivity|].
  destruct href as [|c href].
  - cbn [truthy andb]. split; [reflexivity|].
    split; [intros H; now destruct H|].
    split; [intros H; now destruct H | discriminate].
  - cbn [truthy andb].
    destruct (startswith (py "http") (c :: href)) eqn:E; cbn [negb].
    + split; [reflexivity|]. split; [discriminate|].
      split; [intros _ H; now apply H|].
      intros Hslash. apply slash_path in Hslash as [Hno _]. congruence.
    + split; [intros [H|H]; discriminate H|]. split; [reflexivity|].
      split; [intros _ _; apply absolute_with_origin|].
      intros Hslash. split; [reflexivity|]. now apply slash_path.
Qed.

Lemma C9_agent_profile_url_witness :
  exists d,
    fst (@_scrape_property_detail basic_latin
           (detail_page [] (agent_fragment (py "Jane Doe") (py "/agent/jane")))
           sample_url) = Ok d
    /\ PropertyDetails.agent_name d <> None
    /\ PropertyDetails.agent_profile_url d
       = Some (py "https://www.redfin.com/agent/jane")
    /\ absolute_url (py "https://www.redfin.com/agent/jane") = true
    /\ on_site (py "https://www.redfin.com/agent/jane") = true.
Proof.
  destruct (@_scrape_property_detail basic_latin
              (detail_page [] (agent_fragment (py "Jane Doe") (py "/agent/jane")))
              sample_url) as [[d|e|] tr] eqn:E.
  - exists d. split; [reflexivity|].
    destruct (@C9_agent_profile_url basic_latin _ _ _ _ E)
      as (Hname & h & Hh & _ & Hurl).
    injection Hh as <-.
    destruct (Hurl (link_tag (py "Jane Doe") (py "/agent/jane"))
                (py "/agent/jane") eq_refl eq_refl)
      as (u & Hu & _ & _ & Habs & Hsite).
    destruct (Hsite eq_refl) as [-> Hon].
    split; [apply Hname; rewrite Hu; discriminate|].
    split; [exact Hu|].
    split; [exact (Habs ltac:(discriminate) ltac:(discriminate)) | exact Hon].
  - vm_compute in E. discriminate E.
  - vm_compute in E. discriminate E.
Defined.

(** C9, as it is worded, fails in three ways.  A name link whose [href] is
    empty gives a profile URL that is present and empty; one whose [href]
    is a relative path beginning with "http" gives that path unchanged;
    neither is an absolute URL.  And a relative path without a slash at its
    start is not resolved against the site origin: the origin is put in
    front of it, and the result names another host. *)
Lemma C9_counterexample :
  (exists d,
     fst (@_scrape_property_detail basic_latin
            (detail_page [] (agent_fragment (py "Jane Doe") []))
            sample_url) = Ok d
     /\ PropertyDetails.agent_name d = Some (py "Jane Doe")
     /\ PropertyDetails.agent_profile_url d = Some []
     /\ absolute_url [] = false)
  /\ (exists d,
        fst (@_scrape_property_detail basic_latin
               (detail_page []
                  (agent_fragment (py "Jane Doe") (py "http-agents/jane")))
               sample_url) = Ok d
        /\ PropertyDetails.agent_name d = Some (py "Jane Doe")
        /\ PropertyDetails.agent_profile_url d = Some (py "http-agents/jane")
        /\ absolute_url (py "http-agents/jane") = false)
  /\ (exists d,
        fst (@_scrape_property_detail basic_latin
               (detail_page []
                  (agent_fragment (py "Jane Doe") (py "agents/jane")))
               sample_url) = Ok d
        /\ PropertyDetails.agent_profile_url d
           = Some (py "https://www.redfin.comagents/jane")
        /\ on_site (py "https://www.redfin.comagents/jane") = false).
Proof.
  repeat split;
    (eexists; split; [vm_compute; reflexivity|]; repeat split; reflexivity).
Qed.

(* ------------------------------------------------------------------ *)
(** ** Missing pieces of the house-info fragment *)
(* ------------------------------------------------------------------ *)

Lemma description_of_node (h : Tag) :
  description_of h = text_of (select_one h DESCRIPTION) [SPACE].
Proof. reflexivity. Qed.

Lemma agent_of_nodes (h : Tag) :
  fst (fst (agent_of h)) = text_of (nested_node h AGENT AGENT_NAME) []
  /\ snd (fst (agent_of h))
     = text_of (nested_node h AGENT AGENT_BROKER) [SPACE]
  /\ (snd (agent_of h) = None
      <-> forall name_node,
            nested_node h AGENT AGENT_NAME = Some name_node ->
            attrs name_node "href" = None).
Proof.
  unfold agent_of, nested_node, text_of. fold AGENT AGENT_NAME AGENT_BROKER.
  destruct (select_one h AGENT) as [agent_section|].
  2:{ cbn. repeat split; intros; congruence. }
  destruct (select_one agent_section AGENT_NAME) as [name_node|].
  2:{ cbn. repeat split; intros; congruence. }
  cbn [fst snd]. split; [reflexivity|]. split; [reflexivity|].
  destruct (attrs name_node "href") as [href|] eqn:Eh.
  - split.
    + destruct (truthy href && negb (startswith (py "http") href));
        discriminate.
    + intros H. specialize (H name_node eq_refl). congruence.
  - split; [|reflexivity]. intros _ n Hn. now injection Hn as <-.
Qed.

Lemma listing_of_nodes (h : Tag) :
  (fst (fst (fst (listing_of h))) = None
   <-> nested_node h LISTING_INFO ".data-quality time" = None)
  /\ (snd (fst (fst (listing_of h))) = None
      <-> nested_node h LISTING_INFO ".data-quality a" = None)
  /\ (snd (fst (listing_of h)) = None
      <-> nested_node h LISTING_INFO ".ListingSource--dataSourceName" = None)
  /\ (snd (listing_of h) = None
      <-> nested_node h LISTING_INFO ".ListingSource--mlsId" = None).
Proof.
  unfold listing_of, nested_node. fold LISTING_INFO.
  destruct (select_one h LISTING_INFO) as [listing_info|].
  2:{ cbn. repeat split; reflexivity. }
  cbn [fst snd].
  destruct (select_one listing_info ".data-quality time"),
    (select_one listing_info ".data-quality a"),
    (select_one listing_info ".ListingSource--dataSourceName"),
    (select_one listing_info ".ListingSource--mlsId");
    repeat split; congruence.
Qed.

Lemma last_value_In (entries : list (str * str)) (k v : str) :
  In (k, v) entries -> last_value entries k <> None.
Proof.
  induction entries as [|[k' v'] entries IH]; [intros []|].
  cbn [last_value]. intros [H|H].
  - injection H as -> ->. destruct (last_value entries k); [discriminate|].
    now rewrite str_eqb_refl.
  - specialize (IH H). now destruct (last_value entries k).
Qed.

Lemma row_entries_complete {U : Unicode} (rows : list Tag)
    (row label value : Tag) :
  In row rows ->
  select_one row ".valueType" = Some label ->
  select_one row ".valueText" = Some value ->
  str_eqb (lower (get_text label [])) (py "on redfin") = false ->
  In (get_text label [], get_text value [SPACE]) (row_entries rows).
Proof.
  intros Hin Hl Hv Hon.
  assert (He : row_entry row
               = Some (get_text label [], get_text value [SPACE]))
    by (unfold row_entry; now rewrite Hl, Hv, Hon).
  induction rows as [|r rows IH]; [contradiction|].
  cbn [row_entries]. destruct Hin as [->|Hin].
  - rewrite He. now left.
  - destruct (row_entry r); [right|]; now apply IH.
Qed.

(** C1 -- on a detail page that loads, shows the six primary figures and
    has the house-info container, the detail extraction returns a record
    whatever the fragment in the container lacks.  Each piece is absent
    exactly when its own node is missing, and holds the text of that node
    otherwise: the description; the agent name and broker, each from its
    node in the agent block; the agent profile URL; the four fields of the
    listing-info block.  Without rows the mapping of key details is empty; a
    row that lacks its label or its value node changes nothing in it, and
    every other row puts its label into it (the "on redfin" rows set
    aside). *)
Theorem C1_missing_sub_elements_tolerated {U : Unicode} (pg : page)
    (url : str) (status : N) (h : Tag) :
  response (pg [Goto url]) = Some status ->
  (status < 400)%N ->
  figures_shown pg (detail_trace pg url) = true ->
  house_info (pg (detail_trace pg url)) = Some h ->
  exists d tr,
    _scrape_property_detail pg url = (Ok d, tr)
    /\ PropertyDetails.description d
       = text_of (select_one h DESCRIPTION) [SPACE]
    /\ (select h KEY_DETAILS_ROWS = [] -> PropertyDetails.key_details d = [])
    /\ (forall rows1 row rows2,
          select h KEY_DETAILS_ROWS = rows1 ++ row :: rows2 ->
          select_one row ".valueType" = None
          \/ select_one row ".valueText" = None ->
          PropertyDetails.key_details d = key_details_loop (rows1 ++ rows2) [])
    /\ (forall row label value,
          In row (select h KEY_DETAILS_ROWS) ->
          select_one row ".valueType" = Some label ->
          select_one row ".valueText" = Some value ->
          str_eqb (lower (get_text label [])) (py "on redfin") = false ->
          dict_get (PropertyDetails.key_details d) (get_text label [])
          <> None)
    /\ PropertyDetails.agent_name d
       = text_of (nested_node h AGENT AGENT_NAME) []
    /\ PropertyDetails.agent_broker d
       = text_of (nested_node h AGENT AGENT_BROKER) [SPACE]
    /\ (PropertyDetails.agent_profile_url d = None
        <-> forall name_node,
              nested_node h AGENT AGENT_NAME = Some name_node ->
              attrs name_node "href" = None)
    /\ (PropertyDetails.listing_updated d = None
        <-> nested_node h LISTING_INFO ".data-quality time" = None)
    /\ (PropertyDetails.redfin_checked d = None
        <-> nested_node h LISTING_INFO ".data-quality a" = None)
    /\ (PropertyDetails.mls_source d = None
        <-> nested_node h LISTING_INFO ".ListingSource--dataSourceName"
            = None)
    /\ (PropertyDetails.mls_id d = None
        <-> nested_node h LISTING_INFO ".ListingSource--mlsId" = None).
Proof.
  intros Hr Hs Hf Hh.
  destruct (scrape_property_detail_ok pg url status h Hr Hs Hf Hh)
    as (d & Hd & Hdesc & Hkd & Hagent & Hlisting & _).
  exists d, (snd (search_stats pg (detail_trace pg url) (first_body pg url))).
  destruct (agent_of_nodes h) as (A1 & A2 & A3).
  destruct (listing_of_nodes h) as (L1 & L2 & L3 & L4).
  rewrite <- Hagent in A1, A2, A3. rewrite <- Hlisting in L1, L2, L3, L4.
  cbn [fst snd] in A1, A2, A3, L1, L2, L3, L4.
  split; [exact Hd|].
  split; [rewrite Hdesc; apply description_of_node|].
  assert (Hrows : PropertyDetails.key_details d
                  = key_details_loop (select h KEY_DETAILS_ROWS) [])
    by (rewrite Hkd; reflexivity).
  split; [intros E; rewrite Hrows, E; reflexivity|].
  split.
  { intros rows1 row rows2 E Hmiss. rewrite Hrows, E.
    now apply key_details_loop_skip. }
  split.
  { intros row label value Hin Hl Hv Hon.
    rewrite Hrows, key_details_loop_entries, fold_dict_set_get.
    pose proof (last_value_In _ _ _
                  (row_entries_complete _ _ _ _ Hin Hl Hv Hon)) as Hlast.
    now destruct (last_value _ (get_text label [])). }
  repeat split; assumption || (now apply A3) || (now apply L1)
    || (now apply L2) || (now apply L3) || (now apply L4).
Qed.

Lemma C1_missing_sub_elements_tolerated_witness :
  exists d tr,
    @_scrape_property_detail basic_latin (detail_page [] partial_fragment)
      sample_url = (Ok d, tr)
    /\ PropertyDetails.description d = Some (py "Bright corner lot.")
    /\ PropertyDetails.key_details d = [(py "Year Built", py "1990")]
    /\ PropertyDetails.agent_name d = Some (py "Jane Doe")
    /\ PropertyDetails.agent_broker d = None
    /\ PropertyDetails.agent_profile_url d <> None
    /\ PropertyDetails.listing_updated d = None
    /\ PropertyDetails.redfin_checked d = None
    /\ PropertyDetails.mls_source d = None
    /\ PropertyDetails.mls_id d = None.
Proof.
  destruct (@C1_missing_sub_elements_tolerated basic_latin
              (detail_page [] partial_fragment) sample_url 200%N
              partial_fragment eq_refl eq_refl eq_refl eq_refl)
    as (d & tr & Hd & Hdesc & _ & Hskip & _ & Hname & Hbroker & Hurl
        & L1 & L2 & L3 & L4).
  exists d, tr. split; [exact Hd|]. split; [exact Hdesc|].
  split.
  { exact (Hskip [details_row (py "Year Built") (py "1990")] empty_tag []
             eq_refl (or_introl eq_refl)). }
  split; [exact Hname|]. split; [exact Hbroker|].
  split.
  { intros Hnone.
    discriminate (proj1 Hurl Hnone
                    (link_tag (py "Jane Doe") (py "/agent/jane")) eq_refl). }
  split; [now apply L1|]. split; [now apply L2|].
  split; [now apply L3 | now apply L4].
Defined.

(** A page without the house-info container: the script that reads its
    outer HTML fails, and nothing catches the exception. *)
Lemma scrape_property_detail_no_container {U : Unicode} (pg : page)
    (url : str) (status : N) :
  response (pg [Goto url]) = Some status ->
  (status < 400)%N ->
  figures_shown pg (detail_trace pg url) = true ->
  house_info (pg (detail_trace pg url)) = None ->
  _scrape_property_detail pg url = (Error PlaywrightError, detail_trace pg url).
Proof.
  intros Hr Hs Hf Hh. unfold _scrape_property_detail. rewrite Hr.
  replace (400 <=? status)%N with false
    by (symmetry; apply N.leb_gt; exact Hs).
  fold (detail_trace pg url). now rewrite primary_stats_cases, Hf, Hh.
Qed.

(** A page that lacks the element of a primary figure: the read of that
    figure waits for it without end, whatever else the page has. *)
Lemma scrape_property_detail_no_figure {U : Unicode} (pg : page)
    (url : str) (status : N) :
  response (pg [Goto url]) = Some status ->
  (status < 400)%N ->
  figures_shown pg (detail_trace pg url) = false ->
  _scrape_property_detail pg url = (Hangs, detail_trace pg url).
Proof.
  intros Hr Hs Hf. unfold _scrape_property_detail. rewrite Hr.
  replace (400 <=? status)%N with false
    by (symmetry; apply N.leb_gt; exact Hs).
  fold (detail_trace pg url). now rewrite primary_stats_cases, Hf.
Qed.

(* ------------------------------------------------------------------ *)
(** ** The engagement counters *)
(* ------------------------------------------------------------------ *)

Section Regex.

Context {U : Unicode}.

Lemma one_or_more_some {R : Type} (cs : charset)
    (k : str -> groups -> option R) (s : str) (opened : groups) (r : R) :
  one_or_more cs k s opened = Some r ->
  exists s' opened', k s' opened' = Some r.
Proof.
  revert opened. induction s as [|c s IH]; intros opened; simpl;
    [discriminate|].
  destruct (charset_matches cs c); [|discriminate].
  destruct (one_or_more cs k s (consume c opened)) as [r'|] eqn:E.
  - intros H. inversion H; subst. now apply IH in E.
  - intros H. now exists s, (consume c opened).
Qed.

(** A successful match has closed every group of the pattern. *)
Lemma match_here_groups (p : pattern) (s : str)
    (opened closed m : groups) :
  match_here p s opened closed = Some m ->
  (forall name, assoc name closed <> None -> assoc name m <> None)
  /\ (forall name, In (GroupEnd name) p -> assoc name m <> None).
Proof.
  revert s opened closed.
  induction p as [|i p IH]; intros s opened closed H.
  - inversion H; subst. split; [auto | intros name []].
  - destruct i as [cs|cs|n|n]; cbn [match_here] in H.
    + destruct s as [|c s]; [discriminate|].
      destruct (charset_matches cs c); [|discriminate].
      apply IH in H as [H1 H2]. split; [exact H1|].
      intros name [E|Hin]; [discriminate | now apply H2].
    + apply one_or_more_some in H as (s' & opened' & H).
      apply IH in H as [H1 H2]. split; [exact H1|].
      intros name [E|Hin]; [discriminate | now apply H2].
    + apply IH in H as [H1 H2]. split; [exact H1|].
      intros name [E|Hin]; [discriminate | now apply H2].
    + destruct (assoc n opened) as [text|]; [|discriminate].
      apply IH in H as [H1 H2]. split.
      * intros name Hc. apply H1. cbn [assoc].
        now destruct (String.eqb n name).
      * intros name [E|Hin]; [|now apply H2].
        inversion E; subst. apply H1. cbn [assoc].
        now rewrite String.eqb_refl.
Qed.

Lemma search_some (p : pattern) (s : str) (m : groups) :
  search p s = Some m -> exists s', match_here p s' [] [] = Some m.
Proof.
  induction s as [|c s IH]; cbn [search].
  - destruct (match_here p [] [] []) as [m'|] eqn:E; [|discriminate].
    intros H. inversion H; subst. now exists [].
  - destruct (match_here p (c :: s) [] []) as [m'|] eqn:E.
    + intros H. inversion H; subst. now exists (c :: s).
    + exact IH.
Qed.

(** A match of [stats_pattern] has its three groups. *)
Lemma stats_pattern_groups (body_text : str) (m : groups) :
  search stats_pattern body_text = Some m ->
  exists a b c,
    group m "on_redfin" = Some a /\ group m "views" = Some b
    /\ group m "favorites" = Some c.
Proof.
  intros H. apply search_some in H as (s' & H).
  apply match_here_groups in H as [_ H]. unfold group.
  assert (G : forall name, In (GroupEnd name) stats_pattern ->
                exists t, assoc name m = Some t).
  { intros name Hin. specialize (H name Hin).
    destruct (assoc name m) as [t|]; [now exists t | contradiction]. }
  destruct (G "on_redfin") as [a Ha]; [vm_compute; tauto|].
  destruct (G "views") as [b Hb]; [vm_compute; tauto|].
  destruct (G "favorites") as [c Hc]; [vm_compute; tauto|].
  now exists a, b, c.
Qed.

(** Where no match starts inside [pre], the search goes on behind it. *)
Lemma search_skip (p : pattern) (pre rest : str) :
  (forall i, (i < List.length pre)%nat ->
     match_here p (skipn i (pre ++ rest)) [] [] = None) ->
  search p (pre ++ rest) = search p rest.
Proof.
  induction pre as [|c pre IH]; intros H; [reflexivity|].
  pose proof (H 0%nat ltac:(simpl; lia)) as H0. cbn [skipn app] in H0.
  cbn [app search]. rewrite H0. apply IH.
  intros i Hi. apply (H (S i)). simpl. lia.
Qed.

(** The example line matches where it starts, whatever follows it. *)
Lemma match_engagement_example (post : str) :
  match_here stats_pattern (engagement_example ++ post) [] []
  = Some [("favorites", py "89 favorites"); ("views", py "567 views");
          ("on_redfin", py "1,234 people on Redfin")].
Proof. reflexivity. Qed.

Lemma stats_match_populated (body_text : str) (m : groups)
    (d : PropertyDetails.t) :
  search stats_pattern body_text = Some m ->
  (PropertyDetails.on_redfin d, PropertyDetails.views d,
   PropertyDetails.favorites d)
  = (_clean_card_stat (group m "on_redfin"),
     _clean_card_stat (group m "views"),
     _clean_card_stat (group m "favorites")) ->
  populated_from d m.
Proof.
  intros Hm Hd. inversion Hd as [[H1 H2 H3]].
  destruct (stats_pattern_groups _ _ Hm) as (a & b & c & Ha & Hb & Hc).
  unfold populated_from. rewrite H1, H2, H3, Ha, Hb, Hc.
  rewrite !clean_card_stat_Some. repeat split; discriminate.
Qed.

(** No match of [stats_pattern] starts at a character that is neither a
    digit nor a comma. *)
Lemma stats_pattern_needs_digit (c : N) (s : str) :
  charset_matches digits_and_comma c = false ->
  match_here stats_pattern (c :: s) [] [] = None.
Proof.
  intros H. change (match_here stats_pattern (c :: s) [] [])
    with (if charset_matches digits_and_comma c
          then match
                 one_or_more digits_and_comma
                   (fun s' opened' =>
                      match_here (skipn 2 stats_pattern) s' opened' [])
                   s (consume c [("on_redfin", [])])
               with
               | Some r => Some r
               | None =>
                   match_here (skipn 2 stats_pattern) s
                     (consume c [("on_redfin", [])]) []
               end
          else None).
  now rewrite H.
Qed.

(** So a text without digit and comma holds no start of a match. *)
Lemma no_match_in_prefix (pre rest : str) :
  forallb (fun c => negb (charset_matches digits_and_comma c)) pre = true ->
  forall i, (i < List.length pre)%nat ->
    match_here stats_pattern (skipn i (pre ++ rest)) [] [] = None.
Proof.
  induction pre as [|c pre IH]; intros Hpre i Hi; [simpl in Hi; lia|].
  cbn [forallb] in Hpre. apply andb_true_iff in Hpre as [Hc Hpre].
  destruct i as [|i].
  - apply stats_pattern_needs_digit. now apply negb_true_iff.
  - apply IH; [exact Hpre | simpl in Hi; lia].
Qed.

End Regex.

(** C8, as the code has it -- the three engagement fields of a detail
    record come from one match of the pattern on the body text, found at
    once or at the single retry after the pause, and then none of them is
    absent; or, the retry made once and failed, all three are absent.  On a
    page that gives a record (it loads, shows the six primary figures and
    has the house-info container), a body text that contains "1,234 people
    on Redfin • 567 views • 89 favorites", with no match of the pattern
    starting before it, yields the three values of that line. *)
Theorem C8_engagement_fields {U : Unicode} (pg : page) (url : str) :
  (forall d tr,
      _scrape_property_detail pg url = (Ok d, tr) ->
      match search stats_pattern (first_body pg url) with
      | Some m => populated_from d m /\ count_retries tr = 0%nat
      | None =>
          count_retries tr = 1%nat
          /\ match retry_body pg url with
             | Some body_text =>
                 match search stats_pattern body_text with
                 | Some m => populated_from d m
                 | None => all_absent d
                 end
             | None => all_absent d
             end
      end)
  /\ (forall status h pre post,
        response (pg [Goto url]) = Some status ->
        (status < 400)%N ->
        figures_shown pg (detail_trace pg url) = true ->
        house_info (pg (detail_trace pg url)) = Some h ->
        first_body pg url = pre ++ engagement_example ++ post ->
        (forall i, (i < List.length pre)%nat ->
           match_here stats_pattern
             (skipn i (pre ++ engagement_example ++ post)) [] [] = None) ->
        exists d tr,
          _scrape_property_detail pg url = (Ok d, tr)
          /\ PropertyDetails.on_redfin d = Some (py "1,234 people on Redfin")
          /\ PropertyDetails.views d = Some (py "567 views")
          /\ PropertyDetails.favorites d = Some (py "89 favorites")).
Proof.
  split.
  - intros d tr Hd.
    destruct (scrape_property_detail_fields _ _ _ _ Hd)
      as (h & _ & -> & _ & _ & He).
    clear Hd.
    assert (Hone : count_retries (WaitForTimeout 800 :: detail_trace pg url)
                   = 1%nat).
    { unfold count_retries. cbn [filter is_retry_pause List.length].
      f_equal. apply count_retries_detail_trace. }
    revert He. unfold search_stats, retry_body.
    destruct (search stats_pattern (first_body pg url)) as [m|] eqn:E1.
    + cbn [fst snd]. intros He.
      split; [now apply (stats_match_populated _ _ _ E1)|].
      apply count_retries_detail_trace.
    + destruct (body_inner_text (pg (WaitForTimeout 800 :: detail_trace pg url)))
        as [body_text|]; cbn [fst snd].
      * destruct (search stats_pattern body_text) as [m|] eqn:E2;
          intros He; (split; [exact Hone|]).
        -- now apply (stats_match_populated _ _ _ E2).
        -- injection He as A1 A2 A3. now repeat split.
      * intros He. split; [exact Hone|]. injection He as A1 A2 A3.
        now repeat split.
  - intros status h pre post Hr Hs Hf Hh Hbody Hpre.
    destruct (scrape_property_detail_ok pg url status h Hr Hs Hf Hh)
      as (d & Hd & _ & _ & _ & _ & He).
    exists d, (snd (search_stats pg (detail_trace pg url) (first_body pg url))).
    split; [exact Hd|].
    revert He. unfold search_stats.
    rewrite Hbody, (search_skip _ _ _ Hpre).
    change (search stats_pattern (engagement_example ++ post))
      with (match match_here stats_pattern (engagement_example ++ post) [] []
            with
            | Some m => Some m
            | None => search stats_pattern (skipn 1 (engagement_example ++ post))
            end).
    rewrite match_engagement_example. cbn [fst].
    intros He. injection He as A1 A2 A3. now repeat split.
Qed.

Lemma C8_engagement_fields_witness :
  exists d tr,
    @_scrape_property_detail basic_latin engagement_page sample_url = (Ok d, tr)
    /\ PropertyDetails.on_redfin d = Some (py "1,234 people on Redfin")
    /\ PropertyDetails.views d = Some (py "567 views")
    /\ PropertyDetails.favorites d = Some (py "89 favorites")
    /\ count_retries tr = 0%nat.
Proof.
  destruct (@C8_engagement_fields basic_latin engagement_page sample_url)
    as [HA HB].
  destruct (HB 200%N empty_tag (py "Home ") (py " more")
              eq_refl eq_refl eq_refl eq_refl eq_refl
              (@no_match_in_prefix basic_latin (py "Home ")
                 (engagement_example ++ py " more") eq_refl))
    as (d & tr & Hd & H1 & H2 & H3).
  exists d, tr. repeat (split; [assumption|]).
  pose proof (HA d tr Hd) as H.
  replace (@search basic_latin stats_pattern (first_body engagement_page sample_url))
    with (Some [("favorites", py "89 favorites"); ("views", py "567 views");
                ("on_redfin", py "1,234 people on Redfin")]) in H
    by (vm_compute; reflexivity).
  exact (proj2 H).
Defined.

(** C8, as it is worded, fails: a body text may contain the example line
    and an engagement line before it; the search returns the leftmost match,
    and the fields hold the values of the earlier line. *)
Lemma C8_counterexample :
  (exists pre post, two_engagement_lines = pre ++ engagement_example ++ post)
  /\ exists d,
       fst (@_scrape_property_detail basic_latin
              (detail_page two_engagement_lines empty_tag) sample_url) = Ok d
       /\ PropertyDetails.on_redfin d = Some (py "7 people on Redfin")
       /\ PropertyDetails.views d = Some (py "1 views")
       /\ PropertyDetails.favorites d = Some (py "2 favorites")
       /\ PropertyDetails.on_redfin d <> Some (py "1,234 people on Redfin").
Proof.
  split.
  - exists (py "7 people on Redfin " ++ [BULLET] ++ py " 1 views " ++ [BULLET]
            ++ py " 2 favorites" ++ [10%N]), [].
    vm_compute. reflexivity.
  - eexists. split; [vm_compute; reflexivity|].
    repeat split; try reflexivity. discriminate.
Qed.

(* ------------------------------------------------------------------ *)
(** ** The contract's examples, run *)
(* ------------------------------------------------------------------ *)

(** "Pending" in an element of class [statusLabel] is returned as it is. *)
Example status_badge_pending :
  @_extract_status_badge basic_latin
    (status_page (py " Pending ") (py "A home")) []
  = Some (py "Pending").
Proof. reflexivity. Qed.

(** With no status element that matches, the line of the body text that
    names a status is returned whole. *)
Example status_badge_off_market :
  @_extract_status_badge basic_latin
    (status_page (py "3 bed")
       (py "12 Elm St" ++ [10%N] ++ py "This home is Off Market" ++ [10%N]
        ++ py "Sold nearby")) []
  = Some (py "This home is Off Market").
Proof. reflexivity. Qed.

(** A candidate of more than 80 characters is passed over by the first
    tier; the second tier has no such bound and returns the same text when
    it is a line of the body. *)
Example status_badge_long_candidate :
  let long := py "Active " ++ repeat 120%N 80 in
  @_extract_status_badge basic_latin (status_page long []) [] = None
  /\ @_extract_status_badge basic_latin (status_page long long) [] = Some long.
Proof. split; reflexivity. Qed.

(** The row labelled "On Redfin" stays out of the mapping. *)
Example key_details_without_on_redfin :
  @key_details_of basic_latin sample_table
  = [(py "Year Built", py "1991"); (py "Lot Size", py "0.25 acres")].
Proof. reflexivity. Qed.

(** A detail page that shows every primary figure but the square feet: the
    extraction stops at that read for good, after the wait for the price. *)
Example detail_without_sqft :
  @_scrape_property_detail basic_latin
    (page_without_figure "[data-rf-test-id='abp-sqFt']") sample_url
  = (Hangs, [WaitForSelector PRICE; Goto sample_url]).
Proof. reflexivity. Qed.

(** "#MLS1234" becomes "MLS ID: MLS1234". *)
Example mls_id_without_hash :
  snd (listing_of (mls_fragment (py "#MLS1234"))) = Some (py "MLS ID: MLS1234").
Proof. reflexivity. Qed.

(* ================================================================== *)
(** * Further properties *)
(* ================================================================== *)

(* ------------------------------------------------------------------ *)
(** ** The normaliser: shape, content, composition *)
(* ------------------------------------------------------------------ *)

Lemma spaced_word (w rest : str) :
  forallb (fun c => negb (isspace c)) w = true ->
  spaced (w ++ rest) = spaced rest.
Proof.
  induction w as [|c w IH]; intros Hw; [reflexivity|].
  cbn [forallb] in Hw. apply andb_true_iff in Hw as [Hc Hw].
  cbn [app spaced]. apply negb_true_iff in Hc. rewrite Hc. now apply IH.
Qed.

Lemma is_normal_join (ws : list str) :
  Forall is_word ws -> is_normal (join [SPACE] ws) = true.
Proof.
  induction 1 as [|w ws [Hne Hw] Hws IH]; [reflexivity|].
  rewrite join_cons. destruct w as [|c w]; [contradiction|].
  cbn [forallb] in Hw. apply andb_true_iff in Hw as [Hc Hw].
  cbn [app is_normal]. unfold nonspace at 1. rewrite Hc. cbn [andb].
  rewrite (spaced_word _ _ Hw).
  destruct ws as [|w' ws]; [reflexivity|].
  change ([SPACE] ++ join [SPACE] (w' :: ws))
    with (SPACE :: join [SPACE] (w' :: ws)).
  cbn [spaced]. change (isspace SPACE) with true. cbv iota.
  rewrite N.eqb_refl. cbn [andb].
  pose proof (join_words_nonempty (w' :: ws) Hws ltac:(discriminate)) as Hj.
  destruct (join [SPACE] (w' :: ws)) as [|c' r]; [contradiction|].
  cbn [is_normal] in IH. apply andb_true_iff in IH as [A B].
  rewrite A. cbn [andb spaced]. unfold nonspace in A.
  apply negb_true_iff in A. now rewrite A.
Qed.

Lemma spaced_collapse_runs (s : str) :
  spaced s = true -> collapse_runs s = s.
Proof.
  induction s as [|c s IH]; [reflexivity|].
  cbn [spaced]. destruct (isspace c) eqn:E.
  - intros H. apply andb_true_iff in H as [H Hs].
    apply andb_true_iff in H as [Hc Hn]. apply N.eqb_eq in Hc. subst c.
    destruct s as [|c' s]; [discriminate|].
    unfold nonspace in Hn. apply negb_true_iff in Hn.
    change (collapse_runs (SPACE :: c' :: s))
      with (if isspace SPACE
            then if isspace c' then collapse_runs (c' :: s)
                 else SPACE :: collapse_runs (c' :: s)
            else SPACE :: collapse_runs (c' :: s)).
    rewrite E, Hn. now rewrite IH.
  - intros H. rewrite (collapse_runs_char _ _ E). now rewrite IH.
Qed.

Lemma spaced_rstrip (s : str) : spaced s = true -> rstrip s = s.
Proof.
  induction s as [|c s IH]; [reflexivity|].
  cbn [spaced rstrip]. destruct (isspace c) eqn:E.
  - intros H. apply andb_true_iff in H as [H Hs].
    apply andb_true_iff in H as [_ Hn].
    rewrite (IH Hs). destruct s; [discriminate | reflexivity].
  - intros Hs. rewrite (IH Hs). now destruct s.
Qed.

Lemma is_normal_trimmed (s : str) :
  is_normal s = true -> lstrip s = s /\ rstrip s = s.
Proof.
  destruct s as [|c s]; [now split|].
  cbn [is_normal]. intros H. apply andb_true_iff in H as [Hc Hs].
  unfold nonspace in Hc. apply negb_true_iff in Hc. split.
  - simpl. now rewrite Hc.
  - rewrite (rstrip_char _ _ Hc). now rewrite (spaced_rstrip _ Hs).
Qed.

Lemma is_normal_fixed (s : str) : is_normal s = true -> clean_text s = s.
Proof.
  intros H. rewrite clean_text_spec. unfold normalize_spec, strip.
  destruct (is_normal_trimmed _ H) as [Hl Hr].
  assert (Hc : collapse_runs s = s).
  { destruct s as [|c s]; [reflexivity|].
    cbn [is_normal] in H. apply andb_true_iff in H as [Hc Hs].
    unfold nonspace in Hc. apply negb_true_iff in Hc.
    rewrite (collapse_runs_char _ _ Hc). now rewrite (spaced_collapse_runs _ Hs). }
  now rewrite Hc, Hl, Hr.
Qed.

Lemma clean_text_normal (v : str) : is_normal (clean_text v) = true.
Proof.
  rewrite clean_text_split. apply is_normal_join.
  apply split_from_words. reflexivity.
Qed.

(** X1 -- what [_clean_card_stat] returns for a string is in normal form:
    it neither begins nor ends with white space, and every white character
    in it is a single ASCII space between two words.  The strings the
    normaliser leaves unchanged are exactly the normal forms. *)
Theorem X1_clean_card_stat_normal_form (v : str) :
  (exists r, _clean_card_stat (Some v) = Some r /\ is_normal r = true)
  /\ (is_normal v = true <-> _clean_card_stat (Some v) = Some v).
Proof.
  rewrite clean_card_stat_Some. split.
  - exists (clean_text v). split; [reflexivity | apply clean_text_normal].
  - split.
    + intros H. now rewrite is_normal_fixed.
    + intros H. injection H as H. rewrite <- H. apply clean_text_normal.
Qed.

Lemma concat_split_from (s cur : str) :
  List.concat (split_from cur s) = rev cur ++ filter nonspace s.
Proof.
  revert cur. induction s as [|c s IH]; intros cur.
  - simpl. destruct cur; simpl; now rewrite ?app_nil_r.
  - cbn [split_from filter]. unfold nonspace at 1.
    destruct (isspace c) eqn:E; cbn [negb].
    + destruct cur as [|k cur]; [apply IH|].
      cbn [List.concat]. now rewrite IH.
    + rewrite IH. cbn [rev]. now rewrite <- app_assoc.
Qed.

Lemma filter_nonspace_join (ws : list str) :
  filter nonspace (join [SPACE] ws) = filter nonspace (List.concat ws).
Proof.
  induction ws as [|w ws IH]; [reflexivity|].
  rewrite join_cons. cbn [List.concat]. rewrite !filter_app. f_equal.
  destruct ws as [|w' ws]; [reflexivity|].
  rewrite filter_app. exact IH.
Qed.

Lemma length_join_split_from (s cur : str) :
  (List.length (join [SPACE] (split_from cur s))
   <= List.length cur + List.length s)%nat.
Proof.
  revert cur. induction s as [|c s IH]; intros cur.
  - simpl. destruct cur; simpl; [lia|]. rewrite length_app, length_rev.
    simpl. lia.
  - cbn [split_from]. destruct (isspace c).
    + destruct cur as [|k cur].
      * specialize (IH []). simpl in *. lia.
      * rewrite join_cons, length_app, length_rev. specialize (IH []).
        destruct (split_from [] s); simpl in *; lia.
    + specialize (IH (c :: cur)). simpl in *. lia.
Qed.

(** X2 -- the normaliser changes white space only: the characters of the
    result that are not white are those of the input, in the same order,
    and the result is never longer than the input. *)
Theorem X2_clean_card_stat_keeps_text (v : str) :
  exists r,
    _clean_card_stat (Some v) = Some r
    /\ filter nonspace r = filter nonspace v
    /\ (List.length r <= List.length v)%nat.
Proof.
  exists (clean_text v). rewrite clean_card_stat_Some, clean_text_split.
  split; [reflexivity|]. split.
  - rewrite filter_nonspace_join. unfold split. rewrite concat_split_from.
    cbn [rev app]. clear. induction v as [|c v IH]; [reflexivity|].
    cbn [filter]. destruct (nonspace c) eqn:E; [|exact IH].
    cbn [filter]. now rewrite E, IH.
  - apply (length_join_split_from v []).
Qed.

Lemma split_lstrip (s : str) : split (lstrip s) = split s.
Proof.
  unfold split. induction s as [|c s IH]; [reflexivity|].
  simpl. destruct (isspace c) eqn:E; [exact IH|].
  simpl. now rewrite E.
Qed.

Lemma split_from_cons_congr (a b : str) (c : N) (cur : str) :
  (forall x, split_from x a = split_from x b) ->
  split_from cur (c :: a) = split_from cur (c :: b).
Proof.
  intros H. cbn [split_from].
  destruct (isspace c); [destruct cur|]; now rewrite H.
Qed.

Lemma split_from_rstrip (s cur : str) :
  split_from cur (rstrip s) = split_from cur s.
Proof.
  revert cur. induction s as [|c s IH]; intros cur; [reflexivity|].
  cbn [rstrip]. destruct (rstrip s) as [|k r] eqn:Er.
  - destruct (isspace c) eqn:E.
    + cbn [split_from]. rewrite E. rewrite <- (IH []). now destruct cur.
    + cbn [split_from]. rewrite E. rewrite <- IH. reflexivity.
  - now apply split_from_cons_congr.
Qed.

Lemma clean_text_strip (s : str) : clean_text (strip s) = clean_text s.
Proof.
  rewrite !clean_text_split. f_equal. unfold strip, split.
  rewrite split_from_rstrip. apply split_lstrip.
Qed.

(** X3 -- trimming and normalising compose as one would hope: trimming a
    string before it is normalised changes nothing, and a normalised string
    has nothing left to trim. *)
Theorem X3_clean_card_stat_absorbs_strip (v : str) :
  _clean_card_stat (Some (strip v)) = _clean_card_stat (Some v)
  /\ exists r, _clean_card_stat (Some v) = Some r /\ strip r = r.
Proof.
  rewrite !clean_card_stat_Some, clean_text_strip. split; [reflexivity|].
  exists (clean_text v). split; [reflexivity|].
  destruct (is_normal_trimmed _ (clean_text_normal v)) as [Hl Hr].
  unfold strip. now rewrite Hl, Hr.
Qed.

(* ------------------------------------------------------------------ *)
(** ** The card field extractor: what a returned record holds *)
(* ------------------------------------------------------------------ *)

(** A returned record has its address, its title, and a detail URL that
    begins with "http". *)
Lemma parse_home_card_present (card_locator : element) (card : HomeCard.t) :
  _parse_home_card card_locator = Ok card ->
  HomeCard.address card <> None
  /\ HomeCard.title card <> None
  /\ startswith (py "http") (HomeCard.detail_url card) = true.
Proof.
  unfold _parse_home_card.
  destruct (locator card_locator "a.bp-Homecard__Address") as [|anchor others];
    [discriminate|].
  destruct (get_attribute anchor "href") as [[|c href]|]; try discriminate.
  destruct (startswith (py "http") (c :: href)) eqn:Eh;
    intros E; injection E as <-;
    cbn [HomeCard.address HomeCard.title HomeCard.detail_url];
    (split; [discriminate|]);
    (split; [destruct (get_attribute card_locator "title") as [[|k t]|];
             discriminate|]);
    [exact Eh | reflexivity].
Qed.

(** X4 -- [_parse_home_card] always ends; it raises nothing but the
    missing-link error, and only for a card whose link is absent or empty;
    the detail URL of a
    record it returns is the link itself when that begins with "http" and
    the site origin followed by the link otherwise, so it always begins
    with "http". *)
Theorem X4_parse_home_card_outcome (card_locator : element) :
  match _parse_home_card card_locator with
  | Ok card =>
      exists href,
        detail_path_of card_locator = Some href
        /\ href <> []
        /\ HomeCard.detail_url card
           = (if startswith (py "http") href then href else base_url ++ href)
        /\ startswith (py "http") (HomeCard.detail_url card) = true
  | Error e => e = MissingDetailLink /\ no_detail_link card_locator
  | Hangs => False
  end.
Proof.
  destruct (_parse_home_card card_locator) as [card|e|] eqn:E;
    [|now apply parse_home_card_error
     |now apply parse_home_card_returns in E].
  revert E. unfold _parse_home_card, detail_path_of.
  destruct (locator card_locator "a.bp-Homecard__Address") as [|first rest];
    [discriminate|].
  destruct (get_attribute first "href") as [[|c href]|]; try discriminate.
  destruct (startswith (py "http") (c :: href)) eqn:Eh;
    intros E; injection E as <-; exists (c :: href);
    cbn [HomeCard.detail_url];
    (split; [reflexivity|]); (split; [discriminate|]);
    (split; [now rewrite Eh|]); [exact Eh | reflexivity].
Qed.

(** X5 -- a record [_parse_home_card] returns always has an address and a
    title, though both are optional in [HomeCard]: the link is read from
    the address anchor, so the anchor exists.  The address is the trimmed
    text of the anchor; the title is the trimmed [title] attribute whenever
    that attribute is not empty (even if trimming leaves nothing), and the
    address otherwise. *)
Theorem X5_parse_home_card_title_and_address (card_locator : element)
    (card : HomeCard.t) :
  _parse_home_card card_locator = Ok card ->
  (exists anchor others,
      locator card_locator "a.bp-Homecard__Address" = anchor :: others
      /\ HomeCard.address card = Some (strip (inner_text anchor)))
  /\ HomeCard.title card <> None
  /\ (forall t,
        get_attribute card_locator "title" = Some t -> t <> [] ->
        HomeCard.title card = Some (strip t))
  /\ (get_attribute card_locator "title" = None
      \/ get_attribute card_locator "title" = Some [] ->
      HomeCard.title card = HomeCard.address card).
Proof.
  unfold _parse_home_card.
  destruct (locator card_locator "a.bp-Homecard__Address") as [|anchor others];
    [discriminate|].
  destruct (get_attribute anchor "href") as [[|c href]|]; try discriminate.
  intros E. injection E as <-. cbn [HomeCard.address HomeCard.title].
  split; [now exists anchor, others|]. split; [|split].
  - destruct (get_attribute card_locator "title") as [[|k t]|]; discriminate.
  - intros t -> Ht. destruct t; [contradiction | reflexivity].
  - now intros [-> | ->].
Qed.

Lemma X5_parse_home_card_title_and_address_witness :
  exists card,
    _parse_home_card
      (titled_card [SPACE; SPACE] (py " 12 Elm St ") (py "/home/1") (py "$1"))
    = Ok card
    /\ HomeCard.address card = Some (py "12 Elm St")
    /\ HomeCard.title card = Some [].
Proof.
  destruct (_parse_home_card
              (titled_card [SPACE; SPACE] (py " 12 Elm St ") (py "/home/1")
                 (py "$1"))) as [card|e|] eqn:E.
  - exists card. split; [reflexivity|].
    destruct (X5_parse_home_card_title_and_address _ card E)
      as ((anchor & others & Ha & Haddr) & _ & Ht & _).
    injection Ha as <- _. split; [exact Haddr|].
    exact (Ht [SPACE; SPACE] eq_refl ltac:(discriminate)).
  - vm_compute in E. discriminate E.
  - vm_compute in E. discriminate E.
Defined.

(** X6 -- the price, beds, baths and square feet of a returned card are the
    normalised inner texts of the first elements their selectors find (the
    trimming done before has no effect of its own), absent exactly when a
    selector finds nothing, and each one present is in normal form. *)
Theorem X6_parse_home_card_stats (card_locator : element) (card : HomeCard.t) :
  _parse_home_card card_locator = Ok card ->
  HomeCard.price card = card_stat card_locator ".bp-Homecard__Price--value"
  /\ HomeCard.beds card = card_stat card_locator ".bp-Homecard__Stats--beds"
  /\ HomeCard.baths card = card_stat card_locator ".bp-Homecard__Stats--baths"
  /\ HomeCard.sqft card = card_stat card_locator ".bp-Homecard__Stats--sqft"
  /\ (forall x,
        In (Some x)
          [HomeCard.price card; HomeCard.beds card; HomeCard.baths card;
           HomeCard.sqft card] ->
        is_normal x = true).
Proof.
  assert (stat : forall selector,
            _clean_card_stat
              match locator card_locator selector with
              | [] => None
              | first :: _ => Some (strip (inner_text first))
              end = card_stat card_locator selector).
  { intros selector. unfold card_stat.
    destruct (locator card_locator selector); [reflexivity|].
    now rewrite clean_card_stat_Some, clean_text_strip. }
  assert (normal : forall selector x,
            card_stat card_locator selector = Some x -> is_normal x = true).
  { intros selector x. unfold card_stat.
    destruct (locator card_locator selector); [discriminate|].
    intros H. injection H as <-. apply clean_text_normal. }
  unfold _parse_home_card.
  destruct (locator card_locator "a.bp-Homecard__Address") as [|anchor others];
    [discriminate|].
  destruct (get_attribute anchor "href") as [[|c href]|]; try discriminate.
  intros E. injection E as <-.
  cbn [HomeCard.price HomeCard.beds HomeCard.baths HomeCard.sqft].
  rewrite !stat. repeat (split; [reflexivity|]).
  intros x [H|[H|[H|[H|[]]]]]; eapply normal; exact H.
Qed.

Lemma X6_parse_home_card_stats_witness :
  exists card,
    _parse_home_card
      (titled_card (py "Cozy") (py "12 Elm St") (py "/home/1")
         ([9; 10]%N ++ py "$1,200,000  " ++ [160%N] ++ py " est. "))
    = Ok card
    /\ HomeCard.price card = Some (py "$1,200,000 est.")
    /\ HomeCard.beds card = None.
Proof.
  destruct (_parse_home_card
              (titled_card (py "Cozy") (py "12 Elm St") (py "/home/1")
                 ([9; 10]%N ++ py "$1,200,000  " ++ [160%N] ++ py " est. ")))
    as [card|e|] eqn:E.
  - exists card. split; [reflexivity|].
    destruct (X6_parse_home_card_stats _ card E) as (Hp & Hb & _).
    split; [exact Hp | exact Hb].
  - vm_compute in E. discriminate E.
  - vm_compute in E. discriminate E.
Defined.

(* ------------------------------------------------------------------ *)
(** ** The listing collector: the scroll loop and the size of the result *)
(* ------------------------------------------------------------------ *)

Lemma scroll_loop_rounds (pg : page) (limit : Z) (fuel a : nat) :
  (a + fuel = 10)%nat ->
  (forall j, (j < a)%nat -> (count pg (scrolled j) < limit)%Z) ->
  exists k,
    snd (scroll_loop pg limit fuel (Z.of_nat a) (scrolled a)) = scrolled k
    /\ (a <= k <= 10)%nat
    /\ (forall j, (j < k)%nat -> (count pg (scrolled j) < limit)%Z)
    /\ (k = 10%nat \/ (limit <= count pg (scrolled k))%Z).
Proof.
  revert a. induction fuel as [|fuel IH]; intros a Ha Hlow.
  - exists a. cbn [scroll_loop snd].
    split; [reflexivity|]. split; [lia|]. split; [exact Hlow|]. left. lia.
  - cbn [scroll_loop].
    destruct (Z.ltb_spec (count pg (scrolled a)) limit) as [Hc|Hc].
    + replace (Z.of_nat a <? 10)%Z with true
        by (symmetry; apply Z.ltb_lt; lia).
      cbn [andb].
      replace (Z.of_nat a + 1)%Z with (Z.of_nat (S a)) by lia.
      destruct (IH (S a)) as (k & Hk & Hb & Hl & Hs).
      * lia.
      * intros j Hj. destruct (Nat.eq_dec j a) as [->|Hne];
          [exact Hc | apply Hlow; lia].
      * exists k. split; [exact Hk|]. split; [lia|]. now split.
    + cbn [andb snd]. exists a.
      split; [reflexivity|]. split; [lia|]. split; [exact Hlow|]. now right.
Qed.

(** X7 -- the collector scrolls exactly as often as it must: the page has
    seen [k] rounds of wheel and pause, [k] at most 10, where fewer than
    [limit] cards were rendered before each round, and either ten rounds are
    done or [limit] cards are rendered after the last. *)
Theorem X7_collect_home_cards_scrolls (pg : page) (limit : Z) :
  exists k,
    snd (_collect_home_cards pg limit) = scrolled k
    /\ (k <= 10)%nat
    /\ count_scrolls (scrolled k) = k
    /\ (forall j, (j < k)%nat -> (count pg (scrolled j) < limit)%Z)
    /\ (k = 10%nat \/ (limit <= count pg (scrolled k))%Z).
Proof.
  rewrite collect_home_cards_trace.
  destruct (scroll_loop_rounds pg limit 10 0 eq_refl) as (k & Hk & Hb & Hl & Hs);
    [intros j Hj; lia|].
  exists k. split; [exact Hk|]. split; [lia|]. split; [|split; assumption].
  clear. induction k as [|k IH]; [reflexivity|].
  unfold count_scrolls in *. cbn [scrolled filter is_scroll List.length].
  now rewrite IH.
Qed.

(** X8 -- with a limit of zero or less the collector does not scroll; it
    still raises the no-cards error when nothing is rendered, and returns
    the empty list when something is. *)
Theorem X8_collect_home_cards_no_limit (pg : page) (limit : Z) :
  (limit <= 0)%Z ->
  _collect_home_cards pg limit
  = (match page_locator (pg listing_trace) HOME_CARD with
     | [] => Error NoCardsFound
     | _ :: _ => Ok []
     end, listing_trace).
Proof.
  intros Hl.
  pose proof (collect_home_cards_unfold pg limit) as H. cbv zeta in H.
  rewrite H.
  rewrite (scroll_loop_enough pg limit 9 listing_trace)
    by (unfold count; lia).
  cbn [snd]. f_equal.
  destruct (page_locator (pg listing_trace) HOME_CARD) as [|c rendered];
    [reflexivity|].
  replace (Z.to_nat (Z.min limit (Z.of_nat (List.length (c :: rendered)))))
    with 0%nat by lia.
  reflexivity.
Qed.

Lemma X8_collect_home_cards_no_limit_witness :
  _collect_home_cards (listing_page [numbered_card 0; numbered_card 1]) 0
  = (Ok [], listing_trace)
  /\ _collect_home_cards empty_listing (-3) = (Error NoCardsFound, listing_trace).
Proof.
  split.
  - exact (X8_collect_home_cards_no_limit
             (listing_page [numbered_card 0; numbered_card 1]) 0
             ltac:(discriminate)).
  - exact (X8_collect_home_cards_no_limit empty_listing (-3)
             ltac:(discriminate)).
Defined.

(** X9 -- whatever the limit, a list the collector returns has exactly
    [min(limit, available)] records (none for a limit below zero), and each
    of them has an address, a title, and a detail URL that begins with
    "http". *)
Theorem X9_collect_home_cards_result (pg : page) (limit : Z)
    (cards : list HomeCard.t) :
  fst (_collect_home_cards pg limit) = Ok cards ->
  let available :=
    List.length
      (page_locator (pg (snd (_collect_home_cards pg limit))) HOME_CARD) in
  List.length cards = Z.to_nat (Z.min limit (Z.of_nat available))
  /\ (List.length cards <= available)%nat
  /\ Forall
       (fun card =>
          HomeCard.address card <> None
          /\ HomeCard.title card <> None
          /\ startswith (py "http") (HomeCard.detail_url card) = true)
       cards.
Proof.
  pose proof (collect_home_cards_unfold pg limit) as H. cbv zeta in H.
  rewrite H. cbn [fst snd]. clear H.
  remember (page_locator
              (pg (snd (scroll_loop pg limit 10 0%Z listing_trace))) HOME_CARD)
    as rendered eqn:Er.
  intros Hp.
  assert (Hp' : parse_all
                  (firstn (Z.to_nat (Z.min limit (Z.of_nat (List.length rendered))))
                     rendered) = Ok cards)
    by (destruct rendered; [discriminate | exact Hp]).
  clear Hp. rename Hp' into Hp. apply parse_all_Ok in Hp.
  pose proof (Forall2_length Hp) as Hlen. rewrite length_firstn in Hlen.
  split; [lia|]. split; [lia|].
  clear Hlen. induction Hp as [|el card els cards' Hel Hp IH]; constructor;
    [|exact IH].
  now apply parse_home_card_present with (card_locator := el).
Qed.

Lemma X9_collect_home_cards_result_witness :
  exists cards,
    fst (_collect_home_cards lazy_listing 3) = Ok cards
    /\ List.length cards = 3%nat.
Proof.
  destruct (fst (_collect_home_cards lazy_listing 3)) as [cards|e|] eqn:E.
  - exists cards. split; [reflexivity|].
    destruct (X9_collect_home_cards_result lazy_listing 3 cards E)
      as (Hlen & _).
    rewrite Hlen. vm_compute. reflexivity.
  - vm_compute in E. discriminate E.
  - vm_compute in E. discriminate E.
Defined.

(* ------------------------------------------------------------------ *)
(** ** The detail page: outcomes, actions, normalised fields *)
(* ------------------------------------------------------------------ *)

(** The fields a returned record reads from the live page. *)
Lemma scrape_property_detail_reads {U : Unicode} (pg : page) (url : str)
    (d : PropertyDetails.t) (tr : trace) :
  _scrape_property_detail pg url = (Ok d, tr) ->
  let at_read := detail_trace pg url in
  PropertyDetails.status_badge d = _extract_status_badge pg at_read
  /\ PropertyDetails.price d
     = figure pg at_read "[data-rf-test-id='abp-price'] .statsValue.price"
  /\ PropertyDetails.monthly_payment d
     = figure pg at_read
         "[data-rf-test-id='abp-monthly-payment-entry-point-estimate']"
  /\ PropertyDetails.beds d = figure pg at_read "[data-rf-test-id='abp-beds']"
  /\ PropertyDetails.baths d
     = figure pg at_read "[data-rf-test-id='abp-baths']"
  /\ PropertyDetails.sqft d = figure pg at_read "[data-rf-test-id='abp-sqFt']"
  /\ PropertyDetails.address d
     = figure pg at_read "[data-rf-test-id='abp-homeinfo-homeaddress']".
Proof.
  unfold _scrape_property_detail.
  destruct (response (pg [Goto url])) as [status|]; [|discriminate].
  destruct (400 <=? status)%N; [discriminate|].
  fold (first_body pg url). fold (detail_trace pg url).
  rewrite primary_stats_cases.
  destruct (figures_shown pg (detail_trace pg url)); [|discriminate].
  destruct (house_info (pg (detail_trace pg url))) as [h|]; [|discriminate].
  destruct (agent_of h) as [[agent_name agent_broker] agent_profile_url].
  destruct (search_stats pg (detail_trace pg url) (first_body pg url))
    as [stats_match tr'].
  destruct (listing_of h) as [[[listing_updated redfin_checked] mls_source] mls_id].
  destruct stats_match as [stats_match|];
    intros E; injection E as <- _; cbn; repeat split; reflexivity.
Qed.

(** A figure that is shown is read. *)
Lemma figure_shown (pg : page) (tr : trace) (selector : string) :
  figures_shown pg tr = true ->
  In selector STAT_SELECTORS ->
  figure pg tr selector <> None.
Proof.
  unfold figures_shown, figure. rewrite forallb_forall.
  intros H Hin. specialize (H selector Hin).
  now destruct (page_locator (pg tr) selector).
Qed.

(** X10 -- how the extraction of a detail page ends.  Without a response,
    or with a status of 400 or more, the load error is raised, naming the
    status and the URL, and the page has seen the navigation and nothing
    else.  Otherwise, when one of the six primary figures has no element on
    the page, the read of that figure waits for it without end: the
    extraction neither returns nor raises.  With the six figures shown, the
    evaluation error is raised when the house-info container is missing,
    and a record is returned when it is there; none of the six figures is
    absent from a record. *)
Theorem X10_scrape_property_detail_outcome {U : Unicode} (pg : page)
    (url : str) :
  match response (pg [Goto url]) with
  | None =>
      _scrape_property_detail pg url
      = (Error (DetailPageLoadFailed None url), [Goto url])
  | Some status =>
      if (400 <=? status)%N then
        _scrape_property_detail pg url
        = (Error (DetailPageLoadFailed (Some status) url), [Goto url])
      else if figures_shown pg (detail_trace pg url) then
        match house_info (pg (detail_trace pg url)) with
        | None =>
            _scrape_property_detail pg url
            = (Error PlaywrightError, detail_trace pg url)
        | Some _ =>
            exists d tr,
              _scrape_property_detail pg url = (Ok d, tr)
              /\ forall field,
                   In field
                     [PropertyDetails.price d;
                      PropertyDetails.monthly_payment d;
                      PropertyDetails.beds d; PropertyDetails.baths d;
                      PropertyDetails.sqft d; PropertyDetails.address d] ->
                   field <> None
        end
      else
        _scrape_property_detail pg url = (Hangs, detail_trace pg url)
  end.
Proof.
  destruct (response (pg [Goto url])) as [status|] eqn:Hr.
  2:{ unfold _scrape_property_detail. now rewrite Hr. }
  destruct (N.leb_spec 400 status) as [Hs|Hs].
  { unfold _scrape_property_detail. rewrite Hr.
    now replace (400 <=? status)%N with true
      by (symmetry; apply N.leb_le; exact Hs). }
  destruct (figures_shown pg (detail_trace pg url)) eqn:Hf.
  2:{ now apply scrape_property_detail_no_figure with (status := status). }
  destruct (house_info (pg (detail_trace pg url))) as [h|] eqn:Hh.
  2:{ now apply scrape_property_detail_no_container with (status := status). }
  destruct (scrape_property_detail_ok pg url status h Hr Hs Hf Hh)
    as (d & Hd & _).
  exists d, (snd (search_stats pg (detail_trace pg url) (first_body pg url))).
  split; [exact Hd|].
  destruct (scrape_property_detail_reads _ _ _ _ Hd)
    as (_ & H1 & H2 & H3 & H4 & H5 & H6).
  intros field [<-|[<-|[<-|[<-|[<-|[<-|[]]]]]]];
    rewrite ?H1, ?H2, ?H3, ?H4, ?H5, ?H6;
    apply figure_shown; try exact Hf; cbn; tauto.
Qed.

Lemma detail_trace_shape (pg : page) (url : str) :
  exists expand,
    detail_trace pg url = expand ++ [WaitForSelector PRICE; Goto url]
    /\ (expand = [] \/ expand = [WaitForTimeout 250; Click SHOW_MORE]).
Proof.
  unfold detail_trace, expand_remarks.
  destruct (page_locator _ SHOW_MORE) as [|first rest];
    [exists []; auto|].
  destruct (is_enabled first), (click_ok first);
    [exists [WaitForTimeout 250; Click SHOW_MORE]; auto
    | exists []; auto ..].
Qed.

Lemma search_stats_trace {U : Unicode} (pg : page) (tr : trace)
    (body_text : str) :
  exists retry,
    snd (search_stats pg tr body_text) = retry ++ tr
    /\ (retry = [] \/ retry = [WaitForTimeout 800]).
Proof.
  unfold search_stats. destruct (search stats_pattern body_text).
  - exists []. auto.
  - exists [WaitForTimeout 800].
    destruct (body_inner_text (pg (WaitForTimeout 800 :: tr))); auto.
Qed.

(** X11 -- whatever a detail page shows and however the extraction ends,
    the page sees one navigation, to the given URL and before anything
    else; after the wait for the price, at most one click on the remarks
    toggle, followed by its pause, and at most one pause of the engagement
    retry, as the last action; it is never scrolled. *)
Theorem X11_scrape_property_detail_actions {U : Unicode} (pg : page)
    (url : str) :
  let tr := snd (_scrape_property_detail pg url) in
  (tr = [Goto url]
   \/ exists retry expand,
        tr = retry ++ expand ++ [WaitForSelector PRICE; Goto url]
        /\ (retry = [] \/ retry = [WaitForTimeout 800])
        /\ (expand = [] \/ expand = [WaitForTimeout 250; Click SHOW_MORE]))
  /\ count_scrolls tr = 0%nat
  /\ (List.length (filter is_click tr) <= 1)%nat
  /\ List.length (filter is_goto tr) = 1%nat.
Proof.
  cbv zeta.
  assert (shape :
            snd (_scrape_property_detail pg url) = [Goto url]
            \/ exists retry expand,
                 snd (_scrape_property_detail pg url)
                 = retry ++ expand ++ [WaitForSelector PRICE; Goto url]
                 /\ (retry = [] \/ retry = [WaitForTimeout 800])
                 /\ (expand = []
                     \/ expand = [WaitForTimeout 250; Click SHOW_MORE])).
  { destruct (detail_trace_shape pg url) as (expand & He & Hex).
    destruct (response (pg [Goto url])) as [status|] eqn:Hr.
    2:{ left. unfold _scrape_property_detail. now rewrite Hr. }
    destruct (N.leb_spec 400 status) as [Hs|Hs].
    { left. unfold _scrape_property_detail. rewrite Hr.
      now replace (400 <=? status)%N with true
        by (symmetry; apply N.leb_le; exact Hs). }
    right. destruct (figures_shown pg (detail_trace pg url)) eqn:Hf.
    2:{ exists [], expand.
        rewrite (scrape_property_detail_no_figure pg url status Hr Hs Hf).
        cbn [snd app]. auto. }
    destruct (house_info (pg (detail_trace pg url))) as [h|] eqn:Hh.
    - destruct (scrape_property_detail_ok pg url status h Hr Hs Hf Hh)
        as (d & Hd & _).
      rewrite Hd. cbn [snd].
      destruct (search_stats_trace pg (detail_trace pg url) (first_body pg url))
        as (retry & Hre & Hrx).
      exists retry, expand. rewrite Hre, He. auto.
    - exists [], expand.
      rewrite (scrape_property_detail_no_container pg url status Hr Hs Hf Hh).
      cbn [snd app]. auto. }
  split; [exact shape|].
  destruct shape as [-> | (retry & expand & -> & [-> | ->] & [-> | ->])];
    repeat split; cbn; lia.
Qed.

Lemma figure_normal (pg : page) (tr : trace) (selector : string) (x : str) :
  figure pg tr selector = Some x -> is_normal x = true.
Proof.
  unfold figure. destruct (page_locator (pg tr) selector); [discriminate|].
  intros E. injection E as <-. apply clean_text_normal.
Qed.

Lemma has_keyword_nonempty {U : Unicode} (c : str) :
  has_keyword (lower c) = true -> c <> [].
Proof. intros H ->. discriminate H. Qed.

(** What the classifier returns passed the test of the tier it came
    from. *)
Lemma extract_status_badge_sound {U : Unicode} (pg : page) (tr : trace)
    (c : str) :
  _extract_status_badge pg tr = Some c ->
  has_keyword (lower c) = true
  /\ (In c (status_texts pg tr) /\ (List.length c <= 80)%nat
      \/ In c (body_lines pg tr)).
Proof.
  unfold _extract_status_badge, status_texts, body_lines, status_script.
  rewrite scan_candidates_find, scan_lines_find.
  destruct (find passes_candidate _) as [c'|] eqn:E1.
  - intros H. injection H as ->. apply find_some in E1 as [Hin Hp].
    unfold passes_candidate in Hp. apply andb_true_iff in Hp as [Hl Hk].
    split; [exact Hk|]. left. split; [|now apply Nat.leb_le].
    destruct (document_elements (pg tr)) as [document|]; [|contradiction].
    apply in_map_iff in Hin as (x & <- & Hx).
    apply filter_In in Hx as [Hx _].
    apply in_map_iff in Hx as (el & <- & Hel).
    apply in_map_iff. now exists el.
  - intros H. apply find_some in H as [Hin Hp].
    split; [exact Hp|]. right.
    destruct (body_inner_text (pg tr)); [exact Hin | contradiction].
Qed.

Lemma extract_status_badge_normal {U : Unicode} (pg : page) (tr : trace)
    (c : str) :
  _extract_status_badge pg tr = Some c -> is_normal c = true.
Proof.
  intros E. destruct (extract_status_badge_sound _ _ _ E) as [_ Hfrom].
  assert (Hc : exists x, c = clean_text x).
  { destruct Hfrom as [[Hin _]|Hin].
    - unfold status_texts in Hin.
      destruct (document_elements (pg tr)); [|contradiction].
      apply in_map_iff in Hin as (el & <- & _). now eexists.
    - unfold body_lines in Hin.
      destruct (body_inner_text (pg tr)); [|contradiction].
      apply in_map_iff in Hin as (x & <- & _). now eexists. }
  destruct Hc as [x ->]. apply clean_text_normal.
Qed.

(** X12 -- what the status classifier returns is never empty, is in normal
    form, and contains one of the keywords once lower-cased; it is the
    normalised text of an element whose class contains "status", of at most
    80 characters, or a normalised line of the body text. *)
Theorem X12_status_badge_sound {U : Unicode} (pg : page) (tr : trace) :
  match _extract_status_badge pg tr with
  | Some c =>
      c <> []
      /\ is_normal c = true
      /\ has_keyword (lower c) = true
      /\ (In c (status_texts pg tr) /\ (List.length c <= 80)%nat
          \/ In c (body_lines pg tr))
  | None => True
  end.
Proof.
  destruct (_extract_status_badge pg tr) as [c|] eqn:E; [|exact I].
  destruct (extract_status_badge_sound _ _ _ E) as [Hk Hfrom].
  split; [now apply has_keyword_nonempty|].
  split; [now apply (extract_status_badge_normal pg tr)|]. now split.
Qed.

(** X13 -- every field of a detail record that passes through the
    normaliser is in normal form when it is present: the status badge, the
    six primary figures (price, monthly payment, beds, baths, square feet,
    address) and the three engagement counters. *)
Theorem X13_detail_fields_normal {U : Unicode} (pg : page) (url : str)
    (d : PropertyDetails.t) (tr : trace) :
  _scrape_property_detail pg url = (Ok d, tr) ->
  forall x,
    In (Some x)
      [PropertyDetails.status_badge d; PropertyDetails.price d;
       PropertyDetails.monthly_payment d; PropertyDetails.beds d;
       PropertyDetails.baths d; PropertyDetails.sqft d;
       PropertyDetails.address d; PropertyDetails.on_redfin d;
       PropertyDetails.views d; PropertyDetails.favorites d] ->
    is_normal x = true.
Proof.
  intros Hd x Hin.
  destruct (scrape_property_detail_reads _ _ _ _ Hd)
    as (Hs & H1 & H2 & H3 & H4 & H5 & H6).
  destruct (scrape_property_detail_fields _ _ _ _ Hd)
    as (h & _ & _ & _ & _ & He).
  assert (Heng : forall o : option str, is_normal
            match _clean_card_stat o with Some y => y | None => [] end = true).
  { intros [v|]; [|reflexivity]. rewrite clean_card_stat_Some.
    apply clean_text_normal. }
  destruct Hin as [H|[H|[H|[H|[H|[H|[H|Hin]]]]]]].
  - rewrite Hs in H. now apply extract_status_badge_normal in H.
  - rewrite H1 in H. now apply figure_normal in H.
  - rewrite H2 in H. now apply figure_normal in H.
  - rewrite H3 in H. now apply figure_normal in H.
  - rewrite H4 in H. now apply figure_normal in H.
  - rewrite H5 in H. now apply figure_normal in H.
  - rewrite H6 in H. now apply figure_normal in H.
  - destruct (fst (search_stats pg (detail_trace pg url) (first_body pg url)))
      as [m|].
    + injection He as E1 E2 E3.
      destruct Hin as [H|[H|[H|[]]]].
      * rewrite E1 in H. specialize (Heng (group m "on_redfin")).
        now rewrite H in Heng.
      * rewrite E2 in H. specialize (Heng (group m "views")).
        now rewrite H in Heng.
      * rewrite E3 in H. specialize (Heng (group m "favorites")).
        now rewrite H in Heng.
    + injection He as E1 E2 E3.
      destruct Hin as [H|[H|[H|[]]]]; congruence.
Qed.

Lemma X13_detail_fields_normal_witness :
  exists d tr,
    @_scrape_property_detail basic_latin
      (priced_page ([SPACE; 10]%N ++ py "$450,000" ++ [9; SPACE]%N) []) sample_url
    = (Ok d, tr)
    /\ PropertyDetails.price d = Some (py "$450,000")
    /\ is_normal (py "$450,000") = true.
Proof.
  destruct (@_scrape_property_detail basic_latin
              (priced_page ([SPACE; 10]%N ++ py "$450,000" ++ [9; SPACE]%N) [])
              sample_url) as [[d|e|] tr] eqn:E.
  - exists d, tr. split; [reflexivity|].
    destruct (@scrape_property_detail_reads basic_latin _ _ _ _ E)
      as (_ & Hp & _).
    assert (Hprice : PropertyDetails.price d = Some (py "$450,000"))
      by (rewrite Hp; vm_compute; reflexivity).
    split; [exact Hprice|].
    apply (@X13_detail_fields_normal basic_latin _ _ _ _ E).
    right. left. exact Hprice.
  - vm_compute in E. discriminate E.
  - vm_compute in E. discriminate E.
Defined.

(* ------------------------------------------------------------------ *)
(** ** The house-info fragment: table, listing block, trimmed texts *)
(* ------------------------------------------------------------------ *)

Lemma dict_set_In (d : dict) (k v k0 v0 : str) :
  In (k0, v0) (dict_set d k v) -> In (k0, v0) d \/ (k0, v0) = (k, v).
Proof.
  induction d as [|[k' v'] d IH]; cbn [dict_set].
  - intros [H|[]]. right. now symmetry.
  - destruct (str_eqb k' k) eqn:E.
    + apply str_eqb_eq in E as ->. intros [H|H]; [now right | left; now right].
    + intros [H|H]; [left; now left|].
      destruct (IH H) as [Hd|He]; [left; now right | now right].
Qed.

Lemma dict_set_length (d : dict) (k v : str) :
  (List.length (dict_set d k v) <= S (List.length d))%nat.
Proof.
  induction d as [|[k' v'] d IH]; cbn [dict_set]; [simpl; lia|].
  destruct (str_eqb k' k); simpl in *; lia.
Qed.

Lemma fold_dict_set_In (entries : list (str * str)) (d : dict) (e : str * str) :
  In e (fold_left (fun d e => dict_set d (fst e) (snd e)) entries d) ->
  In e d \/ In e entries.
Proof.
  revert d. induction entries as [|[k v] entries IH]; intros d; [now left|].
  cbn [fold_left fst snd]. intros H. destruct (IH _ H) as [Hd|He].
  - destruct e as [k0 v0]. destruct (dict_set_In _ _ _ _ _ Hd) as [H1|H1];
      [now left | right; left; now symmetry].
  - right. now right.
Qed.

Lemma fold_dict_set_length (entries : list (str * str)) (d : dict) :
  (List.length (fold_left (fun d e => dict_set d (fst e) (snd e)) entries d)
   <= List.length d + List.length entries)%nat.
Proof.
  revert d. induction entries as [|[k v] entries IH]; intros d;
    [simpl; lia|].
  cbn [fold_left fst snd]. specialize (IH (dict_set d k v)).
  pose proof (dict_set_length d k v). simpl. lia.
Qed.

Lemma row_entries_In {U : Unicode} (rows : list Tag) (e : str * str) :
  In e (row_entries rows) ->
  exists row, In row rows /\ row_entry row = Some e.
Proof.
  induction rows as [|row rows IH]; [intros []|].
  cbn [row_entries]. destruct (row_entry row) as [e'|] eqn:Er.
  - intros [<-|H]; [exists row; split; [now left | exact Er]|].
    destruct (IH H) as (r & Hr & He). exists r. split; [now right | exact He].
  - intros H. destruct (IH H) as (r & Hr & He).
    exists r. split; [now right | exact He].
Qed.

Lemma row_entries_length {U : Unicode} (rows : list Tag) :
  (List.length (row_entries rows) <= List.length rows)%nat.
Proof.
  induction rows as [|row rows IH]; [simpl; lia|].
  cbn [row_entries]. destruct (row_entry row); simpl; lia.
Qed.

(** X14 -- every entry of [key_details] comes from a row of the details
    table that has both its label and its value node, and no key is
    "on redfin" in any case; so the mapping has at most as many entries as
    the table has rows. *)
Theorem X14_key_details_entries {U : Unicode} (h : Tag) :
  (forall k v,
      In (k, v) (key_details_of h) ->
      str_eqb (lower k) (py "on redfin") = false
      /\ exists row label value,
           In row (select h KEY_DETAILS_ROWS)
           /\ select_one row ".valueType" = Some label
           /\ select_one row ".valueText" = Some value
           /\ k = get_text label []
           /\ v = get_text value [SPACE])
  /\ (List.length (key_details_of h)
      <= List.length (select h KEY_DETAILS_ROWS))%nat.
Proof.
  unfold key_details_of. fold KEY_DETAILS_ROWS.
  rewrite key_details_loop_entries. split.
  - intros k v Hin. apply fold_dict_set_In in Hin as [[]|Hin].
    apply row_entries_In in Hin as (row & Hrow & He).
    revert He. unfold row_entry.
    destruct (select_one row ".valueType") as [label|] eqn:El;
      [|discriminate].
    destruct (select_one row ".valueText") as [value|] eqn:Ev;
      [|discriminate].
    destruct (str_eqb (lower (get_text label [])) (py "on redfin")) eqn:Eon;
      [discriminate|].
    intros He. injection He as <- <-. split; [exact Eon|].
    exists row, label, value. repeat split; assumption.
  - pose proof (fold_dict_set_length
                  (row_entries (select h KEY_DETAILS_ROWS)) []) as H1.
    pose proof (row_entries_length (select h KEY_DETAILS_ROWS)) as H2.
    simpl in H1. lia.
Qed.

Lemma lstrip_char_repeat (ch : N) (k : nat) (rest : str) :
  lstrip_char ch (repeat ch k ++ rest) = lstrip_char ch rest.
Proof.
  induction k as [|k IH]; [reflexivity|].
  cbn [repeat app lstrip_char]. now rewrite N.eqb_refl.
Qed.

(** X15 -- each of the four fields read from the listing-info block is
    present exactly when its node is, and is then its fixed label followed
    by the normalised text of the node, so a node without text gives the
    bare label; for the MLS id, any number of '#' at the start of the text
    is dropped before normalising. *)
Theorem X15_listing_fields (h listing_info : Tag) :
  select_one h LISTING_INFO = Some listing_info ->
  listing_of h
  = (labelled "Listing updated: " (node_text listing_info ".data-quality time"),
     labelled "Redfin checked: " (node_text listing_info ".data-quality a"),
     labelled "Source: "
       (node_text listing_info ".ListingSource--dataSourceName"),
     labelled "MLS ID: "
       (option_map (lstrip_char 35)
          (node_text listing_info ".ListingSource--mlsId")))
  /\ (forall mls_node k rest,
        select_one listing_info ".ListingSource--mlsId" = Some mls_node ->
        get_text mls_node [] = repeat 35%N k ++ rest ->
        snd (listing_of h)
        = Some (py "MLS ID: " ++ clean_text (lstrip_char 35 rest))).
Proof.
  intros Hl.
  assert (E : listing_of h
              = (labelled "Listing updated: "
                   (node_text listing_info ".data-quality time"),
                 labelled "Redfin checked: "
                   (node_text listing_info ".data-quality a"),
                 labelled "Source: "
                   (node_text listing_info ".ListingSource--dataSourceName"),
                 labelled "MLS ID: "
                   (option_map (lstrip_char 35)
                      (node_text listing_info ".ListingSource--mlsId")))).
  { unfold listing_of, labelled, node_text. fold LISTING_INFO. rewrite Hl.
    destruct (select_one listing_info ".data-quality time"),
      (select_one listing_info ".data-quality a"),
      (select_one listing_info ".ListingSource--dataSourceName"),
      (select_one listing_info ".ListingSource--mlsId");
      cbn [option_map]; rewrite ?clean_card_stat_Some; reflexivity. }
  split; [exact E|].
  intros mls_node k rest Hm Ht. rewrite E. cbn [snd].
  unfold node_text. rewrite Hm. cbn [option_map labelled].
  now rewrite Ht, lstrip_char_repeat.
Qed.

Lemma X15_listing_fields_witness :
  listing_of (mls_fragment (py "##MLS 1234"))
  = (None, None, None, Some (py "MLS ID: MLS 1234")).
Proof.
  destruct (X15_listing_fields (mls_fragment (py "##MLS 1234"))
              (mk_tag [py "##MLS 1234"] (fun _ => None)
                 (fun selector' =>
                    if String.eqb selector' ".ListingSource--mlsId"
                    then [text_tag (py "##MLS 1234")] else []))
              eq_refl) as [E _].
  rewrite E. vm_compute. reflexivity.
Defined.

Lemma rstrip_idem (s : str) : rstrip (rstrip s) = rstrip s.
Proof.
  induction s as [|c s IH]; [reflexivity|].
  cbn [rstrip]. destruct (rstrip s) as [|k r] eqn:Er.
  - destruct (isspace c) eqn:E; [reflexivity|]. simpl. now rewrite E.
  - change (rstrip (c :: k :: r))
      with (match rstrip (k :: r) with
            | [] => if isspace c then [] else [c]
            | x :: r' => c :: x :: r'
            end).
    now rewrite IH.
Qed.

Lemma lstrip_rstrip (s : str) : lstrip s = s -> lstrip (rstrip s) = rstrip s.
Proof.
  destruct s as [|c s]; [reflexivity|]. intros H.
  assert (E : isspace c = false).
  { destruct (isspace c) eqn:E; [|reflexivity]. simpl in H. rewrite E in H.
    destruct (lstrip_head s) as [Hn|(k & t & Hk & _)].
    - rewrite Hn in H. discriminate.
    - assert (Hlen : forall u, (List.length (lstrip u) <= List.length u)%nat).
      { induction u as [|x u IHu]; simpl; [lia|].
        destruct (isspace x); simpl; lia. }
      specialize (Hlen s). rewrite H in Hlen. simpl in Hlen. lia. }
  rewrite (rstrip_char _ _ E). simpl. now rewrite E.
Qed.

(** A stripped string has nothing left to strip at either end. *)
Lemma strip_trimmed (x : str) :
  lstrip (strip x) = strip x /\ rstrip (strip x) = strip x.
Proof.
  unfold strip. split; [|apply rstrip_idem].
  apply lstrip_rstrip, lstrip_idem.
Qed.

Lemma lstrip_app (p r : str) :
  p <> [] -> lstrip p = p -> lstrip (p ++ r) = p ++ r.
Proof.
  destruct p as [|c p]; [contradiction|]. intros _ H.
  destruct (isspace c) eqn:E.
  - exfalso. simpl in H. rewrite E in H.
    assert (Hlen : forall u, (List.length (lstrip u) <= List.length u)%nat).
    { induction u as [|x u IHu]; simpl; [lia|].
      destruct (isspace x); simpl; lia. }
    specialize (Hlen p). rewrite H in Hlen. simpl in Hlen. lia.
  - simpl. now rewrite E.
Qed.

Lemma rstrip_app (r p : str) :
  p <> [] -> rstrip p = p -> rstrip (r ++ p) = r ++ p.
Proof.
  intros Hne Hp. induction r as [|c r IH]; [exact Hp|].
  cbn [app rstrip]. rewrite IH.
  destruct (r ++ p) eqn:E; [|reflexivity].
  apply app_eq_nil in E as [_ E]. contradiction.
Qed.

Lemma join_ends (sep : str) (pieces : list str) :
  pieces <> [] ->
  exists first last front back,
    In first pieces /\ In last pieces
    /\ join sep pieces = first ++ back
    /\ join sep pieces = front ++ last.
Proof.
  induction pieces as [|p pieces IH]; [contradiction|]. intros _.
  rewrite join_cons. destruct pieces as [|q pieces].
  - exists p, p, [], []. rewrite app_nil_r. repeat split; now left.
  - destruct IH as (f & l & front & back & _ & Hl & _ & Hb); [discriminate|].
    exists p, l, (p ++ sep ++ front), (sep ++ join sep (q :: pieces)).
    split; [now left|]. split; [now right|]. split; [reflexivity|].
    now rewrite Hb, !app_assoc.
Qed.

(** [get_text(..., strip=True)] begins and ends with a character that is
    not white, whatever the separator. *)
Lemma get_text_trimmed (t : Tag) (sep : str) :
  strip (get_text t sep) = get_text t sep.
Proof.
  unfold get_text.
  set (pieces := filter truthy (map strip (strings t))).
  assert (Hp : forall p, In p pieces ->
                 p <> [] /\ lstrip p = p /\ rstrip p = p).
  { intros p Hin. apply filter_In in Hin as [Hin Ht].
    apply in_map_iff in Hin as (x & <- & _).
    split; [now destruct (strip x)|]. apply strip_trimmed. }
  destruct pieces as [|p0 pieces'] eqn:E; [reflexivity|].
  rewrite <- E in *.
  destruct (join_ends sep pieces) as (f & l & front & back & Hf & Hl & E1 & E2);
    [rewrite E; discriminate|].
  destruct (Hp f Hf) as (Hfn & Hfl & _). destruct (Hp l Hl) as (Hln & _ & Hlr).
  unfold strip.
  replace (lstrip (join sep pieces)) with (join sep pieces)
    by (rewrite E1; symmetry; now apply lstrip_app).
  rewrite E2. now apply rstrip_app.
Qed.

(** X16 -- the texts read from the house-info fragment carry no white
    space at either end: the description, the agent's name and broker, and
    every label and value of [key_details]. *)
Theorem X16_fragment_texts_trimmed {U : Unicode} (h : Tag) :
  (forall x, description_of h = Some x -> strip x = x)
  /\ (forall x, fst (fst (agent_of h)) = Some x -> strip x = x)
  /\ (forall x, snd (fst (agent_of h)) = Some x -> strip x = x)
  /\ (forall k v, In (k, v) (key_details_of h) -> strip k = k /\ strip v = v).
Proof.
  split; [|split; [|split]].
  - unfold description_of. intros x.
    destruct (select_one h "#marketing-remarks-scroll"); [|discriminate].
    intros E. injection E as <-. apply get_text_trimmed.
  - unfold agent_of. intros x.
    destruct (select_one h _) as [agent_section|]; [|discriminate].
    destruct (select_one agent_section ".agent-basic-details--heading a");
      cbn [fst]; [|discriminate].
    intros E. injection E as <-. apply get_text_trimmed.
  - unfold agent_of. intros x.
    destruct (select_one h _) as [agent_section|]; [|discriminate].
    destruct (select_one agent_section ".agent-basic-details--heading a");
      destruct (select_one agent_section ".agent-basic-details--broker span");
      cbn [fst snd]; try discriminate;
      intros E; injection E as <-; apply get_text_trimmed.
  - intros k v Hin.
    unfold key_details_of in Hin. rewrite key_details_loop_entries in Hin.
    apply fold_dict_set_In in Hin as [[]|Hin].
    apply row_entries_In in Hin as (row & _ & He).
    revert He. unfold row_entry.
    destruct (select_one row ".valueType") as [label|]; [|discriminate].
    destruct (select_one row ".valueText") as [value|]; [|discriminate].
    destruct (str_eqb _ _); [discriminate|].
    intros He. injection He as <- <-. split; apply get_text_trimmed.
Qed.

(* ------------------------------------------------------------------ *)
(** ** The engagement counters: what a match is made of *)
(* ------------------------------------------------------------------ *)

Section RegexText.

Context {U : Unicode}.

(** A run [cs+] takes a first part of the text, not empty, and hands the
    rest to what follows. *)
Lemma one_or_more_split {R : Type} (cs : charset)
    (k : str -> groups -> option R) (s : str) (opened : groups) (r : R) :
  one_or_more cs k s opened = Some r ->
  exists taken s',
    s = taken ++ s'
    /\ taken <> []
    /\ k s' (fold_left (fun o c => consume c o) taken opened) = Some r.
Proof.
  revert opened. induction s as [|c s IH]; intros opened; simpl;
    [discriminate|].
  destruct (charset_matches cs c); [|discriminate].
  destruct (one_or_more cs k s (consume c opened)) as [r'|] eqn:E.
  - intros H. injection H as ->.
    destruct (IH _ E) as (taken & s' & -> & _ & Hk).
    exists (c :: taken), s'. repeat split; [discriminate | exact Hk].
  - intros H. exists [c], s. repeat split; [discriminate | exact H].
Qed.

Lemma match_here_literal (p : pattern) (s : str) (opened closed m : groups)
    (x : N) :
  match_here p s opened closed = Some m ->
  In (One (Literal x)) p -> In x s.
Proof.
  revert s opened closed.
  induction p as [|i p IH]; intros s opened closed H Hin; [destruct Hin|].
  destruct i as [cs|cs|n|n]; cbn [match_here] in H.
  - destruct s as [|c s]; [discriminate|].
    destruct (charset_matches cs c) eqn:Ec; [|discriminate].
    destruct Hin as [E|Hin].
    + injection E as ->. cbn [charset_matches] in Ec.
      apply N.eqb_eq in Ec. now left.
    + right. now apply (IH _ _ _ H).
  - apply one_or_more_split in H as (taken & s' & -> & _ & H).
    destruct Hin as [E|Hin]; [discriminate|].
    apply in_or_app. right. now apply (IH _ _ _ H).
  - destruct Hin as [E|Hin]; [discriminate|]. now apply (IH _ _ _ H).
  - destruct (assoc n opened); [|discriminate].
    destruct Hin as [E|Hin]; [discriminate|]. now apply (IH _ _ _ H).
Qed.

(** A text the pattern matches somewhere contains each literal character
    of the pattern. *)
Lemma search_literal (p : pattern) (s : str) (m : groups) (x : N) :
  search p s = Some m -> In (One (Literal x)) p -> In x s.
Proof.
  intros H Hin. induction s as [|c s IH]; cbn [search] in H.
  - destruct (match_here p [] [] []) eqn:E; [|discriminate].
    now apply (match_here_literal _ _ _ _ _ _ E).
  - destruct (match_here p (c :: s) [] []) eqn:E.
    + now apply (match_here_literal _ _ _ _ _ _ E).
    + right. now apply IH.
Qed.

Lemma contains_char (x : N) (s : str) :
  contains [x] s = false -> ~ In x s.
Proof.
  induction s as [|c s IH]; [intros _ []|].
  cbn [contains startswith]. intros H.
  apply orb_false_iff in H as [H1 H2].
  rewrite andb_true_r in H1. apply N.eqb_neq in H1.
  intros [E|Hin]; [congruence | now apply IH].
Qed.

Lemma stats_needs_bullet (body_text : str) :
  contains [BULLET] body_text = false ->
  search stats_pattern body_text = None.
Proof.
  intros H. destruct (search stats_pattern body_text) as [m|] eqn:E;
    [|reflexivity].
  exfalso. apply (contains_char _ _ H).
  apply (search_literal _ _ _ _ E). vm_compute. tauto.
Qed.

Lemma assoc_In {A : Type} (name : string) (l : list (string * A)) (a : A) :
  assoc name l = Some a -> In (name, a) l.
Proof.
  induction l as [|[n b] l IH]; [discriminate|]. cbn [assoc].
  destruct (String.eqb n name) eqn:E.
  - apply String.eqb_eq in E as ->. intros H. injection H as ->. now left.
  - intros H. right. now apply IH.
Qed.

Lemma opened_at_consume (t s : str) (c : N) (opened : groups) :
  opened_at t (c :: s) opened -> opened_at t s (consume c opened).
Proof.
  intros [[pre Hs] Ho]. split.
  - exists (pre ++ [c]). now rewrite <- app_assoc.
  - intros name text Hin. unfold consume in Hin.
    apply in_map_iff in Hin as ([n acc] & E & Hin). injection E as <- <-.
    destruct (Ho _ _ Hin) as [pre' ->]. exists pre'.
    cbn [snd rev]. now rewrite <- !app_assoc.
Qed.

Lemma opened_at_taken (t taken s : str) (opened : groups) :
  opened_at t (taken ++ s) opened ->
  opened_at t s (fold_left (fun o c => consume c o) taken opened).
Proof.
  revert opened. induction taken as [|c taken IH]; intros opened H;
    [exact H|].
  cbn [fold_left]. apply IH. now apply opened_at_consume.
Qed.

(** The text of every group a match closes is a run of consecutive
    characters of the text matched. *)
Lemma match_here_infix (t : str) (p : pattern) (s : str)
    (opened closed m : groups) :
  opened_at t s opened ->
  (forall name text, In (name, text) closed -> infix text t) ->
  match_here p s opened closed = Some m ->
  forall name text, In (name, text) m -> infix text t.
Proof.
  revert s opened closed.
  induction p as [|i p IH]; intros s opened closed Ho Hc H.
  - injection H as <-. exact Hc.
  - destruct i as [cs|cs|n|n]; cbn [match_here] in H.
    + destruct s as [|c s]; [discriminate|].
      destruct (charset_matches cs c); [|discriminate].
      apply (IH _ _ _ (opened_at_consume _ _ _ _ Ho) Hc H).
    + apply one_or_more_split in H as (taken & s' & -> & _ & H).
      apply (IH _ _ _ (opened_at_taken _ _ _ _ Ho) Hc H).
    + refine (IH _ _ _ _ Hc H). destruct Ho as [[pre Hs] Ho].
      split; [now exists pre|].
      intros name text [E|Hin]; [|now apply (Ho name)].
      injection E as <- <-. now exists pre.
    + destruct (assoc n opened) as [acc|] eqn:Ea; [|discriminate].
      refine (IH _ _ _ Ho _ H).
      intros name text [E|Hin]; [|now apply (Hc name)].
      injection E as <- <-. apply assoc_In in Ea.
      destruct Ho as [_ Ho]. destruct (Ho _ _ Ea) as [pre ->].
      now exists pre, s.
Qed.

Lemma search_infix (t : str) (p : pattern) (s : str) (m : groups) :
  (exists pre, t = pre ++ s) ->
  search p s = Some m ->
  forall name text, group m name = Some text -> infix text t.
Proof.
  assert (start : forall s', (exists pre, t = pre ++ s') ->
            forall m', match_here p s' [] [] = Some m' ->
            forall name text, In (name, text) m' -> infix text t).
  { intros s' Hs m' Hm. apply (match_here_infix t p s' [] [] m'); [|easy|exact Hm].
    split; [exact Hs | intros ? ? []]. }
  intros Hs H name text Hg. apply assoc_In in Hg. revert Hs H.
  induction s as [|c s IH]; intros Hs H; cbn [search] in H.
  - destruct (match_here p [] [] []) as [m'|] eqn:E; [|discriminate].
    injection H as ->. exact (start _ Hs _ E name text Hg).
  - destruct (match_here p (c :: s) [] []) as [m'|] eqn:E.
    + injection H as ->. exact (start _ Hs _ E name text Hg).
    + apply IH; [|exact H]. destruct Hs as [pre ->].
      exists (pre ++ [c]). now rewrite <- app_assoc.
Qed.

End RegexText.

(** X17 -- the engagement pattern needs the bullet U+2022: a detail page
    whose body text has no such character, at the first read and at the
    retry, gets a record with all three engagement fields absent, after the
    one retry. *)
Theorem X17_engagement_needs_bullet {U : Unicode} (pg : page) (url : str)
    (d : PropertyDetails.t) (tr : trace) :
  _scrape_property_detail pg url = (Ok d, tr) ->
  contains [BULLET] (first_body pg url) = false ->
  match retry_body pg url with
  | Some body_text => contains [BULLET] body_text = false
  | None => True
  end ->
  all_absent d /\ count_retries tr = 1%nat.
Proof.
  intros Hd H1 H2.
  destruct (scrape_property_detail_fields _ _ _ _ Hd)
    as (h & _ & -> & _ & _ & He).
  revert He. unfold search_stats. rewrite (stats_needs_bullet _ H1).
  unfold retry_body in H2.
  assert (Hone : count_retries (WaitForTimeout 800 :: detail_trace pg url)
                 = 1%nat).
  { unfold count_retries. cbn [filter is_retry_pause List.length].
    f_equal. apply count_retries_detail_trace. }
  destruct (body_inner_text (pg (WaitForTimeout 800 :: detail_trace pg url)))
    as [body_text|]; cbn [fst snd].
  - rewrite (stats_needs_bullet _ H2). intros He. injection He as A1 A2 A3.
    now repeat split.
  - intros He. injection He as A1 A2 A3. now repeat split.
Qed.

Lemma X17_engagement_needs_bullet_witness :
  exists d tr,
    @_scrape_property_detail basic_latin (detail_page middle_dot_line empty_tag)
      sample_url = (Ok d, tr)
    /\ all_absent d
    /\ count_retries tr = 1%nat.
Proof.
  destruct (@_scrape_property_detail basic_latin
              (detail_page middle_dot_line empty_tag) sample_url)
    as [[d|e|] tr] eqn:E.
  - exists d, tr. split; [reflexivity|].
    exact (@X17_engagement_needs_bullet basic_latin _ _ _ _ E eq_refl eq_refl).
  - vm_compute in E. discriminate E.
  - vm_compute in E. discriminate E.
Defined.

(** X18 -- an engagement field of a detail record is never made up: when
    present it is the normalised form of a run of consecutive characters of
    the body text, as read first or at the retry. *)
Theorem X18_engagement_from_body {U : Unicode} (pg : page) (url : str)
    (d : PropertyDetails.t) (tr : trace) :
  _scrape_property_detail pg url = (Ok d, tr) ->
  forall x,
    In (Some x)
      [PropertyDetails.on_redfin d; PropertyDetails.views d;
       PropertyDetails.favorites d] ->
    exists body_text text,
      (body_text = first_body pg url \/ retry_body pg url = Some body_text)
      /\ infix text body_text
      /\ x = clean_text text.
Proof.
  intros Hd x Hin.
  destruct (scrape_property_detail_fields _ _ _ _ Hd)
    as (h & _ & _ & _ & _ & He).
  assert (from : forall body_text m,
            search stats_pattern body_text = Some m ->
            (PropertyDetails.on_redfin d, PropertyDetails.views d,
             PropertyDetails.favorites d)
            = (_clean_card_stat (group m "on_redfin"),
               _clean_card_stat (group m "views"),
               _clean_card_stat (group m "favorites")) ->
            exists text, infix text body_text /\ x = clean_text text).
  { intros body_text m Hm Hf. injection Hf as E1 E2 E3.
    assert (one : forall name,
              Some x = _clean_card_stat (group m name) ->
              exists text, infix text body_text /\ x = clean_text text).
    { intros name Hx. destruct (group m name) as [text|] eqn:Eg;
        [|discriminate].
      rewrite clean_card_stat_Some in Hx. injection Hx as ->.
      exists text. split; [|reflexivity].
      exact (search_infix body_text stats_pattern body_text m
               (ex_intro _ [] eq_refl) Hm name text Eg). }
    destruct Hin as [H|[H|[H|[]]]];
      [apply (one "on_redfin") | apply (one "views")
      | apply (one "favorites")]; congruence. }
  revert He. unfold search_stats, retry_body.
  destruct (search stats_pattern (first_body pg url)) as [m|] eqn:E1.
  - cbn [fst]. intros He. destruct (from _ _ E1 He) as (text & Hi & Hx).
    exists (first_body pg url), text. auto.
  - destruct (body_inner_text (pg (WaitForTimeout 800 :: detail_trace pg url)))
      as [body_text|]; cbn [fst].
    + destruct (search stats_pattern body_text) as [m|] eqn:E2.
      * intros He. destruct (from _ _ E2 He) as (text & Hi & Hx).
        exists body_text, text. auto.
      * intros He. injection He as A1 A2 A3.
        destruct Hin as [H|[H|[H|[]]]]; congruence.
    + intros He. injection He as A1 A2 A3.
      destruct Hin as [H|[H|[H|[]]]]; congruence.
Qed.

Lemma X18_engagement_from_body_witness :
  exists d tr,
    @_scrape_property_detail basic_latin engagement_page sample_url = (Ok d, tr)
    /\ PropertyDetails.views d = Some (py "567 views")
    /\ exists body_text text,
         (body_text = first_body engagement_page sample_url
          \/ retry_body engagement_page sample_url = Some body_text)
         /\ infix text body_text
         /\ py "567 views" = clean_text text.
Proof.
  destruct (@_scrape_property_detail basic_latin engagement_page sample_url)
    as [[d|e|] tr] eqn:E.
  - exists d, tr. split; [reflexivity|].
    assert (Hv : PropertyDetails.views d = Some (py "567 views")).
    { pose proof E as E'. vm_compute in E'. injection E' as <- _.
      reflexivity. }
    split; [exact Hv|].
    apply (@X18_engagement_from_body basic_latin _ _ _ _ E).
    right. left. exact Hv.
  - vm_compute in E. discriminate E.
  - vm_compute in E. discriminate E.
Defined.

(* ------------------------------------------------------------------ *)
(** ** [scrape] and the script *)
(* ------------------------------------------------------------------ *)

Lemma scrape_loop_detail_all {U : Unicode} (context : browser_context)
    (home_cards : list HomeCard.t) (idx : nat)
    (results : list (HomeCard.t * PropertyDetails.t)) :
  scrape_loop context home_cards idx results
  = match detail_all context home_cards idx with
    | Ok results' => Ok (results ++ results')
    | Error e => Error e
    | Hangs => Hangs
    end.
Proof.
  revert idx results. induction home_cards as [|card rest IH];
    intros idx results.
  - simpl. now rewrite app_nil_r.
  - cbn [scrape_loop detail_all].
    destruct (fst (_scrape_property_detail (context idx)
                     (HomeCard.detail_url card))) as [detail|e|];
      [|reflexivity ..].
    rewrite IH. destruct (detail_all context rest (S idx)); [|reflexivity ..].
    now rewrite <- app_assoc.
Qed.

Lemma detail_all_Ok {U : Unicode} (context : browser_context)
    (home_cards : list HomeCard.t) (idx : nat)
    (results : list (HomeCard.t * PropertyDetails.t)) :
  detail_all context home_cards idx = Ok results ->
  map fst results = home_cards
  /\ forall i card detail,
       nth_error results i = Some (card, detail) ->
       fst (_scrape_property_detail (context (idx + i)%nat)
              (HomeCard.detail_url card)) = Ok detail.
Proof.
  revert idx results. induction home_cards as [|card rest IH];
    intros idx results; cbn [detail_all].
  - intros H. injection H as <-. split; [reflexivity|].
    intros [|i] ? ? H; discriminate H.
  - destruct (fst (_scrape_property_detail (context idx)
                     (HomeCard.detail_url card))) as [detail|e|] eqn:Ed;
      [|discriminate ..].
    destruct (detail_all context rest (S idx)) as [results'|e|] eqn:Er;
      [|discriminate ..].
    intros H. injection H as <-. destruct (IH _ _ Er) as [Hm Hi].
    split; [cbn [map fst]; now rewrite Hm|].
    intros [|i] c dt H.
    + injection H as <- <-. now rewrite Nat.add_0_r.
    + cbn [nth_error] in H. rewrite <- plus_n_Sm. now apply (Hi i).
Qed.

Lemma detail_all_Error {U : Unicode} (context : browser_context)
    (home_cards : list HomeCard.t) (idx : nat) (e : exn) :
  detail_all context home_cards idx = Error e ->
  exists i card,
    nth_error home_cards i = Some card
    /\ fst (_scrape_property_detail (context (idx + i)%nat)
              (HomeCard.detail_url card)) = Error e
    /\ forall j card',
         (j < i)%nat -> nth_error home_cards j = Some card' ->
         exists detail,
           fst (_scrape_property_detail (context (idx + j)%nat)
                  (HomeCard.detail_url card')) = Ok detail.
Proof.
  revert idx. induction home_cards as [|card rest IH]; intros idx;
    cbn [detail_all]; [discriminate|].
  destruct (fst (_scrape_property_detail (context idx)
                   (HomeCard.detail_url card))) as [detail|e'|] eqn:Ed;
    [| |discriminate].
  - destruct (detail_all context rest (S idx)) as [results'|e''|] eqn:Er;
      [discriminate| |discriminate].
    intros H. injection H as ->.
    destruct (IH _ Er) as (i & c & Hn & Hf & Hbefore).
    exists (S i), c. split; [exact Hn|]. rewrite <- plus_n_Sm.
    split; [exact Hf|].
    intros [|j] c' Hj Hc'.
    + injection Hc' as <-. exists detail. now rewrite Nat.add_0_r.
    + rewrite <- plus_n_Sm. apply (Hbefore j c'); [lia | exact Hc'].
  - intros H. injection H as ->. exists 0%nat, card.
    split; [reflexivity|]. rewrite Nat.add_0_r. split; [exact Ed|].
    intros j c' Hj. lia.
Qed.

(** X19 -- a list [scrape] returns pairs every card of the collector, in
    the collector's order, with the record of its own detail page: the
    entry at position [i] holds card [i] and what the page opened after the
    listing page and [i] other detail pages gave for that card's URL. *)
Theorem X19_scrape_pairs_cards_with_details {U : Unicode}
    (context : browser_context) (limit : Z)
    (results : list (HomeCard.t * PropertyDetails.t)) :
  scrape context limit = Ok results ->
  exists home_cards,
    fst (_collect_home_cards (context 0%nat) limit) = Ok home_cards
    /\ map fst results = home_cards
    /\ List.length results = List.length home_cards
    /\ forall i card detail,
         nth_error results i = Some (card, detail) ->
         fst (_scrape_property_detail (context (S i))
                (HomeCard.detail_url card)) = Ok detail.
Proof.
  unfold scrape.
  destruct (fst (_collect_home_cards (context 0%nat) limit))
    as [home_cards|e|]; [|discriminate ..].
  rewrite scrape_loop_detail_all.
  destruct (detail_all context home_cards 1) as [results'|e|] eqn:Ed;
    [|discriminate ..].
  intros H. injection H as <-. cbn [app].
  destruct (detail_all_Ok _ _ _ _ Ed) as [Hm Hi].
  exists home_cards. split; [reflexivity|]. split; [exact Hm|].
  split; [now rewrite <- Hm, length_map|].
  intros i card detail Hn. exact (Hi i card detail Hn).
Qed.

(** X20 -- [scrape] returns no partial result: when it raises, either the
    collector raised that exception, or some detail page did, every card
    before it having given a record; nothing of those records is kept. *)
Theorem X20_scrape_all_or_nothing {U : Unicode} (context : browser_context)
    (limit : Z) (e : exn) :
  scrape context limit = Error e ->
  fst (_collect_home_cards (context 0%nat) limit) = Error e
  \/ exists home_cards i card,
       fst (_collect_home_cards (context 0%nat) limit) = Ok home_cards
       /\ nth_error home_cards i = Some card
       /\ fst (_scrape_property_detail (context (S i))
                 (HomeCard.detail_url card)) = Error e
       /\ forall j card',
            (j < i)%nat -> nth_error home_cards j = Some card' ->
            exists detail,
              fst (_scrape_property_detail (context (S j))
                     (HomeCard.detail_url card')) = Ok detail.
Proof.
  unfold scrape.
  destruct (fst (_collect_home_cards (context 0%nat) limit))
    as [home_cards|e'|];
    [|intros H; injection H as ->; now left | discriminate].
  rewrite scrape_loop_detail_all.
  destruct (detail_all context home_cards 1) as [results'|e'|] eqn:Ed;
    [discriminate| |discriminate].
  intros H. injection H as ->. right.
  destruct (detail_all_Error _ _ _ _ Ed) as (i & card & Hn & Hf & Hb).
  exists home_cards, i, card. repeat split; try assumption.
Qed.

Lemma X19_scrape_pairs_cards_with_details_witness :
  exists results,
    @scrape basic_latin
      (two_card_browser (detail_page [] empty_tag) (detail_page [] sample_table))
      10 = Ok results
    /\ map fst results = [numbered_record 0; numbered_record 1].
Proof.
  destruct (@scrape basic_latin
              (two_card_browser (detail_page [] empty_tag)
                 (detail_page [] sample_table)) 10) as [results|e|] eqn:E.
  - exists results. split; [reflexivity|].
    destruct (@X19_scrape_pairs_cards_with_details basic_latin _ _ _ E)
      as (home_cards & Hc & Hm & _).
    rewrite Hm. vm_compute in Hc. injection Hc as <-. reflexivity.
  - vm_compute in E. discriminate E.
  - vm_compute in E. discriminate E.
Defined.

Lemma X20_scrape_all_or_nothing_witness :
  let context :=
    two_card_browser (detail_page [] empty_tag) (failing_page (Some 404%N)) in
  let e :=
    DetailPageLoadFailed (Some 404%N) (py "https://www.redfin.com/home/1") in
  @scrape basic_latin context 10 = Error e
  /\ exists home_cards i card,
       fst (_collect_home_cards (context 0%nat) 10) = Ok home_cards
       /\ nth_error home_cards i = Some card
       /\ fst (@_scrape_property_detail basic_latin (context (S i))
                 (HomeCard.detail_url card)) = Error e.
Proof.
  cbv zeta.
  assert (E : @scrape basic_latin
                (two_card_browser (detail_page [] empty_tag)
                   (failing_page (Some 404%N))) 10
              = Error (DetailPageLoadFailed (Some 404%N)
                         (py "https://www.redfin.com/home/1")))
    by (vm_compute; reflexivity).
  split; [exact E|].
  destruct (@X20_scrape_all_or_nothing basic_latin _ _ _ E)
    as [H | (home_cards & i & card & Hc & Hn & Hf & _)].
  - vm_compute in H. discriminate H.
  - now exists home_cards, i, card.
Defined.

Lemma number_loop_combine (data : list (HomeCard.t * PropertyDetails.t))
    (idx : nat) (numbered : list numbered_entry) :
  number_loop data idx numbered
  = numbered ++ combine (seq idx (List.length data)) data.
Proof.
  revert idx numbered. induction data as [|entry rest IH];
    intros idx numbered.
  - simpl. now rewrite app_nil_r.
  - cbn [number_loop List.length seq combine]. rewrite IH.
    now rewrite <- app_assoc.
Qed.

Lemma collect_home_cards_count (pg : page) (limit : Z)
    (cards : list HomeCard.t) :
  fst (_collect_home_cards pg limit) = Ok cards ->
  let available :=
    List.length
      (page_locator (pg (snd (_collect_home_cards pg limit))) HOME_CARD) in
  available <> 0%nat
  /\ List.length cards = Z.to_nat (Z.min limit (Z.of_nat available)).
Proof.
  pose proof (collect_home_cards_unfold pg limit) as H. cbv zeta in H.
  rewrite H. cbn [fst snd]. clear H.
  remember (page_locator
              (pg (snd (scroll_loop pg limit 10 0%Z listing_trace))) HOME_CARD)
    as rendered eqn:Er.
  destruct rendered as [|c rendered]; [discriminate|].
  intros Hp. apply parse_all_Ok in Hp. apply Forall2_length in Hp.
  rewrite length_firstn in Hp. split; [discriminate | lia].
Qed.

(** X21 -- when [main] has something to write, the records are those
    [scrape] returned for a limit of ten, in that order, numbered 1, 2, 3
    and so on without a gap; there are at least one and at most ten of
    them. *)
Theorem X21_main_numbers_records {U : Unicode} (context : browser_context)
    (numbered : list numbered_entry) :
  main context = Ok numbered ->
  scrape context 10 = Ok (map snd numbered)
  /\ map fst numbered = seq 1 (List.length numbered)
  /\ (1 <= List.length numbered <= 10)%nat.
Proof.
  unfold main. destruct (scrape context 10) as [data|e|] eqn:Es;
    [|discriminate ..].
  intros H. injection H as <-. rewrite number_loop_combine. cbn [app].
  unfold numbered_entry.
  assert (Hlen : List.length (seq 1 (List.length data)) = List.length data)
    by apply length_seq.
  assert (Hc : List.length (combine (seq 1 (List.length data)) data)
               = List.length data)
    by (rewrite length_combine, Hlen; lia).
  split; [|split].
  - f_equal. clear Es Hc Hlen. generalize 1%nat.
    induction data as [|entry rest IH]; intros n; [reflexivity|].
    simpl. f_equal. apply IH.
  - rewrite Hc. clear Es Hc Hlen. generalize 1%nat.
    induction data as [|entry rest IH]; intros n; [reflexivity|].
    simpl. f_equal. apply IH.
  - rewrite Hc. clear Hc Hlen. revert Es. unfold scrape.
    destruct (fst (_collect_home_cards (context 0%nat) 10))
      as [home_cards|e|] eqn:Ec; [|discriminate ..].
    rewrite scrape_loop_detail_all.
    destruct (detail_all context home_cards 1) as [results'|e|] eqn:Ed;
      [|discriminate ..].
    intros H. injection H as <-. cbn [app].
    destruct (detail_all_Ok _ _ _ _ Ed) as [Hm _].
    destruct (collect_home_cards_count _ _ _ Ec) as [Ha Hl].
    rewrite <- (length_map fst), Hm, Hl. lia.
Qed.

Lemma X21_main_numbers_records_witness :
  exists numbered,
    @main basic_latin
      (two_card_browser (detail_page [] empty_tag) (detail_page [] sample_table))
    = Ok numbered
    /\ map fst numbered = [1%nat; 2%nat].
Proof.
  destruct (@main basic_latin
              (two_card_browser (detail_page [] empty_tag)
                 (detail_page [] sample_table))) as [numbered|e|] eqn:E.
  - exists numbered. split; [reflexivity|].
    destruct (@X21_main_numbers_records basic_latin _ _ E) as (_ & Hn & _).
    rewrite Hn. pose proof E as E'. vm_compute in E'. injection E' as <-.
    reflexivity.
  - vm_compute in E. discriminate E.
  - vm_compute in E. discriminate E.
Defined.

Lemma X14_key_details_entries_witness :
  @key_details_of basic_latin sample_table
  = [(py "Year Built", py "1991"); (py "Lot Size", py "0.25 acres")]
  /\ str_eqb (@lower basic_latin (py "Year Built")) (py "on redfin") = false
  /\ (List.length (@key_details_of basic_latin sample_table) <= 5)%nat.
Proof.
  destruct (@X14_key_details_entries basic_latin sample_table) as [Hin Hlen].
  split; [reflexivity|]. split; [|exact Hlen].
  exact (proj1 (Hin (py "Year Built") (py "1991") (or_introl eq_refl))).
Defined.

Lemma X16_fragment_texts_trimmed_witness :
  description_of
    (description_fragment
       [[SPACE; SPACE] ++ py "A fine  home. "; [SPACE; 10%N];
        [9%N] ++ py "Must see" ++ [10%N]])
  = Some (py "A fine  home. Must see")
  /\ strip (py "A fine  home. Must see") = py "A fine  home. Must see".
Proof.
  split; [reflexivity|].
  destruct (@X16_fragment_texts_trimmed basic_latin
              (description_fragment
                 [[SPACE; SPACE] ++ py "A fine  home. "; [SPACE; 10%N];
                  [9%N] ++ py "Must see" ++ [10%N]])) as [Hd _].
  exact (Hd (py "A fine  home. Must see") eq_refl).
Defined.

(* ------------------------------------------------------------------ *)
(** ** Runs that do not end *)
(* ------------------------------------------------------------------ *)

(** The extraction of a detail page fails to end exactly when the page
    loads and one of the primary figures has no element. *)
Lemma scrape_property_detail_hangs {U : Unicode} (pg : page) (url : str) :
  fst (_scrape_property_detail pg url) = Hangs
  <-> exists status,
        response (pg [Goto url]) = Some status
        /\ (status < 400)%N
        /\ figures_shown pg (detail_trace pg url) = false.
Proof.
  split.
  - unfold _scrape_property_detail.
    destruct (response (pg [Goto url])) as [status|]; [|discriminate].
    destruct (N.leb_spec 400 status) as [Hs|Hs]; [discriminate|].
    fold (first_body pg url). fold (detail_trace pg url).
    rewrite primary_stats_cases.
    destruct (figures_shown pg (detail_trace pg url)).
    + destruct (house_info (pg (detail_trace pg url))) as [h|];
        [|discriminate].
      destruct (agent_of h) as [[agent_name agent_broker] agent_profile_url].
      destruct (search_stats pg (detail_trace pg url) (first_body pg url))
        as [[stats_match|] tr'];
        destruct (listing_of h) as [[[a b] c] e]; discriminate.
    + intros _. now exists status.
  - intros (status & Hr & Hs & Hf).
    now rewrite (scrape_property_detail_no_figure pg url status Hr Hs Hf).
Qed.

Lemma detail_all_Hangs {U : Unicode} (context : browser_context)
    (home_cards : list HomeCard.t) (idx : nat) :
  detail_all context home_cards idx = Hangs
  <-> exists i card,
        nth_error home_cards i = Some card
        /\ fst (_scrape_property_detail (context (idx + i)%nat)
                  (HomeCard.detail_url card)) = Hangs
        /\ forall j card',
             (j < i)%nat -> nth_error home_cards j = Some card' ->
             exists detail,
               fst (_scrape_property_detail (context (idx + j)%nat)
                      (HomeCard.detail_url card')) = Ok detail.
Proof.
  revert idx. induction home_cards as [|card rest IH]; intros idx;
    cbn [detail_all].
  - split; [discriminate|]. intros ([|i] & c & Hn & _); discriminate Hn.
  - destruct (fst (_scrape_property_detail (context idx)
                     (HomeCard.detail_url card))) as [detail|e|] eqn:Ed.
    + split.
      * destruct (detail_all context rest (S idx)) as [results|e|] eqn:Er;
          [discriminate ..|].
        intros _. destruct (proj1 (IH (S idx)) Er) as (i & c & Hn & Hf & Hb).
        exists (S i), c. split; [exact Hn|]. rewrite <- plus_n_Sm.
        split; [exact Hf|].
        intros [|j] c' Hj Hc'.
        -- injection Hc' as <-. exists detail. now rewrite Nat.add_0_r.
        -- rewrite <- plus_n_Sm. apply (Hb j c'); [lia | exact Hc'].
      * intros ([|i] & c & Hn & Hf & Hb).
        -- injection Hn as <-. rewrite Nat.add_0_r in Hf. congruence.
        -- assert (Er : detail_all context rest (S idx) = Hangs).
           { apply IH. exists i, c. split; [exact Hn|].
             rewrite <- plus_n_Sm in Hf. split; [exact Hf|].
             intros j c' Hj Hc'.
             destruct (Hb (S j) c' ltac:(lia) Hc') as [dt Hdt].
             exists dt. now rewrite <- plus_n_Sm in Hdt. }
           now rewrite Er.
    + split; [discriminate|].
      intros ([|i] & c & Hn & Hf & Hb).
      * injection Hn as <-. rewrite Nat.add_0_r in Hf. congruence.
      * destruct (Hb 0%nat card ltac:(lia) eq_refl) as [dt Hdt].
        rewrite Nat.add_0_r in Hdt. congruence.
    + split; [|reflexivity]. intros _. exists 0%nat, card.
      split; [reflexivity|]. rewrite Nat.add_0_r. split; [exact Ed|].
      intros j c' Hj. lia.
Qed.

(** X22 -- the collector always ends, with cards or with an exception.
    [scrape] fails to end exactly when the collector returned cards and, the
    detail pages of the cards before it having given their records, the
    detail page of some card loads but lacks the element of a primary
    figure: the read of that figure, made without a timeout, waits for good.
    [main] then writes nothing, and that is the only way for it not to
    end. *)
Theorem X22_scrape_waits_for_missing_figure {U : Unicode}
    (context : browser_context) (limit : Z) :
  fst (_collect_home_cards (context 0%nat) limit) <> Hangs
  /\ (scrape context limit = Hangs
      <-> exists home_cards i card status,
            fst (_collect_home_cards (context 0%nat) limit) = Ok home_cards
            /\ nth_error home_cards i = Some card
            /\ response (context (S i) [Goto (HomeCard.detail_url card)])
               = Some status
            /\ (status < 400)%N
            /\ figures_shown (context (S i))
                 (detail_trace (context (S i)) (HomeCard.detail_url card))
               = false
            /\ forall j card',
                 (j < i)%nat -> nth_error home_cards j = Some card' ->
                 exists detail,
                   fst (_scrape_property_detail (context (S j))
                          (HomeCard.detail_url card')) = Ok detail)
  /\ (main context = Hangs <-> scrape context 10 = Hangs).
Proof.
  assert (Hc : fst (_collect_home_cards (context 0%nat) limit) <> Hangs).
  { pose proof (collect_home_cards_unfold (context 0%nat) limit) as H.
    cbv zeta in H. rewrite H. cbn [fst].
    destruct (page_locator _ HOME_CARD); [discriminate|].
    apply parse_all_returns. }
  split; [exact Hc|]. split.
  - unfold scrape.
    destruct (fst (_collect_home_cards (context 0%nat) limit))
      as [home_cards|e|]; [| |contradiction].
    + rewrite scrape_loop_detail_all.
      assert (Hd : match detail_all context home_cards 1 with
                   | Ok results' => Ok ([] ++ results')
                   | Error e => Error e
                   | Hangs => Hangs
                   end = Hangs
                   <-> detail_all context home_cards 1 = Hangs)
        by (destruct (detail_all context home_cards 1);
            split; congruence).
      rewrite Hd, detail_all_Hangs. split.
      * intros (i & card & Hn & Hf & Hb).
        apply scrape_property_detail_hangs in Hf as (status & Hr & Hs & Hf).
        exists home_cards, i, card, status. repeat split; assumption.
      * intros (cards & i & card & status & E & Hn & Hr & Hs & Hf & Hb).
        injection E as <-. exists i, card. split; [exact Hn|].
        split; [|exact Hb].
        apply scrape_property_detail_hangs. now exists status.
    + split; [discriminate|].
      intros (cards & i & card & status & E & _). discriminate E.
  - unfold main. destruct (scrape context 10); split; congruence.
Qed.
